(** * NotFlappyBird: a shallow embedding of [main.c] and its specification

    The development follows the layout of the C source: machine integers,
    the console and the other services of the platform, entity views and
    entities, the renderer and the double-buffered display, obstacles, the
    score counter, the game state machine and the periodic timers.  The
    theorems come after the definitions.

    The repository holds a second, earlier version of the same file, in
    which entities carry a type tag and a time stamp that no function
    reads, there is no quit flag, and [end_game] does not set the console
    title.  The functions modelled here are otherwise the same in both;
    the model follows [main.c]. *)

From Stdlib Require Import ZArith List String Ascii Bool Lia.
From Stdlib Require Import Floats.SpecFloat.
From Stdlib Require DecimalString.
From stdpp Require Import base option list.
Import ListNotations.

Local Open Scope Z_scope.

(** ** Constants of the program *)

Definition SCREEN_WIDTH : Z := 300.
Definition SCREEN_HEIGHT : Z := 80.
Definition FRAME_RATE : Z := 144.
Definition SCORE_COUNTER_DIGITS : Z := 5.

(** Capacity of [struct Entity]'s [views] array, [views[10]]. *)
Definition MAX_VIEWS : Z := 10.

(** ** Machine integers

    [int] is a 32-bit two's complement integer and [unsigned int] a 32-bit
    natural number.  Both are carried as [Z]; every arithmetic operation of
    the source is followed by the reduction into the range of its type.  For
    [int] this is the behaviour of the compiled program (the C standard
    leaves signed overflow undefined).  Division and remainder truncate
    towards zero, as [/] and [%] do in C. *)

Module CInt.

Definition wrap (z : Z) : Z := (z + 2 ^ 31) mod 2 ^ 32 - 2 ^ 31.
Definition uwrap (z : Z) : Z := z mod 2 ^ 32.

Definition in_range (z : Z) : Prop := - 2 ^ 31 <= z < 2 ^ 31.

Definition add (a b : Z) : Z := wrap (a + b).
Definition sub (a b : Z) : Z := wrap (a - b).
Definition neg (a : Z) : Z := wrap (- a).
Definition div (a b : Z) : Z := wrap (Z.quot a b).
Definition rem (a b : Z) : Z := Z.rem a b.
Definition mul (a b : Z) : Z := wrap (a * b).

Definition uadd (a b : Z) : Z := uwrap (a + b).
Definition urem (a b : Z) : Z := a mod b.

(** [size_t], taken as 64 bits wide. *)
Definition to_size_t (z : Z) : Z := z mod 2 ^ 64.

End CInt.

(** ** The platform: console, clock, random numbers, keyboard, files

    The program talks to its platform through [printf] and the console
    cursor, [gettimeofday], [rand], [GetAsyncKeyState] and the C file
    functions.  The console is an output trace; the other services are
    oracles: the n-th call returns the n-th answer. *)

Inductive PrintArg :=
| ArgChar (c : ascii)
| ArgInt (n : Z)
| ArgStr (s : string).

Inductive Event :=
| EvSetCursor (x y : Z)                        (* set_cursor(x, y) *)
| EvPrintf (fmt : string) (args : list PrintArg). (* printf(fmt, args...) *)

(** What [fopen], [fscanf] and the reading loop of
    [add_entity_view_from_file] find for a file name: the file cannot be
    opened; [fscanf] converts fewer than four header fields; [realloc]
    fails while the body is read; or a header and the characters that follow
    the position the loader seeks back to. *)
Inductive FileRead :=
| OpenFailed
| HeaderMalformed
| AllocFailed
| AssetOk (w h ox oy : Z) (body : list ascii).

Record World := mkWorld {
  clock : nat -> Z;
  ticks : nat;
  rand_seq : nat -> Z;
  draws : nat;
  key_state : nat -> Z -> bool;
  polls : nat;
  files : string -> FileRead;
  out : list Event
}.


(** ** Outcomes

    A call returns, ends the process through [exit], has no defined
    behaviour (a store or a load outside an array, a division by zero), or
    runs out of the fuel given to a [while] loop. *)

Inductive Res (A : Type) :=
| Ret (a : A)
| Exit (status : Z) (console : list Event)
| Undef
| Timeout.

Arguments Ret {A} a.
Arguments Exit {A} status console.
Arguments Undef {A}.
Arguments Timeout {A}.

Definition res_bind {A B} (r : Res A) (k : A -> Res B) : Res B :=
  match r with
  | Ret a => k a
  | Exit s c => Exit s c
  | Undef => Undef
  | Timeout => Timeout
  end.

(** Computations that use the platform. *)
Definition M (A : Type) : Type := World -> Res (A * World).

Definition ret {A} (a : A) : M A := fun w => Ret (a, w).

Definition bind {A B} (m : M A) (k : A -> M B) : M B :=
  fun w => res_bind (m w) (fun aw => k (fst aw) (snd aw)).

Definition lift {A} (r : Res A) : M A :=
  fun w => res_bind r (fun a => Ret (a, w)).

(** The value a computation returns, if it returns. *)
Definition ret_value {A} (r : Res (A * World)) : option A :=
  match r with
  | Ret (a, _) => Some a
  | _ => None
  end.

(** [for (i = ...; ...; i++) body], over the values that [i] takes. *)
Fixpoint for_each {A S} (l : list A) (body : A -> S -> M S) (s : S) : M S :=
  match l with
  | [] => ret s
  | a :: l' => bind (body a s) (for_each l' body)
  end.

Fixpoint res_for_each {A S} (l : list A) (body : A -> S -> Res S) (s : S)
  : Res S :=
  match l with
  | [] => Ret s
  | a :: l' => res_bind (body a s) (res_for_each l' body)
  end.

Declare Scope game_scope.
Delimit Scope game_scope with game.
Notation "x <- m ;; k" := (bind m (fun x => k))
  (at level 100, m at next level, right associativity) : game_scope.
Notation "m ;;; k" := (bind m (fun _ => k))
  (at level 100, right associativity) : game_scope.

Definition with_out (w : World) (o : list Event) : World :=
  mkWorld (clock w) (ticks w) (rand_seq w) (draws w) (key_state w) (polls w)
          (files w) o.

Definition emit (ev : Event) : M unit :=
  fun w => Ret (tt, with_out w (out w ++ [ev])).

Definition printf (fmt : string) (args : list PrintArg) : M unit :=
  emit (EvPrintf fmt args).

Definition set_cursor (x y : Z) : M unit := emit (EvSetCursor x y).

Definition exit {A} (status : Z) : M A := fun w => Exit status (out w).

Definition millis : M Z :=
  fun w => Ret (clock w (ticks w),
                mkWorld (clock w) (S (ticks w)) (rand_seq w) (draws w)
                        (key_state w) (polls w) (files w) (out w)).

Definition rand : M Z :=
  fun w => Ret (rand_seq w (draws w),
                mkWorld (clock w) (ticks w) (rand_seq w) (S (draws w))
                        (key_state w) (polls w) (files w) (out w)).

Definition GetAsyncKeyState (vk : Z) : M bool :=
  fun w => Ret (key_state w (polls w) vk,
                mkWorld (clock w) (ticks w) (rand_seq w) (draws w)
                        (key_state w) (S (polls w)) (files w) (out w)).

(** ** Entity views and entities *)

Module EntityView.
Record t := mk {
  origin_x : Z;
  origin_y : Z;
  width : Z;
  height : Z;
  display : list ascii   (* the heap buffer; [display_size] is its length *)
}.

Definition display_size (v : t) : Z := Z.of_nat (length (display v)).

(** The view of a zero-initialised slot: all fields 0, [display] null. *)
Definition zero : t := mk 0 0 0 0 [].
End EntityView.

Module Entity.
Record t := mk {
  x : Z;
  y : Z;
  num_views : Z;
  current_view : Z;
  views : list EntityView.t;   (* the slots of [views[10]] *)
  visible : bool
}.

Definition set_x (v : Z) (e : t) : t :=
  mk v (y e) (num_views e) (current_view e) (views e) (visible e).
Definition set_y (v : Z) (e : t) : t :=
  mk (x e) v (num_views e) (current_view e) (views e) (visible e).
Definition set_num_views (v : Z) (e : t) : t :=
  mk (x e) (y e) v (current_view e) (views e) (visible e).
Definition set_current_view (v : Z) (e : t) : t :=
  mk (x e) (y e) (num_views e) v (views e) (visible e).
Definition set_views (v : list EntityView.t) (e : t) : t :=
  mk (x e) (y e) (num_views e) (current_view e) v (visible e).
Definition set_visible (v : bool) (e : t) : t :=
  mk (x e) (y e) (num_views e) (current_view e) (views e) v.

(** [struct Entity e = {}]. *)
Definition zero : t :=
  mk 0 0 0 0 (replicate (Z.to_nat MAX_VIEWS) EntityView.zero) false.

(** [e->views[k]] as an rvalue: defined inside the array only. *)
Definition view_at (e : t) (k : Z) : Res EntityView.t :=
  if (0 <=? k) && (k <? MAX_VIEWS) then
    match views e !! Z.to_nat k with
    | Some v => Ret v
    | None => Undef
    end
  else Undef.

(** [e->views[k] = v]. *)
Definition store_view (e : t) (k : Z) (v : EntityView.t) : Res t :=
  if (0 <=? k) && (k <? MAX_VIEWS) then
    match views e !! Z.to_nat k with
    | Some _ => Ret (set_views (<[Z.to_nat k := v]> (views e)) e)
    | None => Undef
    end
  else Undef.
End Entity.

(** [create_entity] *)
Definition create_entity : Entity.t := Entity.set_visible true Entity.zero.

(** [next_entity_view]: the remainder by [num_views] has no defined value
    when the entity has no view. *)
Definition next_entity_view (e : Entity.t) : Res Entity.t :=
  if Entity.num_views e =? 0 then Undef
  else Ret (Entity.set_current_view
              (CInt.urem (CInt.uadd (Entity.current_view e) 1)
                         (Entity.num_views e)) e).

(** [n] calls of [next_entity_view] in a row. *)
Fixpoint next_entity_view_times (n : nat) (e : Entity.t) : Res Entity.t :=
  match n with
  | O => Ret e
  | S n' => res_bind (next_entity_view e) (next_entity_view_times n')
  end.

(** ** Collision detection *)

(** [check_collision] *)
Definition check_collision (entity1 entity2 : Entity.t) : Res bool :=
  res_bind (Entity.view_at entity1 (Entity.current_view entity1)) (fun view1 =>
  res_bind (Entity.view_at entity2 (Entity.current_view entity2)) (fun view2 =>
    let x1 := CInt.sub (Entity.x entity1) (EntityView.origin_x view1) in
    let y1 := CInt.sub (Entity.y entity1) (EntityView.origin_y view1) in
    let x2 := CInt.sub (Entity.x entity2) (EntityView.origin_x view2) in
    let y2 := CInt.sub (Entity.y entity2) (EntityView.origin_y view2) in
    let w1 := EntityView.width view1 in
    let h1 := EntityView.height view1 in
    let w2 := EntityView.width view2 in
    let h2 := EntityView.height view2 in
    let collision_x :=
      ((x1 <? x2) && (CInt.add x1 w1 >? x2))
      || ((x2 <? x1) && (CInt.add x2 w2 >? x1)) in
    let collision_y :=
      ((y1 <? y2) && (CInt.add y1 h1 >? y2))
      || ((y2 <? y1) && (CInt.add y2 h2 >? y1)) in
    Ret (collision_x && collision_y))).


(** ** Obstacles, bird, score counter *)

Module Obstacle.
Record t := mk {
  x : Z;
  y : Z;
  gap_size : Z;
  top_entity : Entity.t;
  bottom_entity : Entity.t;
  score_collected : bool
}.

Definition set_x (v : Z) (o : t) : t :=
  mk v (y o) (gap_size o) (top_entity o) (bottom_entity o) (score_collected o).
Definition set_y (v : Z) (o : t) : t :=
  mk (x o) v (gap_size o) (top_entity o) (bottom_entity o) (score_collected o).
Definition set_top_entity (v : Entity.t) (o : t) : t :=
  mk (x o) (y o) (gap_size o) v (bottom_entity o) (score_collected o).
Definition set_bottom_entity (v : Entity.t) (o : t) : t :=
  mk (x o) (y o) (gap_size o) (top_entity o) v (score_collected o).
Definition set_score_collected (v : bool) (o : t) : t :=
  mk (x o) (y o) (gap_size o) (top_entity o) (bottom_entity o) v.
End Obstacle.

Module Bird.
Record t := mk {
  entity : Entity.t;
  velocity : spec_float   (* a C [float]: IEEE 754 binary32 *)
}.

Definition set_entity (v : Entity.t) (b : t) : t := mk v (velocity b).
Definition set_velocity (v : spec_float) (b : t) : t := mk (entity b) v.
End Bird.

Module ScoreCounter.
Record t := mk {
  digits : list Entity.t;   (* [digits[SCORE_COUNTER_DIGITS]] *)
  score : Z;
  x : Z;
  y : Z
}.

Definition set_digits (v : list Entity.t) (c : t) : t :=
  mk v (score c) (x c) (y c).
End ScoreCounter.

(** ** Display state

    A frame is [char frame[SCREEN_WIDTH][SCREEN_HEIGHT]]: a list of columns,
    [frame[x][y]] being row [y] of column [x]. *)

Abbreviation Frame := (list (list ascii)).

Definition frame_get (f : Frame) (x y : nat) : ascii :=
  match f !! x with
  | Some col => match col !! y with Some c => c | None => " "%char end
  | None => " "%char
  end.

Definition frame_set (f : Frame) (x y : nat) (c : ascii) : Frame :=
  alter (fun col => <[y := c]> col) x f.

(** A frame of [wd] columns of [ht] rows. *)
Definition frame_dims (wd ht : nat) (f : Frame) : Prop :=
  length f = wd /\ Forall (fun col => length col = ht) f.

(** A frame has the dimensions of the screen. *)
Definition frame_ok (f : Frame) : Prop :=
  frame_dims (Z.to_nat SCREEN_WIDTH) (Z.to_nat SCREEN_HEIGHT) f.

Module DisplayState.
Record t := mk {
  current_frame : Frame;
  next_frame : Frame;
  last_frame_time : Z
}.

Definition set_current_frame (v : Frame) (d : t) : t :=
  mk v (next_frame d) (last_frame_time d).
Definition set_next_frame (v : Frame) (d : t) : t :=
  mk (current_frame d) v (last_frame_time d).
Definition set_last_frame_time (v : Z) (d : t) : t :=
  mk (current_frame d) (next_frame d) v.
End DisplayState.

(** ** Game state *)

Inductive ScreenType := TITLE_SCREEN | GAME_SCREEN.

(** A [struct Entity *] held in [entities[25]]: the address of an entity
    that lives inside the game state. *)
Inductive EntityRef :=
| RefBird
| RefPressSpaceToStart
| RefTitleText
| RefObstacleTop (i : nat)
| RefObstacleBottom (i : nat)
| RefDigit (i : nat).

Module GameState.
Record t := mk {
  bird : Bird.t;
  entities : list EntityRef;      (* [entities[0 .. entity_count - 1]] *)
  obstacles : list Obstacle.t;    (* [obstacles[0 .. obstacle_count - 1]] *)
  press_space_to_start : Entity.t;
  screen_type : ScreenType;
  title_text : Entity.t;
  score : Z;
  score_counter : ScoreCounter.t;
  quit : bool
}.

Definition entity_count (g : t) : Z := Z.of_nat (length (entities g)).
Definition obstacle_count (g : t) : Z := Z.of_nat (length (obstacles g)).

Definition set_bird (v : Bird.t) (g : t) : t :=
  mk v (entities g) (obstacles g) (press_space_to_start g) (screen_type g)
     (title_text g) (score g) (score_counter g) (quit g).
Definition set_obstacles (v : list Obstacle.t) (g : t) : t :=
  mk (bird g) (entities g) v (press_space_to_start g) (screen_type g)
     (title_text g) (score g) (score_counter g) (quit g).
Definition set_press_space_to_start (v : Entity.t) (g : t) : t :=
  mk (bird g) (entities g) (obstacles g) v (screen_type g)
     (title_text g) (score g) (score_counter g) (quit g).
Definition set_screen_type (v : ScreenType) (g : t) : t :=
  mk (bird g) (entities g) (obstacles g) (press_space_to_start g) v
     (title_text g) (score g) (score_counter g) (quit g).
Definition set_title_text (v : Entity.t) (g : t) : t :=
  mk (bird g) (entities g) (obstacles g) (press_space_to_start g)
     (screen_type g) v (score g) (score_counter g) (quit g).
Definition set_score (v : Z) (g : t) : t :=
  mk (bird g) (entities g) (obstacles g) (press_space_to_start g)
     (screen_type g) (title_text g) v (score_counter g) (quit g).
Definition set_score_counter (v : ScoreCounter.t) (g : t) : t :=
  mk (bird g) (entities g) (obstacles g) (press_space_to_start g)
     (screen_type g) (title_text g) (score g) v (quit g).
Definition set_quit (v : bool) (g : t) : t :=
  mk (bird g) (entities g) (obstacles g) (press_space_to_start g)
     (screen_type g) (title_text g) (score g) (score_counter g) v.

(** [*p] for a registered pointer [p]. *)
Definition deref (g : t) (p : EntityRef) : Res Entity.t :=
  let of_option (o : option Entity.t) :=
    match o with Some e => Ret e | None => Undef end in
  match p with
  | RefBird => Ret (Bird.entity (bird g))
  | RefPressSpaceToStart => Ret (press_space_to_start g)
  | RefTitleText => Ret (title_text g)
  | RefObstacleTop i => of_option (Obstacle.top_entity <$> obstacles g !! i)
  | RefObstacleBottom i =>
      of_option (Obstacle.bottom_entity <$> obstacles g !! i)
  | RefDigit i => of_option (ScoreCounter.digits (score_counter g) !! i)
  end.
End GameState.

(** ** Renderer *)

Definition is_newline (c : ascii) : bool :=
  Ascii.eqb c "010" || Ascii.eqb c "013".

(** The loop of [render_entity] over the characters of the view, with its
    cursor [current_x], [current_y]. *)
Fixpoint render_chars (start_x : Z) (chars : list ascii)
  (current_x current_y : Z) (frame : Frame) : Frame :=
  match chars with
  | [] => frame
  | c :: rest =>
      if is_newline c then
        render_chars start_x rest start_x (CInt.add current_y 1) frame
      else
        let frame' :=
          if (current_x >=? 0) && (current_x <? SCREEN_WIDTH)
             && (current_y >=? 0) && (current_y <? SCREEN_HEIGHT)
          then frame_set frame (Z.to_nat current_x) (Z.to_nat current_y) c
          else frame in
        render_chars start_x rest (CInt.add current_x 1) current_y frame'
  end.

(** [render_entity].  The loop runs while [i < display_size - 1], computed
    in [size_t]: with an empty [display] the bound wraps around and the
    loop reads through a null pointer. *)
Definition render_entity (entity : Entity.t) (frame : Frame) : Res Frame :=
  if negb (Entity.visible entity) then Ret frame
  else
    res_bind (Entity.view_at entity (Entity.current_view entity)) (fun view =>
      let start_x := CInt.sub (Entity.x entity) (EntityView.origin_x view) in
      let start_y := CInt.sub (Entity.y entity) (EntityView.origin_y view) in
      match EntityView.display view with
      | [] => Undef
      | chars =>
          Ret (render_chars start_x (take (length chars - 1) chars)
                            start_x start_y frame)
      end).

(** [memset(next_frame, ' ', sizeof(next_frame))] *)
Definition blank_frame : Frame :=
  replicate (Z.to_nat SCREEN_WIDTH) (replicate (Z.to_nat SCREEN_HEIGHT) " "%char).

(** The two border loops of [render_next_frame]. *)
Definition draw_border (frame : Frame) : Frame :=
  let frame :=
    fold_left (fun f x =>
                 let f := frame_set f x 0 "="%char in
                 frame_set f x (Z.to_nat (SCREEN_HEIGHT - 1)) "="%char)
              (seq 0 (Z.to_nat SCREEN_WIDTH)) frame in
  fold_left (fun f y =>
               let f := frame_set f 0 y "|"%char in
               frame_set f (Z.to_nat (SCREEN_WIDTH - 1)) y "|"%char)
            (seq 0 (Z.to_nat SCREEN_HEIGHT)) frame.

(** [render_next_frame] *)
Definition render_next_frame (display_state : DisplayState.t)
  (game_state : GameState.t) : Res DisplayState.t :=
  res_bind
    (res_for_each (GameState.entities game_state)
       (fun p frame =>
          res_bind (GameState.deref game_state p) (fun entity =>
            render_entity entity frame))
       blank_frame)
    (fun frame =>
       Ret (DisplayState.set_next_frame (draw_border frame) display_state)).

(** ** Display update *)

(** The body of the two loops of [update_display], at cell [x], [y]. *)
Definition update_cell (x y : nat) (display_state : DisplayState.t)
  : M DisplayState.t :=
  let cur := frame_get (DisplayState.current_frame display_state) x y in
  let nxt := frame_get (DisplayState.next_frame display_state) x y in
  if negb (Ascii.eqb cur nxt) then
    bind (set_cursor (Z.of_nat x) (Z.of_nat y)) (fun _ =>
    bind (printf "%c" [ArgChar nxt]) (fun _ =>
    ret (DisplayState.set_current_frame
           (frame_set (DisplayState.current_frame display_state) x y nxt)
           display_state)))
  else ret display_state.

(** [update_display] *)
Definition update_display (display_state : DisplayState.t)
  : M DisplayState.t :=
  bind
    (for_each (seq 0 (Z.to_nat SCREEN_HEIGHT))
       (fun y => for_each (seq 0 (Z.to_nat SCREEN_WIDTH))
                          (fun x => update_cell x y))
       display_state)
    (fun display_state =>
       bind millis (fun now =>
       ret (DisplayState.set_last_frame_time now display_state))).

(** ** Loading views *)

Definition nl : string := String "010" EmptyString.

(** The reading loop of [add_entity_view_from_file]: characters are
    appended until [fgetc] returns [EOF] or a character that compares equal
    to 0 or to [EOF] once stored in a [char]; that last character is stored
    as 0. *)
Fixpoint read_display (body : list ascii) : list ascii :=
  match body with
  | [] => ["000"%char]
  | c :: rest =>
      if Ascii.eqb c "000" || Ascii.eqb c "255" then ["000"%char]
      else c :: read_display rest
  end.

(** [add_entity_view_from_file] *)
Definition add_entity_view_from_file (entity : Entity.t) (filename : string)
  : M Entity.t :=
  fun w =>
    match files w filename with
    | OpenFailed =>
        bind (printf "Error opening file '%s'" [ArgStr filename])
             (fun _ => exit 1) w
    | HeaderMalformed =>
        bind (printf ("Error parsing entity file '%s'" ++ nl)
                     [ArgStr filename])
             (fun _ => exit 1) w
    | AllocFailed =>
        bind (printf ("Error allocating memory for entity view display" ++ nl)
                     [])
             (fun _ => exit 1) w
    | AssetOk width height origin_x origin_y body =>
        let view :=
          EntityView.mk origin_x origin_y width height (read_display body) in
        bind (lift (Entity.store_view entity (Entity.num_views entity) view))
             (fun entity =>
        let entity :=
          Entity.set_num_views (CInt.uadd (Entity.num_views entity) 1) entity in
        bind (printf ("Loaded entity view: %s" ++ nl) [ArgStr filename])
             (fun _ => ret entity)) w
    end.

(** ** Obstacles *)

(** [update_obstacle] *)
Definition update_obstacle (obstacle : Obstacle.t) : Obstacle.t :=
  let top := Entity.set_x (Obstacle.x obstacle) (Obstacle.top_entity obstacle) in
  let bottom :=
    Entity.set_x (Obstacle.x obstacle) (Obstacle.bottom_entity obstacle) in
  let top :=
    Entity.set_y (CInt.sub (Obstacle.y obstacle) (Obstacle.gap_size obstacle))
                 top in
  let bottom :=
    Entity.set_y (CInt.add (Obstacle.y obstacle) (Obstacle.gap_size obstacle))
                 bottom in
  Obstacle.set_bottom_entity bottom (Obstacle.set_top_entity top obstacle).

(** ** Score counter *)

(** The [while (score > 0)] loop of [update_score_counter].  It stores to
    [digits[digit_number]]; the store is defined inside the array only. *)
Fixpoint score_digits_loop (fuel : nat) (score digit_number : Z)
  (digits : list Entity.t) : Res (Z * list Entity.t) :=
  match fuel with
  | O => Timeout
  | S fuel' =>
      if score >? 0 then
        let digit := CInt.rem score 10 in
        if (0 <=? digit_number) && (digit_number <? SCORE_COUNTER_DIGITS) then
          match digits !! Z.to_nat digit_number with
          | Some d =>
              let d := Entity.set_current_view (CInt.uwrap digit) d in
              let d := Entity.set_visible true d in
              score_digits_loop fuel' (CInt.div score 10)
                (CInt.add digit_number 1)
                (<[Z.to_nat digit_number := d]> digits)
          | None => Undef
          end
        else Undef
      else Ret (digit_number, digits)
  end.

(** The loop stops after at most [SCORE_COUNTER_DIGITS] stores: one more
    has no defined behaviour. *)
Definition score_loop_fuel : nat := S (Z.to_nat SCORE_COUNTER_DIGITS).

(** The [for] loop of [update_score_counter] that hides the digits from
    [digit_number] on. *)
Definition hide_digits_from (digit_number : Z) (digits : list Entity.t)
  : list Entity.t :=
  fold_left (fun ds i => alter (Entity.set_visible false) i ds)
            (seq (Z.to_nat digit_number)
                 (Z.to_nat (SCORE_COUNTER_DIGITS - digit_number)))
            digits.

(** [update_score_counter] *)
Definition update_score_counter (game_state : GameState.t)
  : Res GameState.t :=
  let score_counter := GameState.score_counter game_state in
  let score := GameState.score game_state in
  res_bind
    (score_digits_loop score_loop_fuel score 0
                       (ScoreCounter.digits score_counter))
    (fun '(digit_number, digits) =>
       Ret (GameState.set_score_counter
              (ScoreCounter.set_digits (hide_digits_from digit_number digits)
                                       score_counter)
              game_state)).

(** ** World scrolling *)

Definition ESC : string := String "027" EmptyString.
Definition BEL : string := String "007" EmptyString.

Definition with_obstacle (i : nat) (f : Obstacle.t -> Obstacle.t)
  (game_state : GameState.t) : GameState.t :=
  GameState.set_obstacles (alter f i (GameState.obstacles game_state))
                          game_state.

(** [game_state->obstacles[i]], read. *)
Definition obstacle_at (game_state : GameState.t) (i : nat) : M Obstacle.t :=
  lift (match GameState.obstacles game_state !! i with
        | Some o => Ret o
        | None => Undef
        end).

(** [(rand() % (SCREEN_HEIGHT - SCREEN_HEIGHT / 2)) + SCREEN_HEIGHT / 4] *)
Definition random_center : M Z :=
  bind rand (fun r =>
  ret (CInt.add (CInt.rem r (SCREEN_HEIGHT - Z.quot SCREEN_HEIGHT 2))
                (Z.quot SCREEN_HEIGHT 4))).

(** The body of the obstacle loop of [scroll_world], for obstacle [i]. *)
Definition scroll_obstacle (i : nat) (game_state : GameState.t)
  : M GameState.t :=
  bind (obstacle_at game_state i) (fun ob =>
  let game_state :=
    with_obstacle i (Obstacle.set_x (CInt.sub (Obstacle.x ob) 1)) game_state in
  bind
    (match GameState.screen_type game_state with
     | GAME_SCREEN =>
         bind (obstacle_at game_state i) (fun ob =>
         if (Obstacle.x ob <? Entity.x (Bird.entity (GameState.bird game_state)))
            && negb (Obstacle.score_collected ob)
         then
           let game_state :=
             GameState.set_score (CInt.add (GameState.score game_state) 1)
                                 game_state in
           bind (lift (update_score_counter game_state)) (fun game_state =>
           bind (printf (ESC ++ "]0; Score: %d " ++ BEL)
                        [ArgInt (GameState.score game_state)]) (fun _ =>
           ret (with_obstacle i (Obstacle.set_score_collected true)
                              game_state)))
         else ret game_state)
     | TITLE_SCREEN => ret game_state
     end)
    (fun game_state =>
  bind (obstacle_at game_state i) (fun ob =>
  bind (lift (Entity.view_at (Obstacle.top_entity ob) 0)) (fun view0 =>
  bind
    (if Obstacle.x ob <? CInt.neg (EntityView.width view0) then
       let game_state :=
         with_obstacle i (Obstacle.set_x SCREEN_WIDTH) game_state in
       bind random_center (fun c =>
       let game_state := with_obstacle i (Obstacle.set_y c) game_state in
       ret (with_obstacle i (Obstacle.set_score_collected false) game_state))
     else ret game_state)
    (fun game_state =>
  ret (with_obstacle i update_obstacle game_state)))))).

(** [scroll_world] *)
Definition scroll_world (game_state : GameState.t) : M GameState.t :=
  bind
    (for_each (seq 0 (length (GameState.obstacles game_state)))
              scroll_obstacle game_state)
    (fun game_state =>
       match GameState.screen_type game_state with
       | TITLE_SCREEN =>
           let text := GameState.press_space_to_start game_state in
           let text := Entity.set_x (CInt.add (Entity.x text) 1) text in
           if Entity.x text >? SCREEN_WIDTH then
             bind (lift (Entity.view_at text 0)) (fun view0 =>
             ret (GameState.set_press_space_to_start
                    (Entity.set_x (CInt.sub 0 (EntityView.width view0)) text)
                    game_state))
           else ret (GameState.set_press_space_to_start text game_state)
       | GAME_SCREEN => ret game_state
       end).

(** ** Starting and ending a game *)

Local Open Scope game_scope.

(** The body of the obstacle loop of [start_game], for obstacle [i].  The
    product [i * SCREEN_WIDTH] is an [int]; the division by [obstacle_count]
    and the sum are computed in [size_t] and stored into an [int]. *)
Definition place_obstacle (i : nat) (game_state : GameState.t)
  : M GameState.t :=
  if GameState.obstacle_count game_state =? 0 then lift Undef
  else
    let x :=
      CInt.wrap
        (CInt.to_size_t
           (CInt.to_size_t (Z.quot SCREEN_WIDTH 4)
            + CInt.to_size_t (CInt.mul (Z.of_nat i) SCREEN_WIDTH)
              / GameState.obstacle_count game_state)) in
    let game_state := with_obstacle i (Obstacle.set_x x) game_state in
    c <- random_center ;;
    let game_state := with_obstacle i (Obstacle.set_y c) game_state in
    let game_state :=
      with_obstacle i (Obstacle.set_score_collected false) game_state in
    ret (with_obstacle i update_obstacle game_state).

(** [start_game] *)
Definition start_game (game_state : GameState.t) : M GameState.t :=
  let game_state := GameState.set_screen_type GAME_SCREEN game_state in
  let game_state :=
    GameState.set_press_space_to_start
      (Entity.set_visible false (GameState.press_space_to_start game_state))
      game_state in
  let game_state :=
    GameState.set_title_text
      (Entity.set_visible false (GameState.title_text game_state))
      game_state in
  let bird := GameState.bird game_state in
  let game_state :=
    GameState.set_bird
      (Bird.set_entity
         (Entity.set_y (Z.quot SCREEN_HEIGHT 2)
            (Entity.set_x 10 (Bird.entity bird)))
         bird)
      game_state in
  let game_state := GameState.set_score 0 game_state in
  game_state <- lift (update_score_counter game_state) ;;
  for_each (seq 0 (length (GameState.obstacles game_state)))
           place_obstacle game_state.

(** [end_game] *)
Definition end_game (game_state : GameState.t) : M GameState.t :=
  let game_state := GameState.set_screen_type TITLE_SCREEN game_state in
  let game_state := GameState.set_score 0 game_state in
  let game_state :=
    GameState.set_title_text
      (Entity.set_visible true (GameState.title_text game_state))
      game_state in
  let game_state :=
    GameState.set_press_space_to_start
      (Entity.set_visible true (GameState.press_space_to_start game_state))
      game_state in
  printf (ESC ++ "]0; NotFlappyBird " ++ BEL) [] ;;;
  ret game_state.

(** ** Floating point

    [bird.velocity] is a C [float].  Its arithmetic is that of IEEE 754
    binary32, rounding to nearest even; the constant [0.2] is a [double]
    (binary64), so [velocity += 0.2] adds in binary64 and rounds the sum
    back to binary32. *)

Module CFloat.
Definition prec : Z := 24.
Definition emax : Z := 128.
Definition dprec : Z := 53.
Definition demax : Z := 1024.

(** [(float) n] *)
Definition of_int (n : Z) : spec_float := binary_normalize prec emax n 0 false.

(** [(float) d] for a [double] [d] *)
Definition of_double (d : spec_float) : spec_float :=
  match d with
  | S754_finite s m e => binary_round prec emax s m e
  | _ => d
  end.

(** The [double] constant [0.2]: 0x1.999999999999ap-3. *)
Definition double_0_2 : spec_float :=
  S754_finite false 7205759403792794 (-55).

Definition add (a b : spec_float) : spec_float := SFadd prec emax a b.
Definition sub (a b : spec_float) : spec_float := SFsub prec emax a b.
Definition div (a b : spec_float) : spec_float := SFdiv prec emax a b.
Definition add_double (a b : spec_float) : spec_float := SFadd dprec demax a b.
Definition ltb (a b : spec_float) : bool := SFltb a b.
Definition gtb (a b : spec_float) : bool := SFltb b a.

(** [(int) f]: truncation towards zero, defined when the result is an
    [int]. *)
Definition to_int (f : spec_float) : Res Z :=
  match f with
  | S754_zero _ => Ret 0
  | S754_finite s m e =>
      let magnitude :=
        match e with
        | Z0 => Zpos m
        | Zpos p => Z.shiftl (Zpos m) e
        | Zneg p => Z.shiftr (Zpos m) (- e)
        end in
      let n := if s then - magnitude else magnitude in
      if (- 2 ^ 31 <=? n) && (n <? 2 ^ 31) then Ret n else Undef
  | S754_infinity _ => Undef
  | S754_nan => Undef
  end.
End CFloat.

(** ** The game tick *)

(** Virtual-key codes of [winuser.h]. *)
Definition VK_ESCAPE : Z := 27.
Definition VK_SPACE : Z := 32.
Definition VK_LEFT : Z := 37.
Definition VK_RIGHT : Z := 39.

Definition with_bird_entity (f : Entity.t -> Entity.t)
  (game_state : GameState.t) : GameState.t :=
  let bird := GameState.bird game_state in
  GameState.set_bird (Bird.set_entity (f (Bird.entity bird)) bird) game_state.

Definition with_velocity (f : spec_float -> spec_float)
  (game_state : GameState.t) : GameState.t :=
  let bird := GameState.bird game_state in
  GameState.set_bird (Bird.set_velocity (f (Bird.velocity bird)) bird)
                     game_state.

Definition bird_entity (game_state : GameState.t) : Entity.t :=
  Bird.entity (GameState.bird game_state).

Definition bird_velocity (game_state : GameState.t) : spec_float :=
  Bird.velocity (GameState.bird game_state).

(** What [game_tick] does for the space bar. *)
Definition press_space (game_state : GameState.t) : M GameState.t :=
  game_state <-
    match GameState.screen_type game_state with
    | TITLE_SCREEN => start_game game_state
    | GAME_SCREEN => ret game_state
    end ;;
  let game_state :=
    if CFloat.gtb (bird_velocity game_state) (CFloat.of_int (-2)) then
      with_velocity (fun v => CFloat.sub v (CFloat.of_int 2)) game_state
    else game_state in
  entity <- lift (next_entity_view (bird_entity game_state)) ;;
  ret (with_bird_entity (fun _ => entity) game_state).

(** The body of the key loop of [game_tick], for key code [i]. *)
Definition handle_key (i : Z) (game_state : GameState.t) : M GameState.t :=
  down <- GetAsyncKeyState i ;;
  if down : bool then
    let game_state :=
      if i =? VK_LEFT then
        with_bird_entity (fun e => Entity.set_x (CInt.sub (Entity.x e) 1) e)
                         game_state
      else game_state in
    let game_state :=
      if i =? VK_RIGHT then
        with_bird_entity (fun e => Entity.set_x (CInt.add (Entity.x e) 1) e)
                         game_state
      else game_state in
    game_state <-
      (if i =? VK_SPACE then press_space game_state else ret game_state) ;;
    ret (if i =? VK_ESCAPE then GameState.set_quit true game_state
         else game_state)
  else ret game_state.

(** Gravity: [if (velocity < 1) velocity += 0.2]. *)
Definition apply_gravity (game_state : GameState.t) : GameState.t :=
  if CFloat.ltb (bird_velocity game_state) (CFloat.of_int 1) then
    with_velocity
      (fun v => CFloat.of_double (CFloat.add_double v CFloat.double_0_2))
      game_state
  else game_state.

(** The title-screen part of [game_tick]: the bird flies on its own. *)
Definition title_autopilot (game_state : GameState.t) : M GameState.t :=
  match GameState.screen_type game_state with
  | TITLE_SCREEN =>
      game_state <-
        (if Entity.y (bird_entity game_state)
            >? SCREEN_HEIGHT - Z.quot SCREEN_HEIGHT 4
         then
           r <- rand ;;
           let impulse :=
             CFloat.add (CFloat.of_int 3)
               (CFloat.div (CFloat.of_int (CInt.rem r 10)) (CFloat.of_int 8)) in
           ret (with_velocity (fun v => CFloat.sub v impulse) game_state)
         else ret game_state) ;;
      if Entity.x (bird_entity game_state) <? SCREEN_WIDTH then
        ret (with_bird_entity
               (fun e => Entity.set_x (CInt.add (Entity.x e) 1) e) game_state)
      else
        ret (with_bird_entity (fun e => Entity.set_y 0 (Entity.set_x 0 e))
                              game_state)
  | GAME_SCREEN => ret game_state
  end.

(** [check_collision(bird, top) || check_collision(bird, bottom)] *)
Definition hits_obstacle (bird : Entity.t) (ob : Obstacle.t) : Res bool :=
  res_bind (check_collision bird (Obstacle.top_entity ob)) (fun hit_top =>
    if hit_top : bool then Ret true
    else check_collision bird (Obstacle.bottom_entity ob)).

(** The body of the collision loop of [game_tick], for obstacle [i]. *)
Definition collide_obstacle (i : nat) (game_state : GameState.t)
  : M GameState.t :=
  ob <- obstacle_at game_state i ;;
  hit <- lift (hits_obstacle (bird_entity game_state) ob) ;;
  if hit : bool then end_game game_state else ret game_state.

Definition out_of_screen (e : Entity.t) : bool :=
  (Entity.x e <? 0) || (Entity.x e >? SCREEN_WIDTH)
  || (Entity.y e <? 0) || (Entity.y e >? SCREEN_HEIGHT).

(** The game-screen part of [game_tick]: collisions and screen edges. *)
Definition game_checks (game_state : GameState.t) : M GameState.t :=
  match GameState.screen_type game_state with
  | GAME_SCREEN =>
      game_state <-
        for_each (seq 0 (length (GameState.obstacles game_state)))
                 collide_obstacle game_state ;;
      if out_of_screen (bird_entity game_state) then end_game game_state
      else ret game_state
  | TITLE_SCREEN => ret game_state
  end.

(** [bird.entity.y += (int) bird.velocity] *)
Definition move_bird (game_state : GameState.t) : M GameState.t :=
  dy <- lift (CFloat.to_int (bird_velocity game_state)) ;;
  ret (with_bird_entity (fun e => Entity.set_y (CInt.add (Entity.y e) dy) e)
                        game_state).

(** [game_tick] *)
Definition game_tick (game_state : GameState.t) : M GameState.t :=
  game_state <-
    for_each (map Z.of_nat (seq 0 256)) handle_key game_state ;;
  let game_state := apply_gravity game_state in
  game_state <- title_autopilot game_state ;;
  game_state <- game_checks game_state ;;
  move_bird game_state.

(** [animate_bird] *)
Definition animate_bird (game_state : GameState.t) : M GameState.t :=
  entity <- lift (next_entity_view (bird_entity game_state)) ;;
  ret (with_bird_entity (fun _ => entity) game_state).

(** ** Periodic timers *)

Module PeriodicTimer.
Record t := mk {
  period : Z;
  last_trigger_time : Z;
  callback : GameState.t -> M GameState.t
}.

Definition set_last_trigger_time (v : Z) (p : t) : t :=
  mk (period p) v (callback p).
End PeriodicTimer.

(** The state of a scheduler pass: the game state, the timer array, and the
    indices of the timers whose callback has been called so far, oldest
    first.  The last component is not in the C program; it records the
    calls, so that they can be counted. *)
Definition PassState : Type :=
  GameState.t * list PeriodicTimer.t * list nat.

(** The body of the loop of [run_periodic_timers], for timer [i]. *)
Definition run_timer (i : nat) (st : PassState) : M PassState :=
  let '(game_state, periodic_timers, calls) := st in
  match periodic_timers !! i with
  | None => lift Undef
  | Some timer =>
      now <- millis ;;
      if now - PeriodicTimer.last_trigger_time timer
         >? PeriodicTimer.period timer
      then
        game_state <- PeriodicTimer.callback timer game_state ;;
        now <- millis ;;
        ret (game_state,
             <[i := PeriodicTimer.set_last_trigger_time now timer]>
               periodic_timers,
             calls ++ [i])
      else ret st
  end.

(** [run_periodic_timers], with [periodic_timer_count] the length of the
    array. *)
Definition run_periodic_timers (game_state : GameState.t)
  (periodic_timers : list PeriodicTimer.t) : M PassState :=
  for_each (seq 0 (length periodic_timers)) run_timer
           (game_state, periodic_timers, []).

(** The three timers of [main]. *)
Definition main_timers : list PeriodicTimer.t :=
  [ PeriodicTimer.mk 50 0 scroll_world;
    PeriodicTimer.mk 250 0 animate_bird;
    PeriodicTimer.mk 20 0 game_tick ].

Local Close Scope game_scope.

(** ** Notions of the specification *)

(** The specification's box of an entity under a view:
    [x - originX, x - originX + width) x [y - originY, y - originY + height). *)
Module Box.
Record t := mk { left : Z; top : Z; width : Z; height : Z }.

Definition of_entity (e : Entity.t) (v : EntityView.t) : t :=
  mk (Entity.x e - EntityView.origin_x v) (Entity.y e - EntityView.origin_y v)
     (EntityView.width v) (EntityView.height v).

(** The cell [(px, py)] lies in the box. *)
Definition contains (b : t) (px py : Z) : Prop :=
  left b <= px < left b + width b /\ top b <= py < top b + height b.

(** Two boxes overlap when they share a cell. *)
Definition overlap (a b : t) : Prop := exists px py, contains a px py /\ contains b px py.

Definition overlapb (a b : t) : bool :=
  (Z.max (left a) (left b) <? Z.min (left a + width a) (left b + width b))
  && (Z.max (top a) (top b) <? Z.min (top a + height a) (top b + height b)).
End Box.

(** The view an entity shows. *)
Definition active_view (e : Entity.t) (v : EntityView.t) : Prop :=
  Entity.view_at e (Entity.current_view e) = Ret v.

(** An entity at [(x, y)] with a single view of [w] by [h] cells, anchored at
    its top left corner. *)
Definition block (x y w h : Z) : Entity.t :=
  Entity.mk x y 1 0
    (<[0%nat := EntityView.mk 0 0 w h ["#"%char; "000"%char]]>
       (Entity.views Entity.zero))
    true.

(** The cells of the screen in the order [update_display] visits them: row
    by row, each row from left to right. *)
Definition screen_cells : list (nat * nat) :=
  flat_map (fun y => map (fun x => (x, y)) (seq 0 (Z.to_nat SCREEN_WIDTH)))
           (seq 0 (Z.to_nat SCREEN_HEIGHT)).

Definition differs (current next : Frame) (cell : nat * nat) : bool :=
  negb (Ascii.eqb (frame_get current (fst cell) (snd cell))
                  (frame_get next (fst cell) (snd cell))).

(** The cells where two frames differ, and their number. *)
Definition changed_cells (current next : Frame) : list (nat * nat) :=
  List.filter (differs current next) screen_cells.

Definition diff_count (current next : Frame) : nat :=
  length (changed_cells current next).

(** A positioned single-character write: the cursor is moved to the cell and
    one character is printed. *)
Definition positioned_write (next : Frame) (cell : nat * nat) : list Event :=
  [EvSetCursor (Z.of_nat (fst cell)) (Z.of_nat (snd cell));
   EvPrintf "%c" [ArgChar (frame_get next (fst cell) (snd cell))]].

Definition is_char_write (ev : Event) : bool :=
  match ev with
  | EvPrintf fmt [ArgChar _] => String.eqb fmt "%c"
  | _ => false
  end.

Definition is_cursor_move (ev : Event) : bool :=
  match ev with
  | EvSetCursor _ _ => true
  | _ => false
  end.

(** ** Sample data *)

(** A world whose clock reads 1000, 1001, ..., whose [rand] follows the
    linear congruential generator of the Microsoft C runtime, with no key
    held and no file. *)
Fixpoint msvc_seed (n : nat) : Z :=
  match n with
  | O => 1
  | S n' => (msvc_seed n' * 214013 + 2531011) mod 2 ^ 32
  end.

Definition sample_world : World :=
  mkWorld (fun n => 1000 + Z.of_nat n) 0
          (fun n => Z.land (Z.shiftr (msvc_seed (S n)) 16) 32767) 0
          (fun _ _ => false) 0
          (fun _ => OpenFailed)
          [].

(** A display whose current frame is blank and whose next frame differs
    from it in two cells. *)
Definition sample_display : DisplayState.t :=
  DisplayState.mk blank_frame
    (frame_set (frame_set blank_frame 3 4 "A"%char) 10 20 "B"%char) 0.

(** ** Decimal digits *)

Fixpoint count_digits (fuel : nat) (s : Z) : nat :=
  match fuel with
  | O => O
  | S fuel' => if 0 <? s then S (count_digits fuel' (s / 10)) else O
  end.

(** The number of base-10 digits of [s]; none for 0. *)
Definition num_digits (s : Z) : nat := count_digits (Z.to_nat s) s.

(** The digit of [s] at decimal place [i], the least significant being
    place 0. *)
Definition digit_of (s : Z) (i : nat) : Z := (s / 10 ^ Z.of_nat i) mod 10.

(** A game state that holds nothing but a score counter of five digit
    entities, each with room for the ten digit glyphs, and a score. *)
Definition digit_entity : Entity.t := Entity.set_num_views 10 Entity.zero.

Definition counter_state (score : Z) : GameState.t :=
  GameState.mk (Bird.mk create_entity (S754_zero false)) [] []
    create_entity TITLE_SCREEN create_entity score
    (ScoreCounter.mk (replicate 5 digit_entity) 0 0 0) false.

(** What one turn of the [while] loop of [update_score_counter] makes of a
    digit entity: it shows view [v]. *)
Definition show_digit (v : Z) (d : Entity.t) : Entity.t :=
  Entity.set_visible true (Entity.set_current_view v d).

(** The visibility and the shown view of the digit entities, least
    significant first. *)
Definition shown_digits (gs : GameState.t) : list (bool * Z) :=
  map (fun d => (Entity.visible d, Entity.current_view d))
      (ScoreCounter.digits (GameState.score_counter gs)).

(** ** The border of a frame *)

(** The border as the specification words it: top and bottom rows all ['='],
    leftmost and rightmost columns all ['|']. *)
Definition border_as_claimed (f : Frame) : Prop :=
  (forall x : nat, (x < Z.to_nat SCREEN_WIDTH)%nat ->
     frame_get f x 0 = "="%char
     /\ frame_get f x (Z.to_nat (SCREEN_HEIGHT - 1)) = "="%char)
  /\ (forall y : nat, (y < Z.to_nat SCREEN_HEIGHT)%nat ->
        frame_get f 0 y = "|"%char
        /\ frame_get f (Z.to_nat (SCREEN_WIDTH - 1)) y = "|"%char).

(** The border as [render_next_frame] draws it: the leftmost and rightmost
    columns are all ['|'], corners included; the top and bottom rows are
    ['='] between the corners. *)
Definition border_drawn (f : Frame) : Prop :=
  (forall x : nat, (0 < x < Z.to_nat (SCREEN_WIDTH - 1))%nat ->
     frame_get f x 0 = "="%char
     /\ frame_get f x (Z.to_nat (SCREEN_HEIGHT - 1)) = "="%char)
  /\ (forall y : nat, (y < Z.to_nat SCREEN_HEIGHT)%nat ->
        frame_get f 0 y = "|"%char
        /\ frame_get f (Z.to_nat (SCREEN_WIDTH - 1)) y = "|"%char).

(** A game state with two registered entities: the bird, a one-cell block
    in the top left corner of the screen, and the title text, a one-cell
    block on the top row. *)
Definition corner_state : GameState.t :=
  GameState.mk (Bird.mk (block 0 0 1 1) (S754_zero false))
    [RefTitleText; RefBird] []
    create_entity TITLE_SCREEN (block 5 0 1 1) 0
    (ScoreCounter.mk (replicate 5 digit_entity) 0 0 0) false.

(** An entity that [render_entity] can draw: it is hidden, or it shows a
    view whose [display] holds at least the terminating 0. *)
Definition renderable (e : Entity.t) : Prop :=
  Entity.visible e = false
  \/ exists v, active_view e v /\ EntityView.display v <> [].

(** The display after [corner_state] has been rendered. *)
Definition corner_rendered : DisplayState.t :=
  match render_next_frame sample_display corner_state with
  | Ret d => d
  | _ => sample_display
  end.

(** ** The view index invariant *)

(** The current view is one of the views, whenever there is a view. *)
Definition view_index_inv (e : Entity.t) : Prop :=
  Entity.num_views e <> 0 -> 0 <= Entity.current_view e < Entity.num_views e.

(** The invariant, together with what makes it hold of an entity without
    views once a first view is added: such an entity has index 0. *)
Definition entity_ok (e : Entity.t) : Prop :=
  (Entity.num_views e = 0 /\ Entity.current_view e = 0)
  \/ 0 <= Entity.current_view e < Entity.num_views e.

(** The entities the program can build: a created entity or one that is
    part of a zero-initialised structure; the result of adding a view below
    the capacity; the result of [next_entity_view] on any entity with a
    view; a digit entity after [update_score_counter], when the digit
    entities were built and hold ten views; and the result of writing a
    position or the visibility. *)
Inductive built : Entity.t -> Prop :=
| built_create : built create_entity
| built_zero : built Entity.zero
| built_add (e e' : Entity.t) (filename : string) (w w' : World) :
    built e ->
    Entity.num_views e < MAX_VIEWS ->
    add_entity_view_from_file e filename w = Ret (e', w') ->
    built e'
| built_next (e e' : Entity.t) :
    0 < Entity.num_views e ->
    next_entity_view e = Ret e' ->
    built e'
| built_score (gs gs' : GameState.t) (i : nat) (d' : Entity.t) :
    (forall d, d ∈ ScoreCounter.digits (GameState.score_counter gs) -> built d) ->
    (forall d, d ∈ ScoreCounter.digits (GameState.score_counter gs) ->
               Entity.num_views d = 10) ->
    update_score_counter gs = Ret gs' ->
    ScoreCounter.digits (GameState.score_counter gs') !! i = Some d' ->
    built d'
| built_set_x (e : Entity.t) (v : Z) : built e -> built (Entity.set_x v e)
| built_set_y (e : Entity.t) (v : Z) : built e -> built (Entity.set_y v e)
| built_set_visible (e : Entity.t) (v : bool) :
    built e -> built (Entity.set_visible v e).

(** ** Sample assets *)

(** A world with the ten digit assets [0.entity] to [9.entity], each a
    3 by 5 glyph, and no other file. *)
Definition digit_body : list ascii :=
  ["#"; "#"; "#"; "010"; "#"; " "; "#"; "010"; "#"; " "; "#"; "010";
   "#"; " "; "#"; "010"; "#"; "#"; "#"; "010"]%char.

Definition asset_files (name : string) : FileRead :=
  if existsb (String.eqb name)
       ["0.entity"; "1.entity"; "2.entity"; "3.entity"; "4.entity";
        "5.entity"; "6.entity"; "7.entity"; "8.entity"; "9.entity"]%string
  then AssetOk 3 5 0 0 digit_body
  else if String.eqb name "obstacle_top.entity" then
    AssetOk 3 2 0 2 ["["; "="; "]"; "010"; "["; "="; "]"; "010"]%char
  else if String.eqb name "obstacle_bottom.entity" then
    AssetOk 3 2 0 0 ["["; "="; "]"; "010"; "["; "="; "]"; "010"]%char
  else if String.eqb name "broken.entity" then HeaderMalformed
  else OpenFailed.

Definition asset_world : World :=
  mkWorld (clock sample_world) 0 (rand_seq sample_world) 0
          (key_state sample_world) 0 asset_files [].

(** An entity that holds ten views. *)
Definition full_entity : Entity.t :=
  Entity.mk 0 0 10 0
    (replicate 10 (EntityView.mk 0 0 3 5 (read_display digit_body))) true.

(** The claim that adding a view is reported as a fatal error: the process
    exits with a failure status after a diagnostic that names the file. *)
Definition reports_fatal_error (e : Entity.t) (filename : string) (w : World)
  : Prop :=
  exists status console,
    add_entity_view_from_file e filename w = Exit status console
    /\ status <> 0
    /\ exists fmt, In (EvPrintf fmt [ArgStr filename]) console.

(** A digit entity of the score counter: ten views, and a sound index. *)
Definition digit_ok (d : Entity.t) : Prop :=
  Entity.num_views d = 10 /\ entity_ok d.

(** Entities built from the sample assets: a created entity after one and
    after two views have been loaded. *)
Definition one_view_entity : Entity.t * World :=
  match add_entity_view_from_file create_entity "0.entity" asset_world with
  | Ret ew => ew
  | _ => (create_entity, asset_world)
  end.

Definition two_view_entity : Entity.t * World :=
  match add_entity_view_from_file (fst one_view_entity) "1.entity"
          (snd one_view_entity) with
  | Ret ew => ew
  | _ => one_view_entity
  end.

(** ** Timers that are due *)




(** A computation that returns leaves the clock of the platform as it is:
    the program cannot set the time. *)
Definition keeps {A} (m : M A) : Prop :=
  forall w a w', m w = Ret (a, w') -> clock w' = clock w.

Definition keeps_clock (t : PeriodicTimer.t) : Prop :=
  forall g, keeps (PeriodicTimer.callback t g).


(** Three timers whose callbacks count their calls in the score. *)
Definition count_call (g : GameState.t) : M GameState.t :=
  ret (GameState.set_score (GameState.score g + 1) g).

Definition sample_timers : list PeriodicTimer.t :=
  [ PeriodicTimer.mk 50 900 count_call;     (* 100 ms since the last call *)
    PeriodicTimer.mk 250 900 count_call;    (* not due *)
    PeriodicTimer.mk 20 0 count_call ].     (* fifty periods late *)

(** A world whose clock stands at 1000. *)
Definition still_world : World :=
  mkWorld (fun _ => 1000) 0 (rand_seq sample_world) 0
          (key_state sample_world) 0 asset_files [].

(** ** Scrolling an obstacle *)

(** The obstacle has passed the bird and its point has not been given. *)
Definition awards_point (gs : GameState.t) (ob : Obstacle.t) : bool :=
  match GameState.screen_type gs with
  | GAME_SCREEN =>
      (Obstacle.x ob <? Entity.x (bird_entity gs))
      && negb (Obstacle.score_collected ob)
  | TITLE_SCREEN => false
  end.

(** The recycling test of [scroll_world], on the obstacle after its move:
    [x < -views[0].width] of the top part. *)
Definition leaves_screen (ob : Obstacle.t) (view0 : EntityView.t) : bool :=
  Obstacle.x ob <? CInt.neg (EntityView.width view0).

(** An obstacle after one move to the left. *)
Definition moved_left (ob : Obstacle.t) : Obstacle.t :=
  Obstacle.set_x (CInt.sub (Obstacle.x ob) 1) ob.

(** The vertical centre drawn from the random number [r]. *)
Definition center_of (r : Z) : Z :=
  CInt.add (CInt.rem r (SCREEN_HEIGHT - Z.quot SCREEN_HEIGHT 2))
           (Z.quot SCREEN_HEIGHT 4).

(** The two parts of an obstacle sit at its [x], a gap above and below its
    centre. *)
Definition parts_placed (ob : Obstacle.t) : Prop :=
  Entity.x (Obstacle.top_entity ob) = Obstacle.x ob
  /\ Entity.y (Obstacle.top_entity ob)
     = CInt.sub (Obstacle.y ob) (Obstacle.gap_size ob)
  /\ Entity.x (Obstacle.bottom_entity ob) = Obstacle.x ob
  /\ Entity.y (Obstacle.bottom_entity ob)
     = CInt.add (Obstacle.y ob) (Obstacle.gap_size ob).

(** The score counter can take [n] more points: the game is on the title
    screen, where no point is given, or the score stays below [10 ^ 5]. *)
Definition score_fits (gs : GameState.t) (n : Z) : Prop :=
  GameState.screen_type gs = TITLE_SCREEN
  \/ (0 <= GameState.score gs /\ GameState.score gs + n < 10 ^ 5
      /\ length (ScoreCounter.digits (GameState.score_counter gs)) = 5%nat).

(** Slot 0 of the views of an entity can be read. *)
Definition has_view0 (e : Entity.t) : Prop :=
  exists v0, Entity.view_at e 0 = Ret v0.

(** What a turn of [scroll_world] has made of obstacle [ob], whose top part
    has [v0] in slot 0: its parts are in place, its gap is unchanged, and it
    has been recycled or moved one cell to the left. *)
Definition scrolled (w : World) (ob : Obstacle.t) (v0 : EntityView.t)
  (ob' : Obstacle.t) : Prop :=
  Obstacle.gap_size ob' = Obstacle.gap_size ob
  /\ parts_placed ob'
  /\ (leaves_screen (moved_left ob) v0 = true ->
      Obstacle.x ob' = SCREEN_WIDTH
      /\ Obstacle.score_collected ob' = false
      /\ exists n, Obstacle.y ob' = center_of (rand_seq w n))
  /\ (leaves_screen (moved_left ob) v0 = false ->
      Obstacle.x ob' = CInt.sub (Obstacle.x ob) 1
      /\ Obstacle.y ob' = Obstacle.y ob).

(** ** A sample game *)

Definition pipe_top : Entity.t :=
  Entity.mk 0 0 1 0
    (<[0%nat := EntityView.mk 0 2 3 2
                  (read_display ["["; "="; "]"; "010"; "["; "="; "]"; "010"]%char)]>
       (Entity.views Entity.zero))
    true.

Definition pipe_bottom : Entity.t :=
  Entity.mk 0 0 1 0
    (<[0%nat := EntityView.mk 0 0 3 2
                  (read_display ["["; "="; "]"; "010"; "["; "="; "]"; "010"]%char)]>
       (Entity.views Entity.zero))
    true.

Definition sample_obstacle (x y gap : Z) (collected : bool) : Obstacle.t :=
  update_obstacle (Obstacle.mk x y gap pipe_top pipe_bottom collected).

(** A bird with three views of 2 by 1 cells. *)
Definition sample_bird (x y : Z) : Entity.t :=
  Entity.mk x y 3 0
    (<[2%nat := EntityView.mk 0 0 2 1 ["v"; ">"; "000"]%char]>
       (<[1%nat := EntityView.mk 0 0 2 1 ["-"; ">"; "000"]%char]>
          (<[0%nat := EntityView.mk 0 0 2 1 ["^"; ">"; "000"]%char]>
             (Entity.views Entity.zero))))
    true.

Definition sample_digit : Entity.t :=
  Entity.mk 0 1 10 0
    (replicate 10 (EntityView.mk 0 0 3 5 (read_display digit_body))) true.

(** A game with three obstacles, the first of which has its left edge one
    cell beyond the recycling point: its top part is 3 cells wide and its
    [x] is -4. *)
Definition sample_game (screen : ScreenType) (bird : Entity.t) (score : Z)
  : GameState.t :=
  GameState.mk (Bird.mk bird (S754_zero false))
    [RefTitleText; RefPressSpaceToStart;
     RefObstacleTop 0; RefObstacleBottom 0;
     RefObstacleTop 1; RefObstacleBottom 1;
     RefObstacleTop 2; RefObstacleBottom 2;
     RefBird;
     RefDigit 0; RefDigit 1; RefDigit 2; RefDigit 3; RefDigit 4]
    [sample_obstacle (-4) 40 8 true;
     sample_obstacle 100 30 9 false;
     sample_obstacle 200 50 10 false]
    (Entity.set_y 70 (block (-1) 0 1 1))
    screen
    (Entity.set_visible (match screen with TITLE_SCREEN => true | GAME_SCREEN => false end)
       (block 150 40 1 1))
    score
    (ScoreCounter.mk (replicate 5 sample_digit) 0 291 1)
    false.

(** ** Starting and ending a game, as the specification sees them *)

(** An obstacle put at [x] with centre [c] by [start_game]. *)
Definition placed (x c : Z) (ob : Obstacle.t) : Obstacle.t :=
  update_obstacle
    (Obstacle.set_score_collected false (Obstacle.set_y c (Obstacle.set_x x ob))).

(** The [x] of obstacle [i] of [count] after [start_game]. *)
Definition start_x (i : nat) (count : Z) : Z :=
  Z.quot SCREEN_WIDTH 4 + (Z.of_nat i * SCREEN_WIDTH) / count.


(** The state [end_game] makes of [gs]. *)
Definition ended_state (gs : GameState.t) : GameState.t :=
  let gs := GameState.set_screen_type TITLE_SCREEN gs in
  let gs := GameState.set_score 0 gs in
  let gs :=
    GameState.set_title_text
      (Entity.set_visible true (GameState.title_text gs)) gs in
  GameState.set_press_space_to_start
    (Entity.set_visible true (GameState.press_space_to_start gs)) gs.


(** Every collision test of the game tick is defined: the bird and the
    obstacle parts show views inside their arrays. *)
Definition checks_defined (gs : GameState.t) : Prop :=
  forall ob, ob ∈ GameState.obstacles gs ->
    exists b1 b2,
      check_collision (bird_entity gs) (Obstacle.top_entity ob) = Ret b1
      /\ check_collision (bird_entity gs) (Obstacle.bottom_entity ob) = Ret b2.


(** A world in which the space bar, and no other key, is held. *)
Definition space_world : World :=
  mkWorld (clock sample_world) 0 (rand_seq sample_world) 0
          (fun _ vk => vk =? VK_SPACE) 0 (files sample_world) [].

(** * The rest of the program

    The functions of [main.c] that set the game up, and the loop of [main]
    that runs it. *)

Local Open Scope game_scope.

(** ** Registering entities *)

(** Capacities of [entities[25]] and [obstacles[25]] of [struct GameState]. *)
Definition MAX_ENTITIES : Z := 25.
Definition MAX_OBSTACLES : Z := 25.

Definition set_entities (v : list EntityRef) (g : GameState.t) : GameState.t :=
  GameState.mk (GameState.bird g) v (GameState.obstacles g)
    (GameState.press_space_to_start g) (GameState.screen_type g)
    (GameState.title_text g) (GameState.score g) (GameState.score_counter g)
    (GameState.quit g).

(** What [printf] prints for [%s]: the characters of the buffer up to the
    first 0.  A null pointer, or a buffer that holds no 0, has no defined
    behaviour. *)
Fixpoint c_string (buf : list ascii) : Res string :=
  match buf with
  | [] => Undef
  | c :: rest =>
      if Ascii.eqb c "000" then Ret EmptyString
      else res_bind (c_string rest) (fun s => Ret (String c s))
  end.

(** The body of the loop of [register_entity], for view [i]. *)
Definition print_view (entity : Entity.t) (i : nat) (_ : unit) : M unit :=
  printf ("view %d:" ++ nl) [ArgInt (Z.of_nat i)] ;;;
  view <- lift (Entity.view_at entity (Z.of_nat i)) ;;
  printf ("width: %d" ++ nl) [ArgInt (EntityView.width view)] ;;;
  printf ("height: %d" ++ nl) [ArgInt (EntityView.height view)] ;;;
  printf ("origin_x: %d" ++ nl) [ArgInt (EntityView.origin_x view)] ;;;
  printf ("origin_y: %d" ++ nl) [ArgInt (EntityView.origin_y view)] ;;;
  text <- lift (c_string (EntityView.display view)) ;;
  printf ("display:" ++ nl ++ "%s" ++ nl) [ArgStr text].

(** [register_entity]: the entity is the one the pointer [p] points to.  The
    pointer is stored at [entities[entity_count - 1]] after the count has
    been incremented; the store is defined inside the array only. *)
Definition register_entity (game_state : GameState.t) (p : EntityRef)
  : M GameState.t :=
  printf ("Registering entity:" ++ nl) [] ;;;
  entity <- lift (GameState.deref game_state p) ;;
  for_each (seq 0 (Z.to_nat (Entity.num_views entity))) (print_view entity) tt ;;;
  if GameState.entity_count game_state <? MAX_ENTITIES then
    ret (set_entities (GameState.entities game_state ++ [p]) game_state)
  else lift Undef.

(** ** Creating obstacles *)

(** [create_obstacle]: the new obstacle is stored at
    [obstacles[obstacle_count]], inside the array only. *)
Definition create_obstacle (game_state : GameState.t) (x y gap_size : Z)
  : M GameState.t :=
  let n := length (GameState.obstacles game_state) in
  obstacle_top <-
    add_entity_view_from_file create_entity "obstacle_top.entity" ;;
  obstacle_bottom <-
    add_entity_view_from_file create_entity "obstacle_bottom.entity" ;;
  if GameState.obstacle_count game_state <? MAX_OBSTACLES then
    let game_state :=
      GameState.set_obstacles
        (GameState.obstacles game_state
         ++ [Obstacle.mk x y gap_size obstacle_top obstacle_bottom false])
        game_state in
    game_state <- register_entity game_state (RefObstacleTop n) ;;
    game_state <- register_entity game_state (RefObstacleBottom n) ;;
    ret (with_obstacle n update_obstacle game_state)
  else lift Undef.

(** ** Creating the score counter *)

(** [sprintf(filename, "%d.entity", i)] *)
Definition digit_filename (i : Z) : string :=
  DecimalString.NilZero.string_of_int (Z.to_int i) ++ ".entity".

Definition with_digit (k : nat) (f : Entity.t -> Entity.t)
  (game_state : GameState.t) : GameState.t :=
  let score_counter := GameState.score_counter game_state in
  GameState.set_score_counter
    (ScoreCounter.set_digits (alter f k (ScoreCounter.digits score_counter))
                             score_counter)
    game_state.

(** [game_state->score_counter.digits[k]], read. *)
Definition digit_at (game_state : GameState.t) (k : nat) : M Entity.t :=
  lift (match ScoreCounter.digits (GameState.score_counter game_state) !! k with
        | Some d => Ret d
        | None => Undef
        end).

(** The body of the inner loop of [create_score_counter]: digit entity
    [digit_number] is given the glyph of the decimal digit [i]. *)
Definition load_digit_view (digit_number : nat) (i : Z)
  (game_state : GameState.t) : M GameState.t :=
  digit <- digit_at game_state digit_number ;;
  digit <- add_entity_view_from_file digit (digit_filename i) ;;
  ret (with_digit digit_number (fun _ => digit) game_state).

(** The body of the outer loop of [create_score_counter]. *)
Definition create_digit (x y : Z) (digit_number : nat)
  (game_state : GameState.t) : M GameState.t :=
  game_state <-
    for_each (map Z.of_nat (seq 0 10)) (load_digit_view digit_number)
             game_state ;;
  let game_state :=
    with_digit digit_number (Entity.set_visible true) game_state in
  digit <- digit_at game_state digit_number ;;
  view0 <- lift (Entity.view_at digit 0) ;;
  let game_state :=
    with_digit digit_number
      (Entity.set_x
         (CInt.sub x (CInt.mul (Z.of_nat digit_number)
                               (CInt.add (EntityView.width view0) 1))))
      game_state in
  let game_state := with_digit digit_number (Entity.set_y y) game_state in
  register_entity game_state (RefDigit digit_number).

(** [create_score_counter] *)
Definition create_score_counter (game_state : GameState.t) (x y : Z)
  : M GameState.t :=
  game_state <-
    for_each (seq 0 (Z.to_nat SCORE_COUNTER_DIGITS)) (create_digit x y)
             game_state ;;
  lift (update_score_counter game_state).

(** ** The program

    [main], in two parts: the loading of the game, up to the message that
    ends it, and one turn of the game loop.  Between the two, [main] waits
    for the console to have the size of the screen and clears it, through
    the console interface of the platform; that part is not modelled. *)

Definition CSI : string := ESC ++ "[".

(** [struct GameState game_state = {}] *)
Definition zero_game_state : GameState.t :=
  GameState.mk (Bird.mk Entity.zero (S754_zero false)) [] []
    Entity.zero TITLE_SCREEN Entity.zero 0
    (ScoreCounter.mk (replicate (Z.to_nat SCORE_COUNTER_DIGITS) Entity.zero)
                     0 0 0)
    false.

Definition banner : string :=
  "========================" ++ nl ++ "Finished loading game" ++ nl
  ++ "========================" ++ nl.

(** The loading part of [main]. *)
Definition main_load : M GameState.t :=
  printf (ESC ++ "]0; NotFlappyBird " ++ BEL) [] ;;;
  printf (CSI ++ "?25l") [] ;;;
  let game_state := set_entities [] zero_game_state in
  let game_state := GameState.set_screen_type TITLE_SCREEN game_state in
  (* the title text *)
  let game_state := GameState.set_title_text create_entity game_state in
  let game_state :=
    GameState.set_title_text
      (Entity.set_y (Z.quot SCREEN_HEIGHT 2)
         (Entity.set_x (Z.quot SCREEN_WIDTH 2)
            (GameState.title_text game_state)))
      game_state in
  title_text <-
    add_entity_view_from_file (GameState.title_text game_state)
                              "not_flappy_bird.entity" ;;
  let game_state := GameState.set_title_text title_text game_state in
  game_state <- register_entity game_state RefTitleText ;;
  (* the text that scrolls across the title screen *)
  let game_state :=
    GameState.set_press_space_to_start create_entity game_state in
  text <-
    add_entity_view_from_file (GameState.press_space_to_start game_state)
                              "press_space_to_start.entity" ;;
  view0 <- lift (Entity.view_at text 0) ;;
  let text := Entity.set_x (CInt.sub 0 (EntityView.width view0)) text in
  let text := Entity.set_y (CInt.add (Z.quot SCREEN_HEIGHT 2) 30) text in
  let game_state := GameState.set_press_space_to_start text game_state in
  game_state <- register_entity game_state RefPressSpaceToStart ;;
  (* three obstacles *)
  game_state <-
    create_obstacle game_state (Z.quot SCREEN_WIDTH 2)
                    (Z.quot SCREEN_HEIGHT 2) 8 ;;
  game_state <-
    create_obstacle game_state (CInt.add (Z.quot SCREEN_WIDTH 2) 90)
                    (CInt.sub (Z.quot SCREEN_HEIGHT 2) 10) 9 ;;
  game_state <-
    create_obstacle game_state (CInt.sub (Z.quot SCREEN_WIDTH 2) 90)
                    (CInt.add (Z.quot SCREEN_HEIGHT 2) 10) 10 ;;
  (* the bird *)
  let game_state :=
    GameState.set_bird (Bird.mk create_entity (CFloat.of_int 0)) game_state in
  entity <- add_entity_view_from_file (bird_entity game_state) "bird_0.entity" ;;
  entity <- add_entity_view_from_file entity "bird_1.entity" ;;
  entity <- add_entity_view_from_file entity "bird_2.entity" ;;
  let game_state := with_bird_entity (fun _ => entity) game_state in
  game_state <- register_entity game_state RefBird ;;
  (* the score counter *)
  let game_state := GameState.set_score 0 game_state in
  game_state <- create_score_counter game_state (SCREEN_WIDTH - 9) 1 ;;
  printf banner [] ;;;
  ret game_state.

(** One turn of the loop of [main]: a frame is rendered and shown when more
    than [1000 / FRAME_RATE] milliseconds have passed since the last one;
    then the timers are run. *)
Definition main_loop_turn
  (st : DisplayState.t * GameState.t * list PeriodicTimer.t)
  : M (DisplayState.t * GameState.t * list PeriodicTimer.t) :=
  let '(display_state, game_state, periodic_timers) := st in
  now <- millis ;;
  display_state <-
    (if now - DisplayState.last_frame_time display_state
        >? Z.quot 1000 FRAME_RATE
     then
       display_state <- lift (render_next_frame display_state game_state) ;;
       update_display display_state
     else ret display_state) ;;
  pass <- run_periodic_timers game_state periodic_timers ;;
  ret (display_state, fst (fst pass), snd (fst pass)).

(** [while (!game_state.quit)] around the turn. *)
Fixpoint main_loop (fuel : nat)
  (st : DisplayState.t * GameState.t * list PeriodicTimer.t)
  : M (DisplayState.t * GameState.t * list PeriodicTimer.t) :=
  match fuel with
  | O => lift Timeout
  | S fuel' =>
      if GameState.quit (snd (fst st)) then ret st
      else st <- main_loop_turn st ;; main_loop fuel' st
  end.

Local Close Scope game_scope.

(** ** What the renderer draws

    The text of a view is cut into lines at each line feed and each
    carriage return; line [i] is drawn on row [i] below the top left corner
    of the entity, its character [j] in column [j]. *)

Fixpoint split_lines (chars : list ascii) : list (list ascii) :=
  match chars with
  | [] => [[]]
  | c :: rest =>
      if is_newline c then [] :: split_lines rest
      else match split_lines rest with
           | l :: ls => (c :: l) :: ls
           | [] => [[c]]
           end
  end.

(** The character that the lines put in cell [(X, Y)] when their top left
    corner is at [(sx, sy)], if there is one. *)
Definition glyph_at (lines : list (list ascii)) (sx sy X Y : Z) : option ascii :=
  if (sy <=? Y) && (sx <=? X) then
    match lines !! Z.to_nat (Y - sy) with
    | Some l => l !! Z.to_nat (X - sx)
    | None => None
    end
  else None.

(** The same when the first line starts in column [cx], as it does in the
    middle of the loop of [render_entity]. *)
Definition glyph_from (lines : list (list ascii)) (cx sx cy X Y : Z)
  : option ascii :=
  match lines with
  | [] => None
  | l :: ls =>
      if Y =? cy then glyph_at [l] cx cy X Y else glyph_at ls sx (cy + 1) X Y
  end.

(** The characters of a view that are drawn: all but the last one, the
    terminating 0. *)
Definition drawn_chars (v : EntityView.t) : list ascii :=
  take (length (EntityView.display v) - 1) (EntityView.display v).

(** The character an entity puts in cell [(X, Y)], if it puts one there. *)
Definition entity_glyph (e : Entity.t) (X Y : Z) : option ascii :=
  if Entity.visible e then
    match Entity.view_at e (Entity.current_view e) with
    | Ret v =>
        glyph_at (split_lines (drawn_chars v))
                 (Entity.x e - EntityView.origin_x v)
                 (Entity.y e - EntityView.origin_y v) X Y
    | _ => None
    end
  else None.

(** An entity that [render_entity] draws without leaving the range of
    [int]: it is hidden, or it shows a view that has a text, and the corner
    of the text and the cursor of the loop stay in range. *)
Definition drawable (e : Entity.t) : Prop :=
  Entity.visible e = false
  \/ exists v,
      active_view e v
      /\ EntityView.display v <> []
      /\ - 2 ^ 31 <= Entity.x e - EntityView.origin_x v
      /\ Entity.x e - EntityView.origin_x v + EntityView.display_size v < 2 ^ 31
      /\ - 2 ^ 31 <= Entity.y e - EntityView.origin_y v
      /\ Entity.y e - EntityView.origin_y v + EntityView.display_size v < 2 ^ 31.

(** The character of a cell once the entities have been drawn one after the
    other on a blank frame: that of the last entity that puts one there. *)
Definition paint (es : list Entity.t) (X Y : Z) : ascii :=
  fold_left (fun c e => default c (entity_glyph e X Y)) es " "%char.

(** A 2 by 2 block ["ab"; "cd"] whose left column is off the screen. *)
Definition clipped_block : Entity.t :=
  Entity.mk (-1) 3 1 0
    (<[0%nat := EntityView.mk 0 0 2 2
                  ["a"; "b"; "010"; "c"; "d"; "010"; "000"]%char]>
       (Entity.views Entity.zero))
    true.

(** ** Well-formed entities and game states *)

(** A view as the loader builds it: a text without 0, followed by a 0. *)
Definition loaded_view (v : EntityView.t) : Prop :=
  exists text,
    EntityView.display v = text ++ ["000"%char]
    /\ Forall (fun c => c <> "000"%char) text.

(** An entity with [n] views, all loaded, in the first [n] slots of its
    array. *)
Definition loaded (n : Z) (e : Entity.t) : Prop :=
  length (Entity.views e) = Z.to_nat MAX_VIEWS
  /\ Entity.num_views e = n
  /\ 0 <= n <= MAX_VIEWS
  /\ forall (k : nat) (v : EntityView.t),
      (k < Z.to_nat n)%nat -> Entity.views e !! k = Some v -> loaded_view v.

(** An entity that shows one of its loaded views. *)
Definition shown (e : Entity.t) : Prop :=
  loaded (Entity.num_views e) e
  /\ 0 <= Entity.current_view e < Entity.num_views e.

Definition obstacle_shown (ob : Obstacle.t) : Prop :=
  shown (Obstacle.top_entity ob) /\ shown (Obstacle.bottom_entity ob).

Definition digit_shown (d : Entity.t) : Prop :=
  shown d /\ Entity.num_views d = 10.

(** A registered pointer points into the game state: to one of the
    [n] obstacles, or to one of the five digits. *)
Definition valid_ref (n : nat) (p : EntityRef) : Prop :=
  match p with
  | RefObstacleTop i | RefObstacleBottom i => (i < n)%nat
  | RefDigit i => (i < Z.to_nat SCORE_COUNTER_DIGITS)%nat
  | _ => True
  end.

(** A well-formed game state: every entity shows one of its loaded views,
    the digit entities hold the ten glyphs, the arrays are within their
    capacities, and the registered pointers are valid. *)
Definition wf (gs : GameState.t) : Prop :=
  shown (bird_entity gs)
  /\ shown (GameState.press_space_to_start gs)
  /\ shown (GameState.title_text gs)
  /\ Forall obstacle_shown (GameState.obstacles gs)
  /\ (length (GameState.obstacles gs) <= Z.to_nat MAX_OBSTACLES)%nat
  /\ Forall digit_shown (ScoreCounter.digits (GameState.score_counter gs))
  /\ length (ScoreCounter.digits (GameState.score_counter gs))
     = Z.to_nat SCORE_COUNTER_DIGITS
  /\ Forall (valid_ref (length (GameState.obstacles gs))) (GameState.entities gs)
  /\ (length (GameState.entities gs) <= Z.to_nat MAX_ENTITIES)%nat.

(** What a game state is made of and no callback changes: the registered
    pointers, the gaps of the obstacles, and the views of every entity. *)
Definition entity_assets (e : Entity.t) : Z * list EntityView.t :=
  (Entity.num_views e, Entity.views e).

Definition assets (gs : GameState.t)
  : list EntityRef
    * list (Z * (Z * list EntityView.t) * (Z * list EntityView.t))
    * list (Z * list EntityView.t) :=
  (GameState.entities gs,
   map (fun ob => (Obstacle.gap_size ob,
                   entity_assets (Obstacle.top_entity ob),
                   entity_assets (Obstacle.bottom_entity ob)))
       (GameState.obstacles gs),
   entity_assets (bird_entity gs)
   :: entity_assets (GameState.press_space_to_start gs)
   :: entity_assets (GameState.title_text gs)
   :: map entity_assets (ScoreCounter.digits (GameState.score_counter gs))).

(** Whenever the computation returns, what it returns satisfies [Q]. *)
Definition post {A} (m : M A) (Q : A -> Prop) : Prop :=
  forall w a w', m w = Ret (a, w') -> Q a.

(** A callback keeps the property [I] of game states. *)
Definition preserves (I : GameState.t -> Prop)
  (f : GameState.t -> M GameState.t) : Prop :=
  forall gs, I gs -> post (f gs) I.

(** An entity [e'] that has come from [e] with its views untouched and
    still shows one of them. *)
Definition ent_rel (e e' : Entity.t) : Prop :=
  shown e -> shown e' /\ entity_assets e' = entity_assets e.

Definition ob_rel (ob ob' : Obstacle.t) : Prop :=
  obstacle_shown ob ->
  obstacle_shown ob'
  /\ Obstacle.gap_size ob' = Obstacle.gap_size ob
  /\ entity_assets (Obstacle.top_entity ob')
     = entity_assets (Obstacle.top_entity ob)
  /\ entity_assets (Obstacle.bottom_entity ob')
     = entity_assets (Obstacle.bottom_entity ob).

(** A well-formed game state made of the assets [a]. *)
Definition stable
  (a : list EntityRef
       * list (Z * (Z * list EntityView.t) * (Z * list EntityView.t))
       * list (Z * list EntityView.t))
  (gs : GameState.t) : Prop :=
  wf gs /\ assets gs = a.

(** The computation returns, in every world. *)
Definition returns {A} (m : M A) : Prop :=
  forall w, exists a w', m w = Ret (a, w').

(** [game_tick] up to its last statement, the move of the bird. *)
Definition game_tick_before_move (game_state : GameState.t) : M GameState.t :=
  bind (for_each (map Z.of_nat (seq 0 256)) handle_key game_state)
       (fun game_state =>
          bind (title_autopilot (apply_gravity game_state)) game_checks).

(** [loaded_view], decided. *)
Definition loaded_viewb (v : EntityView.t) : bool :=
  match rev (EntityView.display v) with
  | c :: text => Ascii.eqb c "000"
                 && forallb (fun c => negb (Ascii.eqb c "000")) text
  | [] => false
  end.

(** ** Loading the game *)

(** The file can be loaded. *)
Definition file_ok (fs : string -> FileRead) (name : string) : Prop :=
  exists width height ox oy body, fs name = AssetOk width height ox oy body.

(** The view that a file holds. *)
Definition view_of (fs : string -> FileRead) (name : string) : EntityView.t :=
  match fs name with
  | AssetOk width height ox oy body =>
      EntityView.mk ox oy width height (read_display body)
  | _ => EntityView.zero
  end.

(** An entity with the view of a file added in its first free slot. *)
Definition with_view (fs : string -> FileRead) (name : string) (e : Entity.t)
  : Entity.t :=
  Entity.set_num_views (Entity.num_views e + 1)
    (Entity.set_views
       (<[Z.to_nat (Entity.num_views e) := view_of fs name]> (Entity.views e)) e).

(** The diagnostic of [add_entity_view_from_file] for a file that cannot be
    loaded. *)
Definition load_error (fs : string -> FileRead) (name : string) : Event :=
  match fs name with
  | OpenFailed => EvPrintf "Error opening file '%s'" [ArgStr name]
  | HeaderMalformed =>
      EvPrintf ("Error parsing entity file '%s'" ++ nl) [ArgStr name]
  | _ => EvPrintf ("Error allocating memory for entity view display" ++ nl) []
  end.

(** The outcome [r] is an exit with status 1 at the first of the files
    [names] that cannot be loaded, the diagnostic for that file being the
    last thing printed. *)
Definition fails_at {A} (fs : string -> FileRead) (names : list string)
  (r : Res (A * World)) : Prop :=
  exists pre name post console,
    names = pre ++ name :: post
    /\ Forall (file_ok fs) pre
    /\ ~ file_ok fs name
    /\ r = Exit 1 (console ++ [load_error fs name]).

(** In a world whose files are [fs], the computation loads the files
    [names] in turn: if they all load it returns a value that satisfies [Q],
    having done nothing but print; otherwise it fails at the first that
    does not. *)
Definition loads {A} (fs : string -> FileRead) (names : list string)
  (m : M A) (Q : A -> Prop) : Prop :=
  forall w, files w = fs ->
    (Forall (file_ok fs) names
     /\ exists a o, m w = Ret (a, with_out w (out w ++ o)) /\ Q a)
    \/ fails_at fs names (m w).

(** The game state with one more registered pointer. *)
Definition registered (p : EntityRef) (gs : GameState.t) : GameState.t :=
  set_entities (GameState.entities gs ++ [p]) gs.

(** The characters of a buffer before its first 0, as a string. *)
Fixpoint text_string (buf : list ascii) : string :=
  match buf with
  | [] => EmptyString
  | c :: rest =>
      if Ascii.eqb c "000" then EmptyString else String c (text_string rest)
  end.

(** What [register_entity] prints for view [i] of an entity. *)
Definition view_report (i : nat) (view : EntityView.t) : list Event :=
  [ EvPrintf ("view %d:" ++ nl) [ArgInt (Z.of_nat i)];
    EvPrintf ("width: %d" ++ nl) [ArgInt (EntityView.width view)];
    EvPrintf ("height: %d" ++ nl) [ArgInt (EntityView.height view)];
    EvPrintf ("origin_x: %d" ++ nl) [ArgInt (EntityView.origin_x view)];
    EvPrintf ("origin_y: %d" ++ nl) [ArgInt (EntityView.origin_y view)];
    EvPrintf ("display:" ++ nl ++ "%s" ++ nl)
             [ArgStr (text_string (EntityView.display view))] ].

(** What [register_entity] prints for an entity. *)
Definition entity_report (e : Entity.t) : list Event :=
  EvPrintf ("Registering entity:" ++ nl) []
  :: flat_map (fun i => view_report i (default EntityView.zero (Entity.views e !! i)))
              (seq 0 (Z.to_nat (Entity.num_views e))).

(** The game state that [create_obstacle] builds. *)
Definition obstacle_created (fs : string -> FileRead) (x y gap_size : Z)
  (gs : GameState.t) : GameState.t :=
  let n := length (GameState.obstacles gs) in
  with_obstacle n update_obstacle
    (registered (RefObstacleBottom n)
       (registered (RefObstacleTop n)
          (GameState.set_obstacles
             (GameState.obstacles gs
              ++ [Obstacle.mk x y gap_size
                    (with_view fs "obstacle_top.entity" create_entity)
                    (with_view fs "obstacle_bottom.entity" create_entity)
                    false])
             gs))).

(** A game state with 25 registered pointers. *)
Definition crowded_game : GameState.t :=
  set_entities (replicate 25 RefBird)
               (sample_game TITLE_SCREEN (sample_bird 50 30) 0).


(** The files of the ten glyphs, and their views. *)
Definition digit_names : list string :=
  map digit_filename (map Z.of_nat (seq 0 10)).

Definition digit_views (fs : string -> FileRead) : list EntityView.t :=
  map (view_of fs) digit_names.

(** Digit entity [k] as [create_score_counter] builds it from the entity
    [d] that it finds in the counter. *)
Definition digit_built (fs : string -> FileRead) (x y : Z) (k : nat)
  (d : Entity.t) : Entity.t :=
  Entity.set_y y
    (Entity.set_x
       (CInt.sub x (CInt.mul (Z.of_nat k)
                             (CInt.add (EntityView.width (view_of fs "0.entity")) 1)))
       (Entity.set_visible true
          (Entity.set_num_views 10 (Entity.set_views (digit_views fs) d)))).

(** The game state after a turn of the outer loop of
    [create_score_counter]. *)
Definition digit_created (fs : string -> FileRead) (x y : Z) (k : nat)
  (gs : GameState.t) : GameState.t :=
  registered (RefDigit k) (with_digit k (digit_built fs x y k) gs).

(** The game state after the loops of [create_score_counter]. *)
Definition digits_created (fs : string -> FileRead) (x y : Z)
  (gs : GameState.t) : GameState.t :=
  fold_left (fun g k => digit_created fs x y k g)
            (seq 0 (Z.to_nat SCORE_COUNTER_DIGITS)) gs.

(** A digit entity before its glyphs are loaded: an entity without views
    whose index is 0. *)
Definition blank_digit (d : Entity.t) : Prop :=
  loaded 0 d /\ Entity.current_view d = 0.

(** The files that [main] loads, in the order in which it loads them. *)
Definition main_assets : list string :=
  ["not_flappy_bird.entity"; "press_space_to_start.entity";
   "obstacle_top.entity"; "obstacle_bottom.entity";
   "obstacle_top.entity"; "obstacle_bottom.entity";
   "obstacle_top.entity"; "obstacle_bottom.entity";
   "bird_0.entity"; "bird_1.entity"; "bird_2.entity"]%string
  ++ flat_map (fun _ => digit_names) (seq 0 5).

(** The game state that the loading part of [main] builds from the files
    [fs], before the score counter is updated for the first time. *)
Definition loaded_game (fs : string -> FileRead) : GameState.t :=
  let g := GameState.set_screen_type TITLE_SCREEN
             (set_entities [] zero_game_state) in
  let title :=
    with_view fs "not_flappy_bird.entity"
      (Entity.set_y (Z.quot SCREEN_HEIGHT 2)
         (Entity.set_x (Z.quot SCREEN_WIDTH 2) create_entity)) in
  let g := registered RefTitleText (GameState.set_title_text title g) in
  let text :=
    Entity.set_y (CInt.add (Z.quot SCREEN_HEIGHT 2) 30)
      (Entity.set_x
         (CInt.sub 0 (EntityView.width (view_of fs "press_space_to_start.entity")))
         (with_view fs "press_space_to_start.entity" create_entity)) in
  let g :=
    registered RefPressSpaceToStart
               (GameState.set_press_space_to_start text g) in
  let g :=
    obstacle_created fs (Z.quot SCREEN_WIDTH 2) (Z.quot SCREEN_HEIGHT 2) 8 g in
  let g :=
    obstacle_created fs (CInt.add (Z.quot SCREEN_WIDTH 2) 90)
                     (CInt.sub (Z.quot SCREEN_HEIGHT 2) 10) 9 g in
  let g :=
    obstacle_created fs (CInt.sub (Z.quot SCREEN_WIDTH 2) 90)
                     (CInt.add (Z.quot SCREEN_HEIGHT 2) 10) 10 g in
  let bird :=
    with_view fs "bird_2.entity"
      (with_view fs "bird_1.entity"
         (with_view fs "bird_0.entity" create_entity)) in
  let g :=
    registered RefBird
      (GameState.set_bird (Bird.mk bird (CFloat.of_int 0)) g) in
  digits_created fs (SCREEN_WIDTH - 9) 1 (GameState.set_score 0 g).

(** A world in which every file holds the same 3 by 5 glyph. *)
Definition glyph_world : World :=
  mkWorld (clock sample_world) 0 (rand_seq sample_world) 0
          (key_state sample_world) 0 (fun _ => AssetOk 3 5 0 0 digit_body) [].

(** ** Points

    The obstacles that give their point in the next turn of
    [scroll_world]. *)
Definition points_given (gs : GameState.t) : list Obstacle.t :=
  List.filter (fun ob => awards_point gs (moved_left ob))
              (GameState.obstacles gs).

(** The digits of the counter show the score. *)
Definition shows_score (gs : GameState.t) : Prop :=
  forall (i : nat) (d : Entity.t),
    ScoreCounter.digits (GameState.score_counter gs) !! i = Some d ->
    (Entity.visible d = true <-> (i < num_digits (GameState.score gs))%nat)
    /\ (Entity.visible d = true ->
        Entity.current_view d = digit_of (GameState.score gs) i).

(** [printf("\x1b]0; Score: %d \x07", score)] *)
Definition score_title (score : Z) : Event :=
  EvPrintf (ESC ++ "]0; Score: %d " ++ BEL) [ArgInt score].

(** The titles for the scores [s + 1], ..., [s + n]. *)
Fixpoint score_titles (s : Z) (n : nat) : list Event :=
  match n with
  | O => []
  | S n' => score_title (s + 1) :: score_titles (s + 1) n'
  end.

(** The indices among [idxs] of the obstacles that give their point. *)
Definition point_indices (gs : GameState.t) (idxs : list nat) : list nat :=
  List.filter (fun i => match GameState.obstacles gs !! i with
                        | Some ob => awards_point gs (moved_left ob)
                        | None => false
                        end) idxs.

(** ** The keyboard

    A computation that asks for no key: the count of the polls and the
    state of the keys are as before. *)
Definition keeps_keys {A} (m : M A) : Prop :=
  forall w a w', m w = Ret (a, w') ->
                 polls w' = polls w /\ key_state w' = key_state w.

(** Key [k] is held when [game_tick] asks for it: the tick asks for the
    keys 0 to 255 in turn, so for key [k] in poll [k] of the tick. *)
Definition key_down (w : World) (k : Z) : bool :=
  key_state w (polls w + Z.to_nat k)%nat k.

(** A world in which Escape and the left arrow are held. *)
Definition escape_world : World :=
  mkWorld (clock sample_world) 0 (rand_seq sample_world) 0
          (fun _ vk => (vk =? VK_ESCAPE) || (vk =? VK_LEFT)) 0
          (files sample_world) [].

(** * Theorems *)

(** ** Machine integers *)

Lemma wrap_id z : CInt.in_range z -> CInt.wrap z = z.
Proof.
  unfold CInt.in_range, CInt.wrap. intros Hz.
  rewrite Z.mod_small; lia.
Qed.

Lemma wrap_in_range z : CInt.in_range (CInt.wrap z).
Proof.
  unfold CInt.in_range, CInt.wrap.
  pose proof (Z.mod_pos_bound (z + 2 ^ 31) (2 ^ 32) ltac:(lia)). lia.
Qed.

Lemma uwrap_id z : 0 <= z < 2 ^ 32 -> CInt.uwrap z = z.
Proof. intros Hz. unfold CInt.uwrap. apply Z.mod_small. lia. Qed.

(** ** Collision detection *)

Lemma overlapb_spec (a b : Box.t) : Box.overlapb a b = true <-> Box.overlap a b.
Proof.
  unfold Box.overlapb, Box.overlap, Box.contains. split.
  - intros H. apply andb_prop in H as [Hx Hy].
    apply Z.ltb_lt in Hx. apply Z.ltb_lt in Hy.
    exists (Z.max (Box.left a) (Box.left b)), (Z.max (Box.top a) (Box.top b)).
    lia.
  - intros (px & py & Ha & Hb).
    apply andb_true_intro. split; apply Z.ltb_lt; lia.
Qed.

(** What [check_collision] computes for two entities that show a view. *)
Lemma check_collision_unfold (e1 e2 : Entity.t) (v1 v2 : EntityView.t) :
  active_view e1 v1 -> active_view e2 v2 ->
  check_collision e1 e2 =
  Ret
    (let x1 := CInt.sub (Entity.x e1) (EntityView.origin_x v1) in
     let y1 := CInt.sub (Entity.y e1) (EntityView.origin_y v1) in
     let x2 := CInt.sub (Entity.x e2) (EntityView.origin_x v2) in
     let y2 := CInt.sub (Entity.y e2) (EntityView.origin_y v2) in
     (((x1 <? x2) && (CInt.add x1 (EntityView.width v1) >? x2))
      || ((x2 <? x1) && (CInt.add x2 (EntityView.width v2) >? x1)))
     && (((y1 <? y2) && (CInt.add y1 (EntityView.height v1) >? y2))
         || ((y2 <? y1) && (CInt.add y2 (EntityView.height v2) >? y1)))).
Proof.
  unfold active_view, check_collision. intros -> ->. reflexivity.
Qed.

(** C10.  Two entities whose shown views give them the same left edge never
    collide, whatever their sizes and vertical positions; in particular no
    entity collides with itself. *)
Theorem check_collision_same_left_edge
  (e1 e2 : Entity.t) (v1 v2 : EntityView.t) :
  active_view e1 v1 -> active_view e2 v2 ->
  Entity.x e1 - EntityView.origin_x v1 = Entity.x e2 - EntityView.origin_x v2 ->
  check_collision e1 e2 = Ret false
  /\ check_collision e1 e1 = Ret false
  /\ check_collision e2 e2 = Ret false.
Proof.
  intros H1 H2 Hx.
  rewrite (check_collision_unfold e1 e2 v1 v2 H1 H2).
  rewrite (check_collision_unfold e1 e1 v1 v1 H1 H1).
  rewrite (check_collision_unfold e2 e2 v2 v2 H2 H2).
  cbv zeta. unfold CInt.sub. rewrite Hx.
  rewrite !Z.ltb_irrefl. cbn [andb orb]. auto.
Qed.

Lemma check_collision_same_left_edge_witness :
  check_collision (block 3 0 10 10) (block 3 5 4 7) = Ret false
  /\ check_collision (block 3 0 10 10) (block 3 0 10 10) = Ret false
  /\ check_collision (block 3 5 4 7) (block 3 5 4 7) = Ret false.
Proof.
  apply (check_collision_same_left_edge (block 3 0 10 10) (block 3 5 4 7)
           (EntityView.mk 0 0 10 10 ["#"%char; "000"%char])
           (EntityView.mk 0 0 4 7 ["#"%char; "000"%char]));
    reflexivity.
Defined.

(** Where the left edges and the top edges of two boxes of positive size
    differ, and no [int] computation overflows, [check_collision] is the
    overlap of the two boxes. *)
Lemma check_collision_distinct_edges (e1 e2 : Entity.t) (v1 v2 : EntityView.t) :
  active_view e1 v1 -> active_view e2 v2 ->
  let b1 := Box.of_entity e1 v1 in
  let b2 := Box.of_entity e2 v2 in
  CInt.in_range (Box.left b1) -> CInt.in_range (Box.left b1 + Box.width b1) ->
  CInt.in_range (Box.top b1) -> CInt.in_range (Box.top b1 + Box.height b1) ->
  CInt.in_range (Box.left b2) -> CInt.in_range (Box.left b2 + Box.width b2) ->
  CInt.in_range (Box.top b2) -> CInt.in_range (Box.top b2 + Box.height b2) ->
  0 < Box.width b1 -> 0 < Box.height b1 ->
  0 < Box.width b2 -> 0 < Box.height b2 ->
  Box.left b1 <> Box.left b2 -> Box.top b1 <> Box.top b2 ->
  check_collision e1 e2 = Ret (Box.overlapb b1 b2).
Proof.
  intros H1 H2 b1 b2. subst b1 b2. unfold Box.of_entity. cbn [Box.left Box.top Box.width Box.height].
  intros Rl1 Rr1 Rt1 Rb1 Rl2 Rr2 Rt2 Rb2 Hw1 Hh1 Hw2 Hh2 Hx Hy.
  rewrite (check_collision_unfold e1 e2 v1 v2 H1 H2). cbv zeta.
  unfold CInt.sub, CInt.add.
  rewrite (wrap_id _ Rl1), (wrap_id _ Rl2), (wrap_id _ Rt1), (wrap_id _ Rt2).
  rewrite (wrap_id _ Rr1), (wrap_id _ Rr2), (wrap_id _ Rb1), (wrap_id _ Rb2).
  f_equal. unfold Box.overlapb. cbn [Box.left Box.top Box.width Box.height].
  f_equal.
  - apply eq_true_iff_eq.
    rewrite orb_true_iff, !andb_true_iff, !Z.ltb_lt, !Z.gtb_gt. lia.
  - apply eq_true_iff_eq.
    rewrite orb_true_iff, !andb_true_iff, !Z.ltb_lt, !Z.gtb_gt. lia.
Qed.

(** C1.  [check_collision] is not the overlap of the two boxes: two
    coincident boxes of 10 by 10 cells overlap and are reported as not
    colliding, and a box of width 0 set inside another, which shares no
    cell with it, is reported as colliding.  The boundary case of the
    claim, [0,10) x [0,10) against [10,20) x [0,10), is reported as not
    colliding. *)
Theorem check_collision_misses_equal_edges :
  let v := EntityView.mk 0 0 10 10 ["#"%char; "000"%char] in
  let thin := EntityView.mk 0 0 0 10 ["#"%char; "000"%char] in
  (check_collision (block 0 0 10 10) (block 0 0 10 10) = Ret false
   /\ Box.overlap (Box.of_entity (block 0 0 10 10) v)
                  (Box.of_entity (block 0 0 10 10) v))
  /\ (check_collision (block 5 1 0 10) (block 0 0 10 10) = Ret true
      /\ ~ Box.overlap (Box.of_entity (block 5 1 0 10) thin)
                       (Box.of_entity (block 0 0 10 10) v))
  /\ check_collision (block 0 0 10 10) (block 10 0 10 10) = Ret false.
Proof.
  cbv zeta. repeat split.
  - apply overlapb_spec. reflexivity.
  - intros H. apply overlapb_spec in H. discriminate H.
Qed.

(** ** The monad *)

Lemma for_each_app {A S} (l1 l2 : list A) (body : A -> S -> M S) (s : S) (w : World) :
  for_each (l1 ++ l2) body s w = bind (for_each l1 body s) (for_each l2 body) w.
Proof.
  revert s w. induction l1 as [|a l1 IH]; intros s w; cbn [for_each app].
  - reflexivity.
  - unfold bind. destruct (body a s w) as [[s1 w1]| | |]; cbn [res_bind fst snd]; auto.
Qed.

Lemma for_each_map {A B S} (f : A -> B) (l : list A) (body : B -> S -> M S) (s : S) (w : World) :
  for_each (map f l) body s w = for_each l (fun a => body (f a)) s w.
Proof.
  revert s w. induction l as [|a l IH]; intros s w; cbn [for_each map].
  - reflexivity.
  - unfold bind. destruct (body (f a) s w) as [[s1 w1]| | |]; cbn [res_bind fst snd]; auto.
Qed.

Lemma for_each_flat_map {A B S} (f : A -> list B) (l : list A) (body : B -> S -> M S) (s : S) (w : World) :
  for_each (flat_map f l) body s w = for_each l (fun a => for_each (f a) body) s w.
Proof.
  revert s w. induction l as [|a l IH]; intros s w; cbn [for_each flat_map].
  - reflexivity.
  - rewrite for_each_app. unfold bind.
    destruct (for_each (f a) body s w) as [[s1 w1]| | |]; cbn [res_bind fst snd]; auto.
Qed.

(** ** Frames *)

Lemma frame_set_dims wd ht (f : Frame) x y c :
  frame_dims wd ht f -> frame_dims wd ht (frame_set f x y c).
Proof.
  intros [Hl Hc]. unfold frame_set. split.
  - rewrite length_alter. exact Hl.
  - apply Forall_lookup_2. intros i col Hi.
    destruct (decide (x = i)) as [->|Hne].
    + rewrite list_lookup_alter_eq in Hi.
      destruct (f !! i) as [col0|] eqn:E; [|discriminate].
      cbn in Hi. injection Hi as <-. rewrite length_insert.
      exact (Forall_lookup_1 _ _ _ _ Hc E).
    + rewrite list_lookup_alter_ne in Hi by exact Hne.
      exact (Forall_lookup_1 _ _ _ _ Hc Hi).
Qed.

Lemma frame_get_set_eq wd ht (f : Frame) x y c :
  frame_dims wd ht f -> (x < wd)%nat -> (y < ht)%nat ->
  frame_get (frame_set f x y c) x y = c.
Proof.
  intros [Hl Hc] Hx Hy. unfold frame_get, frame_set.
  rewrite list_lookup_alter_eq.
  destruct (lookup_lt_is_Some_2 f x ltac:(lia)) as [col E].
  rewrite E. cbn.
  pose proof (Forall_lookup_1 _ _ _ _ Hc E) as Hlen. cbn in Hlen.
  rewrite list_lookup_insert_eq by lia. reflexivity.
Qed.

Lemma frame_get_set_ne (f : Frame) x y x' y' c :
  (x, y) <> (x', y') ->
  frame_get (frame_set f x y c) x' y' = frame_get f x' y'.
Proof.
  intros Hne. unfold frame_get, frame_set.
  destruct (decide (x = x')) as [->|Hx].
  - rewrite list_lookup_alter_eq.
    destruct (f !! x') as [col|]; cbn; [|reflexivity].
    rewrite list_lookup_insert_ne by congruence. reflexivity.
  - rewrite list_lookup_alter_ne by exact Hx. reflexivity.
Qed.

Lemma frame_ext wd ht (f g : Frame) :
  frame_dims wd ht f -> frame_dims wd ht g ->
  (forall x y, (x < wd)%nat -> (y < ht)%nat -> frame_get f x y = frame_get g x y) ->
  f = g.
Proof.
  intros [Hlf Hcf] [Hlg Hcg] Hget.
  apply list_eq. intros x.
  destruct (decide (x < wd)%nat) as [Hx|Hx].
  - destruct (lookup_lt_is_Some_2 f x ltac:(lia)) as [cf Ef].
    destruct (lookup_lt_is_Some_2 g x ltac:(lia)) as [cg Eg].
    rewrite Ef, Eg. f_equal.
    pose proof (Forall_lookup_1 _ _ _ _ Hcf Ef) as Hf. cbn in Hf.
    pose proof (Forall_lookup_1 _ _ _ _ Hcg Eg) as Hg. cbn in Hg.
    apply list_eq. intros y.
    destruct (decide (y < ht)%nat) as [Hy|Hy].
    + specialize (Hget x y Hx Hy). unfold frame_get in Hget.
      rewrite Ef, Eg in Hget.
      destruct (lookup_lt_is_Some_2 cf y ltac:(lia)) as [a Ea].
      destruct (lookup_lt_is_Some_2 cg y ltac:(lia)) as [b Eb].
      rewrite Ea, Eb in Hget |- *. congruence.
    + rewrite (lookup_ge_None_2 cf) by lia.
      rewrite (lookup_ge_None_2 cg) by lia. reflexivity.
  - rewrite (lookup_ge_None_2 f) by lia.
    rewrite (lookup_ge_None_2 g) by lia. reflexivity.
Qed.

(** ** Display update *)

Lemma with_out_out (w : World) (o : list Event) : out (with_out w o) = o.
Proof. reflexivity. Qed.

Lemma with_out_twice (w : World) (o1 o2 : list Event) :
  with_out (with_out w o1) o2 = with_out w o2.
Proof. reflexivity. Qed.

Lemma with_out_same (w : World) : with_out w (out w) = w.
Proof. destruct w. reflexivity. Qed.

(** One visit of a cell by [update_display]. *)
Lemma update_cell_run (cur nxt : Frame) (t : Z) (x y : nat) (w : World) :
  update_cell x y (DisplayState.mk cur nxt t) w =
  if differs cur nxt (x, y) then
    Ret (DisplayState.mk (frame_set cur x y (frame_get nxt x y)) nxt t,
         with_out w (out w ++ positioned_write nxt (x, y)))
  else Ret (DisplayState.mk cur nxt t, w).
Proof.
  unfold update_cell, differs. cbn [fst snd DisplayState.current_frame DisplayState.next_frame].
  destruct (negb (Ascii.eqb (frame_get cur x y) (frame_get nxt x y))); [|reflexivity].
  unfold bind, set_cursor, printf, emit, ret. cbn [res_bind fst snd].
  unfold DisplayState.set_current_frame. cbn.
  rewrite <- app_assoc. reflexivity.
Qed.

(** Visiting a list of distinct cells: every cell that differed is written
    once, in the order of the visit, and takes the value of the next
    frame; nothing else changes. *)
Lemma update_cells_run (wd ht : nat) (nxt : Frame) (cells : list (nat * nat)) :
  NoDup cells ->
  Forall (fun c => (fst c < wd)%nat /\ (snd c < ht)%nat) cells ->
  forall (cur : Frame) (t : Z) (w : World),
    frame_dims wd ht cur ->
    exists cur',
      for_each cells (fun c => update_cell (fst c) (snd c))
               (DisplayState.mk cur nxt t) w
      = Ret (DisplayState.mk cur' nxt t,
             with_out w (out w ++ flat_map (positioned_write nxt)
                                    (List.filter (differs cur nxt) cells)))
      /\ frame_dims wd ht cur'
      /\ (forall x y, (x, y) ∈ cells -> frame_get cur' x y = frame_get nxt x y)
      /\ (forall x y, (x, y) ∉ cells -> frame_get cur' x y = frame_get cur x y).
Proof.
  induction cells as [|[x y] cells IH]; intros Hnd Hin cur t w Hcur.
  - exists cur. cbn [for_each List.filter flat_map]. rewrite app_nil_r, with_out_same.
    split; [reflexivity|]. split; [exact Hcur|]. split; [|reflexivity].
    intros x y H. inversion H.
  - apply NoDup_cons in Hnd as [Hnotin Hnd].
    apply Forall_cons in Hin as [[Hx Hy] Hin]. cbn [fst snd] in Hx, Hy.
    cbn [for_each]. unfold bind. cbn [fst snd]. rewrite update_cell_run.
    cbn [List.filter].
    destruct (differs cur nxt (x, y)) eqn:Hd; cbn [res_bind fst snd].
    + set (cur1 := frame_set cur x y (frame_get nxt x y)).
      assert (Hcur1 : frame_dims wd ht cur1) by (apply frame_set_dims; exact Hcur).
      destruct (IH Hnd Hin cur1 t
                   (with_out w (out w ++ positioned_write nxt (x, y))) Hcur1)
        as (cur' & Hrun & Hdims & Hin' & Hout').
      exists cur'. rewrite Hrun, with_out_twice, with_out_out.
      assert (Hf : List.filter (differs cur1 nxt) cells
                   = List.filter (differs cur nxt) cells).
      { apply filter_ext_in. intros [x' y'] Hc. unfold differs. cbn [fst snd].
        subst cur1. rewrite frame_get_set_ne; [reflexivity|].
        intros Heq. injection Heq as <- <-. apply Hnotin.
        apply list_elem_of_In. exact Hc. }
      rewrite Hf. cbn [flat_map]. rewrite <- app_assoc.
      split; [reflexivity|]. split; [exact Hdims|]. split.
      * intros x' y' Hc. apply elem_of_cons in Hc as [Heq|Hc].
        -- injection Heq as -> ->. rewrite Hout' by exact Hnotin.
           subst cur1. apply (frame_get_set_eq wd ht); assumption.
        -- apply Hin'. exact Hc.
      * intros x' y' Hc. apply not_elem_of_cons in Hc as [Hne Hc].
        rewrite Hout' by exact Hc. subst cur1.
        apply frame_get_set_ne. congruence.
    + destruct (IH Hnd Hin cur t w Hcur) as (cur' & Hrun & Hdims & Hin' & Hout').
      exists cur'. rewrite Hrun.
      split; [reflexivity|]. split; [exact Hdims|]. split.
      * intros x' y' Hc. apply elem_of_cons in Hc as [Heq|Hc].
        -- injection Heq as -> ->. rewrite Hout' by exact Hnotin.
           unfold differs in Hd. cbn [fst snd] in Hd.
           apply negb_false_iff, Ascii.eqb_eq in Hd. exact Hd.
        -- apply Hin'. exact Hc.
      * intros x' y' Hc. apply not_elem_of_cons in Hc as [Hne Hc].
        apply Hout'. exact Hc.
Qed.

Lemma row_cells_NoDup (y : nat) (xs : list nat) :
  NoDup xs -> NoDup (map (fun x => (x, y)) xs).
Proof.
  induction 1 as [|x xs Hx Hnd IH]; cbn [map]; constructor; [|exact IH].
  intros Hin. apply list_elem_of_In, in_map_iff in Hin as (x' & Heq & Hin).
  injection Heq as ->. apply Hx, list_elem_of_In. exact Hin.
Qed.

Lemma grid_cells_NoDup (wd ht : nat) :
  NoDup (flat_map (fun y => map (fun x => (x, y)) (seq 0 wd)) (seq 0 ht)).
Proof.
  generalize 0%nat at 2. induction ht as [|ht IH]; intros y0; cbn [seq flat_map].
  - constructor.
  - apply NoDup_app. split; [|split].
    + apply row_cells_NoDup, NoDup_seq.
    + intros [x y] H1 H2.
      apply list_elem_of_In, in_map_iff in H1 as (x1 & Heq & _).
      apply list_elem_of_In, in_flat_map in H2 as (y2 & Hy2 & Hx2).
      apply in_map_iff in Hx2 as (x2 & Heq2 & _).
      apply in_seq in Hy2. injection Heq as _ <-. injection Heq2 as _ <-. lia.
    + apply IH.
Qed.

Lemma grid_cells_in (wd ht : nat) (x y : nat) :
  (x, y) ∈ flat_map (fun y => map (fun x => (x, y)) (seq 0 wd)) (seq 0 ht)
  <-> (x < wd)%nat /\ (y < ht)%nat.
Proof.
  rewrite list_elem_of_In, in_flat_map. split.
  - intros (y' & Hy & Hx). apply in_map_iff in Hx as (x' & Heq & Hx).
    apply in_seq in Hy. apply in_seq in Hx. injection Heq as <- <-. lia.
  - intros [Hx Hy]. exists y. split; [apply in_seq; lia|].
    apply in_map_iff. exists x. split; [reflexivity|apply in_seq; lia].
Qed.

Lemma positioned_writes_count (nxt : Frame) (cells : list (nat * nat)) :
  length (List.filter is_char_write (flat_map (positioned_write nxt) cells))
  = length cells
  /\ length (List.filter is_cursor_move (flat_map (positioned_write nxt) cells))
     = length cells
  /\ length (flat_map (positioned_write nxt) cells) = (2 * length cells)%nat.
Proof.
  induction cells as [|c cells (IH1 & IH2 & IH3)]; [auto|].
  cbn [flat_map positioned_write app List.filter is_char_write is_cursor_move
       String.eqb Ascii.eqb Bool.eqb length].
  cbn. rewrite IH1, IH2, IH3. repeat split; lia.
Qed.

Lemma blank_frame_ok : frame_ok blank_frame.
Proof.
  split.
  - unfold blank_frame. apply length_replicate.
  - unfold blank_frame. apply Forall_replicate. apply length_replicate.
Qed.

(** The two nested loops of [update_display] visit [screen_cells]. *)
Lemma update_display_loops (s : DisplayState.t) (w : World) :
  for_each (seq 0 (Z.to_nat SCREEN_HEIGHT))
    (fun y => for_each (seq 0 (Z.to_nat SCREEN_WIDTH)) (fun x => update_cell x y))
    s w
  = for_each screen_cells (fun c => update_cell (fst c) (snd c)) s w.
Proof.
  unfold screen_cells. rewrite for_each_flat_map.
  revert s w.
  induction (seq 0 (Z.to_nat SCREEN_HEIGHT)) as [|y ys IH]; intros s w;
    cbn [for_each]; [reflexivity|].
  unfold bind. rewrite for_each_map. cbn [fst snd].
  destruct (for_each (seq 0 (Z.to_nat SCREEN_WIDTH)) (fun a => update_cell a y) s w)
    as [[s1 w1]| | |]; cbn [res_bind fst snd]; auto.
Qed.

(** C2.  One call of [update_display] on two frames of the size of the
    screen writes each cell where they differ once (a cursor move followed
    by a one-character [printf]), so the number of positioned writes is the
    number of differing cells, and leaves the current frame equal to the
    next frame. *)
Theorem update_display_writes_changed_cells (ds : DisplayState.t) (w : World) :
  frame_ok (DisplayState.current_frame ds) ->
  frame_ok (DisplayState.next_frame ds) ->
  exists ds' w' new,
    update_display ds w = Ret (ds', w')
    /\ out w' = out w ++ new
    /\ new = flat_map (positioned_write (DisplayState.next_frame ds))
                      (changed_cells (DisplayState.current_frame ds)
                                     (DisplayState.next_frame ds))
    /\ length (List.filter is_char_write new)
       = diff_count (DisplayState.current_frame ds) (DisplayState.next_frame ds)
    /\ length (List.filter is_cursor_move new)
       = diff_count (DisplayState.current_frame ds) (DisplayState.next_frame ds)
    /\ length new
       = (2 * diff_count (DisplayState.current_frame ds)
                         (DisplayState.next_frame ds))%nat
    /\ DisplayState.current_frame ds' = DisplayState.next_frame ds
    /\ DisplayState.next_frame ds' = DisplayState.next_frame ds
    /\ DisplayState.last_frame_time ds' = clock w (ticks w).
Proof.
  destruct ds as [cur nxt t]. cbn [DisplayState.current_frame DisplayState.next_frame].
  intros Hcur Hnxt.
  pose proof (update_cells_run (Z.to_nat SCREEN_WIDTH) (Z.to_nat SCREEN_HEIGHT)
                nxt screen_cells) as Hrun.
  destruct (Hrun (grid_cells_NoDup _ _)
                 ltac:(apply Forall_forall; intros [x y] Hc;
                       apply grid_cells_in in Hc; exact Hc)
                 cur t w Hcur)
    as (cur' & Hfor & Hdims & Hin & _).
  assert (Heq : cur' = nxt).
  { apply (frame_ext (Z.to_nat SCREEN_WIDTH) (Z.to_nat SCREEN_HEIGHT));
      [exact Hdims|exact Hnxt|].
    intros x y Hx Hy. apply Hin. apply grid_cells_in. split; assumption. }
  subst cur'.
  eexists _, _, _. split.
  { unfold update_display, bind. rewrite update_display_loops, Hfor. cbn [res_bind fst snd].
    unfold millis, ret. cbn [res_bind fst snd]. reflexivity. }
  cbn [out DisplayState.set_last_frame_time DisplayState.current_frame
       DisplayState.next_frame DisplayState.last_frame_time].
  rewrite !with_out_out.
  destruct (positioned_writes_count nxt (changed_cells cur nxt)) as (C1 & C2 & C3).
  unfold diff_count. repeat split; try reflexivity; assumption.
Qed.

Lemma update_display_writes_changed_cells_witness :
  exists ds' w' new,
    update_display sample_display sample_world = Ret (ds', w')
    /\ out w' = out sample_world ++ new
    /\ new = [EvSetCursor 3 4; EvPrintf "%c" [ArgChar "A"];
              EvSetCursor 10 20; EvPrintf "%c" [ArgChar "B"]]
    /\ diff_count (DisplayState.current_frame sample_display)
                  (DisplayState.next_frame sample_display) = 2%nat
    /\ DisplayState.current_frame ds' = DisplayState.next_frame sample_display.
Proof.
  destruct (update_display_writes_changed_cells sample_display sample_world)
    as (ds' & w' & new & Hrun & Hout & Hnew & _ & _ & _ & Hcur & _).
  - exact blank_frame_ok.
  - do 2 apply frame_set_dims. exact blank_frame_ok.
  - exists ds', w', new.
    split; [exact Hrun|]. split; [exact Hout|].
    split; [rewrite Hnew; vm_compute; reflexivity|].
    split; [vm_compute; reflexivity|exact Hcur].
Defined.

(** ** Score counter *)

Lemma count_digits_fuel (f1 f2 : nat) (s : Z) :
  s <= Z.of_nat f1 -> s <= Z.of_nat f2 -> count_digits f1 s = count_digits f2 s.
Proof.
  revert f2 s. induction f1 as [|f1 IH]; intros f2 s H1 H2.
  - destruct f2 as [|f2]; [reflexivity|]. cbn [count_digits].
    destruct (0 <? s) eqn:E; [apply Z.ltb_lt in E; lia|reflexivity].
  - destruct f2 as [|f2]; cbn [count_digits].
    + destruct (0 <? s) eqn:E; [apply Z.ltb_lt in E; lia|reflexivity].
    + destruct (0 <? s) eqn:E; [|reflexivity]. apply Z.ltb_lt in E.
      f_equal. pose proof (Z.div_lt s 10 ltac:(lia) ltac:(lia)).
      apply IH; lia.
Qed.

Lemma num_digits_nonpos (s : Z) : s <= 0 -> num_digits s = 0%nat.
Proof.
  intros H. unfold num_digits. destruct (Z.to_nat s) as [|n]; [reflexivity|].
  cbn [count_digits]. destruct (0 <? s) eqn:E; [apply Z.ltb_lt in E; lia|reflexivity].
Qed.

Lemma num_digits_pos (s : Z) : 0 < s -> num_digits s = S (num_digits (s / 10)).
Proof.
  intros H. unfold num_digits.
  destruct (Z.to_nat s) as [|n] eqn:En; [lia|].
  cbn [count_digits]. apply Z.ltb_lt in H as Hb. rewrite Hb. f_equal.
  pose proof (Z.div_lt s 10 ltac:(lia) ltac:(lia)).
  pose proof (Z.div_pos s 10 ltac:(lia) ltac:(lia)).
  apply count_digits_fuel; lia.
Qed.

(** [i] is below the number of digits of [s] exactly when [10 ^ i <= s]. *)
Lemma num_digits_spec (s : Z) (i : nat) :
  0 <= s -> ((i < num_digits s)%nat <-> 10 ^ Z.of_nat i <= s).
Proof.
  revert s. induction i as [|i IH]; intros s Hs.
  - cbn [Z.of_nat]. rewrite Z.pow_0_r.
    destruct (Z.eq_dec s 0) as [->|Hne].
    + rewrite num_digits_nonpos by lia. lia.
    + rewrite num_digits_pos by lia. lia.
  - rewrite Nat2Z.inj_succ, Z.pow_succ_r by lia.
    destruct (Z.eq_dec s 0) as [->|Hne].
    + rewrite num_digits_nonpos by lia.
      pose proof (Z.pow_pos_nonneg 10 (Z.of_nat i) ltac:(lia) ltac:(lia)). lia.
    + rewrite num_digits_pos by lia.
      pose proof (Z.div_pos s 10 ltac:(lia) ltac:(lia)) as Hq.
      specialize (IH (s / 10) Hq).
      pose proof (Z.mul_div_le s 10 ltac:(lia)).
      pose proof (Z.mod_pos_bound s 10 ltac:(lia)).
      pose proof (Z.div_mod s 10 ltac:(lia)).
      split; intros H'.
      * assert (10 ^ Z.of_nat i <= s / 10) by (apply IH; lia). lia.
      * assert (Hq' : 10 ^ Z.of_nat i <= s / 10)
          by (apply Z.div_le_lower_bound; lia).
        apply IH in Hq'. lia.
Qed.

Lemma digit_of_shift (s : Z) (i : nat) :
  0 <= s -> digit_of (s / 10) i = digit_of s (S i).
Proof.
  intros Hs. unfold digit_of.
  rewrite Nat2Z.inj_succ, Z.pow_succ_r by lia.
  rewrite Z.div_div by (try apply Z.pow_pos_nonneg; lia). reflexivity.
Qed.

Lemma score_digits_loop_stop (fuel : nat) (score k : Z) (ds : list Entity.t) :
  score <= 0 -> score_digits_loop (S fuel) score k ds = Ret (k, ds).
Proof.
  intros H. cbn [score_digits_loop].
  destruct (score >? 0) eqn:E; [apply Z.gtb_gt in E; lia|reflexivity].
Qed.

(** The [while] loop on a score of at most [n] digits, from digit
    [k]: it returns after [num_digits score] turns and has made the digits
    [k], [k + 1], ... show the decimal digits of the score. *)
Lemma score_digits_loop_run (n : nat) :
  forall (fuel : nat) (score : Z) (k : nat) (ds : list Entity.t),
    0 <= score < 10 ^ Z.of_nat n -> (n < fuel)%nat -> (k + n <= 5)%nat ->
    length ds = 5%nat ->
    exists ds',
      score_digits_loop fuel score (Z.of_nat k) ds
      = Ret (Z.of_nat (k + num_digits score), ds')
      /\ (num_digits score <= n)%nat
      /\ length ds' = 5%nat
      /\ forall j : nat,
          ds' !! j =
          if (k <=? j)%nat && (j <? k + num_digits score)%nat
          then show_digit (digit_of score (j - k)) <$> ds !! j
          else ds !! j.
Proof.
  induction n as [|n IH]; intros fuel score k ds Hs Hfuel Hk Hlen;
    (destruct fuel as [|fuel]; [lia|]).
  - assert (score = 0) by (cbn in Hs; lia). subst score.
    exists ds. rewrite score_digits_loop_stop by lia.
    rewrite num_digits_nonpos by lia. rewrite Nat.add_0_r.
    repeat split; auto. intros j.
    destruct (k <=? j)%nat eqn:E1, (j <? k)%nat eqn:E2; cbn [andb]; try reflexivity.
    apply Nat.leb_le in E1. apply Nat.ltb_lt in E2. lia.
  - destruct (Z.eq_dec score 0) as [->|Hne].
    + exists ds. rewrite score_digits_loop_stop by lia.
      rewrite num_digits_nonpos by lia. rewrite Nat.add_0_r.
      repeat split; auto; [lia|]. intros j.
      destruct (k <=? j)%nat eqn:E1, (j <? k)%nat eqn:E2; cbn [andb]; try reflexivity.
      apply Nat.leb_le in E1. apply Nat.ltb_lt in E2. lia.
    + assert (Hpos : 0 < score) by lia.
      rewrite Nat2Z.inj_succ, Z.pow_succ_r in Hs by lia.
      pose proof (Z.div_pos score 10 ltac:(lia) ltac:(lia)) as Hq0.
      assert (Hq1 : score / 10 < 10 ^ Z.of_nat n)
        by (apply Z.div_lt_upper_bound; lia).
      assert (Hpow : 10 ^ Z.of_nat n <= 10 ^ 5).
      { apply Z.pow_le_mono_r; lia. }
      cbn [score_digits_loop].
      assert (Hb : (score >? 0) = true)
        by (rewrite Z.gtb_ltb; apply Z.ltb_lt; exact Hpos).
      rewrite Hb.
      assert (Hin : (0 <=? Z.of_nat k) && (Z.of_nat k <? SCORE_COUNTER_DIGITS) = true).
      { unfold SCORE_COUNTER_DIGITS. apply andb_true_intro.
        split; [apply Z.leb_le|apply Z.ltb_lt]; lia. }
      rewrite Hin, Nat2Z.id.
      destruct (lookup_lt_is_Some_2 ds k ltac:(lia)) as [d Hd]. rewrite Hd.
      assert (Hdiv : CInt.div score 10 = score / 10).
      { unfold CInt.div. rewrite Z.quot_div_nonneg by lia.
        apply wrap_id. unfold CInt.in_range. lia. }
      assert (Hadd : CInt.add (Z.of_nat k) 1 = Z.of_nat (S k)).
      { unfold CInt.add. rewrite wrap_id; [lia|]. unfold CInt.in_range. lia. }
      assert (Hdig : CInt.uwrap (CInt.rem score 10) = digit_of score 0).
      { unfold CInt.rem, digit_of. rewrite Z.rem_mod_nonneg by lia.
        cbn [Z.of_nat]. rewrite Z.pow_0_r, Z.div_1_r.
        apply uwrap_id. pose proof (Z.mod_pos_bound score 10 ltac:(lia)). lia. }
      rewrite Hdiv, Hadd, Hdig.
      destruct (IH fuel (score / 10) (S k)
                   (<[k := show_digit (digit_of score 0) d]> ds)
                   ltac:(lia) ltac:(lia) ltac:(lia)
                   ltac:(rewrite length_insert; exact Hlen))
        as (ds' & Hrun & Hnd & Hlen' & Hlook).
      exists ds'. fold (show_digit (digit_of score 0) d). rewrite Hrun.
      rewrite (num_digits_pos score) by lia.
      split; [do 2 f_equal; lia|]. split; [lia|]. split; [exact Hlen'|].
      intros j. rewrite Hlook.
      destruct (decide (j = k)) as [->|Hjk].
      * replace (S k <=? k)%nat with false by (symmetry; apply Nat.leb_gt; lia).
        replace (k <=? k)%nat with true by (symmetry; apply Nat.leb_le; lia).
        replace (k <? k + S (num_digits (score / 10)))%nat with true
          by (symmetry; apply Nat.ltb_lt; lia).
        cbn [andb]. rewrite list_lookup_insert_eq by lia.
        rewrite Hd, Nat.sub_diag. reflexivity.
      * rewrite list_lookup_insert_ne by congruence.
        destruct (decide (j < k)%nat) as [Hlt|Hge].
        -- replace (S k <=? j)%nat with false by (symmetry; apply Nat.leb_gt; lia).
           replace (k <=? j)%nat with false by (symmetry; apply Nat.leb_gt; lia).
           reflexivity.
        -- replace (S k <=? j)%nat with true by (symmetry; apply Nat.leb_le; lia).
           replace (k <=? j)%nat with true by (symmetry; apply Nat.leb_le; lia).
           replace (j <? k + S (num_digits (score / 10)))%nat
             with (j <? S k + num_digits (score / 10))%nat
             by (f_equal; lia).
           cbn [andb]. rewrite digit_of_shift by lia.
           replace (S (j - S k)) with (j - k)%nat by lia. reflexivity.
Qed.

(** The [for] loop that hides the digits from [m] on. *)
Lemma hide_digits_from_lookup (m : nat) (ds : list Entity.t) (j : nat) :
  (m <= 5)%nat ->
  hide_digits_from (Z.of_nat m) ds !! j =
  if (m <=? j)%nat && (j <? 5)%nat
  then Entity.set_visible false <$> ds !! j
  else ds !! j.
Proof.
  intros Hm. unfold hide_digits_from, SCORE_COUNTER_DIGITS.
  rewrite Nat2Z.id. replace (Z.to_nat (5 - Z.of_nat m)) with (5 - m)%nat by lia.
  assert (Hgen : forall n a (l : list Entity.t),
    fold_left (fun ds i => alter (Entity.set_visible false) i ds) (seq a n) l !! j
    = if (a <=? j)%nat && (j <? a + n)%nat
      then Entity.set_visible false <$> l !! j else l !! j).
  { induction n as [|n IHn]; intros a l; cbn [seq fold_left].
    - destruct (a <=? j)%nat eqn:E1, (j <? a + 0)%nat eqn:E2; cbn [andb]; try reflexivity.
      apply Nat.leb_le in E1. apply Nat.ltb_lt in E2. lia.
    - rewrite IHn. destruct (decide (j = a)) as [->|Hne].
      + replace (S a <=? a)%nat with false by (symmetry; apply Nat.leb_gt; lia).
        replace (a <=? a)%nat with true by (symmetry; apply Nat.leb_le; lia).
        replace (a <? a + S n)%nat with true by (symmetry; apply Nat.ltb_lt; lia).
        cbn [andb]. apply list_lookup_alter_eq.
      + rewrite list_lookup_alter_ne by congruence.
        replace (j <? a + S n)%nat with (j <? S a + n)%nat by (f_equal; lia).
        destruct (decide (j < a)%nat).
        * replace (S a <=? j)%nat with false by (symmetry; apply Nat.leb_gt; lia).
          replace (a <=? j)%nat with false by (symmetry; apply Nat.leb_gt; lia).
          reflexivity.
        * replace (S a <=? j)%nat with true by (symmetry; apply Nat.leb_le; lia).
          replace (a <=? j)%nat with true by (symmetry; apply Nat.leb_le; lia).
          reflexivity. }
  rewrite Hgen. replace (m + (5 - m))%nat with 5%nat by lia. reflexivity.
Qed.

Lemma hide_digits_from_length (m : Z) (ds : list Entity.t) :
  length (hide_digits_from m ds) = length ds.
Proof.
  unfold hide_digits_from.
  generalize (seq (Z.to_nat m) (Z.to_nat (SCORE_COUNTER_DIGITS - m))) as l.
  intros l. revert ds. induction l as [|a l IH]; intros ds; cbn [fold_left].
  - reflexivity.
  - rewrite IH. apply length_alter.
Qed.

(** C3.  For a score [s] with [0 <= s < 10 ^ 5], [update_score_counter]
    returns; afterwards digit entity [i], counted from the least significant
    digit, is visible exactly when [i] is below the number of decimal digits
    of [s] (none when [s = 0]), and a visible digit entity shows the view
    whose index is the digit [(s / 10 ^ i) mod 10]. *)
Theorem update_score_counter_shows_score (gs : GameState.t) :
  0 <= GameState.score gs < 10 ^ 5 ->
  length (ScoreCounter.digits (GameState.score_counter gs)) = 5%nat ->
  exists digits',
    update_score_counter gs
    = Ret (GameState.set_score_counter
             (ScoreCounter.set_digits digits' (GameState.score_counter gs)) gs)
    /\ length digits' = 5%nat
    /\ forall (i : nat) (d' : Entity.t),
        digits' !! i = Some d' ->
        (Entity.visible d' = true <-> (i < num_digits (GameState.score gs))%nat)
        /\ (Entity.visible d' = true ->
            Entity.current_view d' = digit_of (GameState.score gs) i).
Proof.
  intros Hs Hlen.
  destruct (score_digits_loop_run 5 score_loop_fuel (GameState.score gs) 0
              (ScoreCounter.digits (GameState.score_counter gs))
              Hs ltac:(unfold score_loop_fuel, SCORE_COUNTER_DIGITS; lia)
              ltac:(lia) Hlen)
    as (ds & Hrun & Hnd & Hlen' & Hlook).
  exists (hide_digits_from (Z.of_nat (num_digits (GameState.score gs))) ds).
  split; [|split].
  - unfold update_score_counter. change (Z.of_nat 0) with 0 in Hrun.
    rewrite Hrun. reflexivity.
  - rewrite hide_digits_from_length. exact Hlen'.
  - intros i d' Hd'.
    rewrite hide_digits_from_lookup in Hd' by exact Hnd.
    rewrite Hlook in Hd'. cbn [Nat.add Nat.leb andb] in Hd'.
    rewrite Nat.sub_0_r in Hd'.
    set (nd := num_digits (GameState.score gs)) in *.
    destruct (ScoreCounter.digits (GameState.score_counter gs) !! i)
      as [d0|] eqn:Hd0.
    2:{ destruct (nd <=? i)%nat, (i <? 5)%nat, (i <? nd)%nat; discriminate. }
    pose proof (lookup_lt_Some _ _ _ Hd0) as Hi. rewrite Hlen in Hi.
    replace (i <? 5)%nat with true in Hd' by (symmetry; apply Nat.ltb_lt; lia).
    destruct (decide (i < nd)%nat) as [Hlt|Hge].
    + replace (i <? nd)%nat with true in Hd' by (symmetry; apply Nat.ltb_lt; lia).
      replace (nd <=? i)%nat with false in Hd' by (symmetry; apply Nat.leb_gt; lia).
      cbn in Hd'. injection Hd' as <-. cbn. tauto.
    + replace (i <? nd)%nat with false in Hd' by (symmetry; apply Nat.ltb_ge; lia).
      replace (nd <=? i)%nat with true in Hd' by (symmetry; apply Nat.leb_le; lia).
      cbn in Hd'. injection Hd' as <-. cbn.
      split; [split; [discriminate|lia]|discriminate].
Qed.

Lemma update_score_counter_shows_score_witness :
  exists digits',
    update_score_counter (counter_state 1234)
    = Ret (GameState.set_score_counter
             (ScoreCounter.set_digits digits'
                (GameState.score_counter (counter_state 1234)))
             (counter_state 1234))
    /\ length digits' = 5%nat
    /\ forall (i : nat) (d' : Entity.t),
        digits' !! i = Some d' ->
        (Entity.visible d' = true <-> (i < num_digits 1234)%nat)
        /\ (Entity.visible d' = true -> Entity.current_view d' = digit_of 1234 i).
Proof.
  apply (update_score_counter_shows_score (counter_state 1234)).
  - cbn. lia.
  - reflexivity.
Defined.

(** Score 1234 shows the views 4, 3, 2, 1 at the places 0 to 3 and hides
    place 4; score 0 hides every digit. *)
Example update_score_counter_1234 :
  exists gs', update_score_counter (counter_state 1234) = Ret gs'
              /\ shown_digits gs'
                 = [(true, 4); (true, 3); (true, 2); (true, 1); (false, 0)].
Proof. eexists. split; reflexivity. Qed.

Example update_score_counter_0 :
  exists gs', update_score_counter (counter_state 0) = Ret gs'
              /\ shown_digits gs'
                 = [(false, 0); (false, 0); (false, 0); (false, 0); (false, 0)].
Proof. eexists. split; reflexivity. Qed.

(** A score of six digits makes the loop store to [digits[5]]. *)
Example update_score_counter_100000 :
  update_score_counter (counter_state 100000) = Undef.
Proof. reflexivity. Qed.

(** The fuel given to the [while] loop is never used up. *)
Lemma score_digits_loop_fuel (fuel : nat) :
  forall (score k : Z) (ds : list Entity.t),
    0 <= k -> (Z.to_nat (SCORE_COUNTER_DIGITS - k) < fuel)%nat ->
    score_digits_loop fuel score k ds <> Timeout.
Proof.
  unfold SCORE_COUNTER_DIGITS.
  induction fuel as [|fuel IH]; intros score k ds Hk Hfuel; [lia|].
  cbn [score_digits_loop].
  destruct (score >? 0); [|discriminate].
  destruct ((0 <=? k) && (k <? SCORE_COUNTER_DIGITS)) eqn:Hin; [|discriminate].
  apply andb_prop in Hin as [_ Hlt]. apply Z.ltb_lt in Hlt.
  unfold SCORE_COUNTER_DIGITS in Hlt.
  destruct (ds !! Z.to_nat k); [|discriminate].
  assert (Hadd : CInt.add k 1 = k + 1).
  { unfold CInt.add. apply wrap_id. unfold CInt.in_range. lia. }
  rewrite Hadd. apply IH; lia.
Qed.

Lemma update_score_counter_no_timeout (gs : GameState.t) :
  update_score_counter gs <> Timeout.
Proof.
  unfold update_score_counter.
  pose proof (score_digits_loop_fuel score_loop_fuel (GameState.score gs) 0
                (ScoreCounter.digits (GameState.score_counter gs))
                ltac:(lia)
                ltac:(unfold score_loop_fuel, SCORE_COUNTER_DIGITS; lia)) as H.
  destruct (score_digits_loop score_loop_fuel (GameState.score gs) 0
              (ScoreCounter.digits (GameState.score_counter gs)))
    as [[m ds]| | |]; cbn [res_bind]; congruence.
Qed.

(** ** Renderer *)

Lemma render_chars_dims (wd ht : nat) (start_x : Z) (chars : list ascii) :
  forall (cx cy : Z) (f : Frame),
    frame_dims wd ht f -> frame_dims wd ht (render_chars start_x chars cx cy f).
Proof.
  induction chars as [|c chars IH]; intros cx cy f Hf; cbn [render_chars].
  - exact Hf.
  - destruct (is_newline c); [apply IH; exact Hf|].
    apply IH.
    destruct ((cx >=? 0) && (cx <? SCREEN_WIDTH) && (cy >=? 0) && (cy <? SCREEN_HEIGHT));
      [apply frame_set_dims|]; exact Hf.
Qed.

Lemma render_entity_dims (wd ht : nat) (e : Entity.t) (f f' : Frame) :
  frame_dims wd ht f -> render_entity e f = Ret f' -> frame_dims wd ht f'.
Proof.
  intros Hf. unfold render_entity.
  destruct (negb (Entity.visible e)).
  - intros H. injection H as <-. exact Hf.
  - destruct (Entity.view_at e (Entity.current_view e)) as [v| | |];
      cbn [res_bind]; try discriminate.
    destruct (EntityView.display v) as [|c chars]; [discriminate|].
    intros H. injection H as <-. apply render_chars_dims. exact Hf.
Qed.

Lemma render_entities_dims (wd ht : nat) (gs : GameState.t) (ps : list EntityRef) :
  forall f f' : Frame,
    frame_dims wd ht f ->
    res_for_each ps
      (fun p frame => res_bind (GameState.deref gs p)
                        (fun entity => render_entity entity frame)) f = Ret f' ->
    frame_dims wd ht f'.
Proof.
  induction ps as [|p ps IH]; intros f f' Hf; cbn [res_for_each].
  - intros H. injection H as <-. exact Hf.
  - destruct (GameState.deref gs p) as [e| | |]; cbn [res_bind]; try discriminate.
    destruct (render_entity e f) as [f1| | |] eqn:E; cbn [res_bind]; try discriminate.
    apply IH. exact (render_entity_dims wd ht e f f1 Hf E).
Qed.

(** The first border loop: rows [0] and [hm] of the visited columns. *)
Lemma draw_rows_spec (wd ht hm : nat) (xs : list nat) :
  (hm < ht)%nat -> (0 < ht)%nat -> Forall (fun x => (x < wd)%nat) xs ->
  forall f : Frame,
    frame_dims wd ht f ->
    let f' := fold_left (fun f x => let f := frame_set f x 0 "="%char in
                                    frame_set f x hm "="%char) xs f in
    frame_dims wd ht f'
    /\ (forall x, x ∈ xs -> frame_get f' x 0 = "="%char
                            /\ frame_get f' x hm = "="%char)
    /\ (forall x y, x ∉ xs -> frame_get f' x y = frame_get f x y).
Proof.
  intros Hhm Hht. induction xs as [|x0 xs IH]; intros Hxs f Hf; cbn [fold_left].
  - split; [exact Hf|]. split; [|reflexivity]. intros x H. inversion H.
  - apply Forall_cons in Hxs as [Hx0 Hxs].
    set (f1 := frame_set (frame_set f x0 0 "="%char) x0 hm "="%char).
    assert (Hf1 : frame_dims wd ht f1) by (do 2 apply frame_set_dims; exact Hf).
    destruct (IH Hxs f1 Hf1) as (Hd & Hin & Hout).
    split; [exact Hd|]. split.
    + intros x Hx. destruct (decide (x ∈ xs)) as [Hxin|Hxnot]; [apply Hin; exact Hxin|].
      apply elem_of_cons in Hx as [->|Hx]; [|contradiction].
      rewrite !Hout by exact Hxnot. subst f1. split.
      * destruct (decide (hm = 0%nat)) as [->|Hne].
        -- apply (frame_get_set_eq wd ht); [apply frame_set_dims; exact Hf|lia|lia].
        -- rewrite frame_get_set_ne by congruence.
           apply (frame_get_set_eq wd ht); [exact Hf|lia|lia].
      * apply (frame_get_set_eq wd ht); [apply frame_set_dims; exact Hf|lia|lia].
    + intros x y Hx. apply not_elem_of_cons in Hx as [Hne Hx].
      rewrite Hout by exact Hx. subst f1.
      rewrite !frame_get_set_ne by congruence. reflexivity.
Qed.

(** The second border loop: columns [0] and [wm] of the visited rows. *)
Lemma draw_columns_spec (wd ht wm : nat) (ys : list nat) :
  (wm < wd)%nat -> (0 < wd)%nat -> Forall (fun y => (y < ht)%nat) ys ->
  forall f : Frame,
    frame_dims wd ht f ->
    let f' := fold_left (fun f y => let f := frame_set f 0 y "|"%char in
                                    frame_set f wm y "|"%char) ys f in
    frame_dims wd ht f'
    /\ (forall y, y ∈ ys -> frame_get f' 0 y = "|"%char
                            /\ frame_get f' wm y = "|"%char)
    /\ (forall x y, (x <> 0%nat /\ x <> wm) \/ y ∉ ys ->
                    frame_get f' x y = frame_get f x y).
Proof.
  intros Hwm Hwd. induction ys as [|y0 ys IH]; intros Hys f Hf; cbn [fold_left].
  - split; [exact Hf|]. split; [|reflexivity]. intros x H. inversion H.
  - apply Forall_cons in Hys as [Hy0 Hys].
    set (f1 := frame_set (frame_set f 0 y0 "|"%char) wm y0 "|"%char).
    assert (Hf1 : frame_dims wd ht f1) by (do 2 apply frame_set_dims; exact Hf).
    destruct (IH Hys f1 Hf1) as (Hd & Hin & Hout).
    split; [exact Hd|]. split.
    + intros y Hy. destruct (decide (y ∈ ys)) as [Hyin|Hynot]; [apply Hin; exact Hyin|].
      apply elem_of_cons in Hy as [->|Hy]; [|contradiction].
      rewrite !Hout by (right; exact Hynot). subst f1. split.
      * destruct (decide (wm = 0%nat)) as [->|Hne].
        -- apply (frame_get_set_eq wd ht); [apply frame_set_dims; exact Hf|lia|lia].
        -- rewrite frame_get_set_ne by congruence.
           apply (frame_get_set_eq wd ht); [exact Hf|lia|lia].
      * apply (frame_get_set_eq wd ht); [apply frame_set_dims; exact Hf|lia|lia].
    + intros x y Hxy.
      assert (Hxy' : (x <> 0%nat /\ x <> wm) \/ y ∉ ys).
      { destruct Hxy as [H|H]; [left; exact H|].
        right. apply not_elem_of_cons in H as [_ H]. exact H. }
      rewrite Hout by exact Hxy'. subst f1.
      destruct Hxy as [[Hx0 Hxm]|Hy].
      * rewrite !frame_get_set_ne by congruence. reflexivity.
      * apply not_elem_of_cons in Hy as [Hne _].
        rewrite !frame_get_set_ne by congruence. reflexivity.
Qed.

Lemma draw_border_spec (f : Frame) :
  frame_ok f -> frame_ok (draw_border f) /\ border_drawn (draw_border f).
Proof.
  intros Hf. unfold draw_border.
  destruct (draw_rows_spec (Z.to_nat SCREEN_WIDTH) (Z.to_nat SCREEN_HEIGHT)
              (Z.to_nat (SCREEN_HEIGHT - 1)) (seq 0 (Z.to_nat SCREEN_WIDTH))
              ltac:(unfold SCREEN_HEIGHT; lia) ltac:(unfold SCREEN_HEIGHT; lia)
              ltac:(apply Forall_forall; intros x Hx; apply elem_of_seq in Hx; lia)
              f Hf) as (Hd1 & Hin1 & _).
  cbv zeta in Hd1, Hin1.
  set (f1 := fold_left _ (seq 0 (Z.to_nat SCREEN_WIDTH)) f) in *.
  destruct (draw_columns_spec (Z.to_nat SCREEN_WIDTH) (Z.to_nat SCREEN_HEIGHT)
              (Z.to_nat (SCREEN_WIDTH - 1)) (seq 0 (Z.to_nat SCREEN_HEIGHT))
              ltac:(unfold SCREEN_WIDTH; lia) ltac:(unfold SCREEN_WIDTH; lia)
              ltac:(apply Forall_forall; intros y Hy; apply elem_of_seq in Hy; lia)
              f1 Hd1) as (Hd2 & Hin2 & Hout2).
  cbv zeta in Hd2, Hin2, Hout2.
  split; [exact Hd2|]. split.
  - intros x Hx. rewrite !Hout2 by (left; lia). apply Hin1. apply elem_of_seq.
    unfold SCREEN_WIDTH in *. lia.
  - intros y Hy. apply Hin2. apply elem_of_seq. lia.
Qed.

(** [render_next_frame] returns when every registered pointer leads to an
    entity that can be drawn. *)
Lemma render_next_frame_returns (ds : DisplayState.t) (gs : GameState.t) :
  Forall (fun p => exists e, GameState.deref gs p = Ret e /\ renderable e)
         (GameState.entities gs) ->
  exists ds', render_next_frame ds gs = Ret ds'.
Proof.
  intros Hall. unfold render_next_frame.
  assert (Hloop : forall f : Frame, exists f',
            res_for_each (GameState.entities gs)
              (fun p frame => res_bind (GameState.deref gs p)
                                (fun entity => render_entity entity frame)) f
            = Ret f').
  { induction Hall as [|p ps (e & Hderef & Hren) _ IH]; intros f; cbn [res_for_each].
    - eexists. reflexivity.
    - rewrite Hderef. cbn [res_bind].
      assert (Hone : exists f1, render_entity e f = Ret f1).
      { unfold render_entity. destruct Hren as [Hvis|(v & Hv & Hdisp)].
        - rewrite Hvis. eexists. reflexivity.
        - destruct (negb (Entity.visible e)); [eexists; reflexivity|].
          unfold active_view in Hv. rewrite Hv. cbn [res_bind].
          destruct (EntityView.display v); [contradiction|]. eexists. reflexivity. }
      destruct Hone as [f1 ->]. cbn [res_bind]. apply IH. }
  destruct (Hloop blank_frame) as [f' ->]. cbn [res_bind]. eexists. reflexivity.
Qed.

(** C8, as amended.  In the frame [render_next_frame] produces, the
    leftmost and the rightmost columns are ['|'] in every row, the corners
    included, and the top and the bottom rows are ['='] in every column
    between the corners; the border is drawn after the entities, so no
    entity glyph is left on a border cell. *)
Theorem render_next_frame_border (ds ds' : DisplayState.t) (gs : GameState.t) :
  render_next_frame ds gs = Ret ds' ->
  frame_ok (DisplayState.next_frame ds')
  /\ border_drawn (DisplayState.next_frame ds')
  /\ DisplayState.current_frame ds' = DisplayState.current_frame ds.
Proof.
  unfold render_next_frame. intros H.
  destruct (res_for_each (GameState.entities gs) _ blank_frame) as [f| | |] eqn:E;
    cbn [res_bind] in H; try discriminate.
  injection H as <-.
  pose proof (render_entities_dims _ _ gs (GameState.entities gs) blank_frame f
                blank_frame_ok E) as Hf.
  destruct (draw_border_spec f Hf) as [Hok Hborder].
  cbn [DisplayState.set_next_frame DisplayState.next_frame DisplayState.current_frame].
  auto.
Qed.

Lemma render_next_frame_border_witness :
  render_next_frame sample_display corner_state = Ret corner_rendered
  /\ frame_ok (DisplayState.next_frame corner_rendered)
  /\ border_drawn (DisplayState.next_frame corner_rendered)
  /\ DisplayState.current_frame corner_rendered
     = DisplayState.current_frame sample_display.
Proof.
  split.
  - vm_compute. reflexivity.
  - apply (render_next_frame_border sample_display corner_rendered corner_state).
    vm_compute. reflexivity.
Defined.

(** C8, as stated, fails: the corner cells of the top row hold ['|'], not
    ['='].  Here the bird is a one-cell block in the top left corner. *)
Lemma render_next_frame_corner_is_bar :
  render_next_frame sample_display corner_state = Ret corner_rendered
  /\ frame_get (DisplayState.next_frame corner_rendered) 0 0 = "|"%char
  /\ ~ border_as_claimed (DisplayState.next_frame corner_rendered).
Proof.
  split; [vm_compute; reflexivity|]. split; [vm_compute; reflexivity|].
  intros [Hrows _].
  destruct (Hrows 0%nat ltac:(unfold SCREEN_WIDTH; lia)) as [H _].
  vm_compute in H. discriminate H.
Qed.

(** ** Loading views *)

(** Below the capacity, a readable asset is stored in slot [num_views], the
    number of views grows by one, and the loader reports the file. *)
Lemma add_entity_view_from_file_loads (e : Entity.t) (filename : string)
  (w : World) (width height ox oy : Z) (body : list ascii) :
  files w filename = AssetOk width height ox oy body ->
  0 <= Entity.num_views e < MAX_VIEWS ->
  length (Entity.views e) = Z.to_nat MAX_VIEWS ->
  add_entity_view_from_file e filename w =
  Ret (Entity.set_num_views (Entity.num_views e + 1)
         (Entity.set_views
            (<[Z.to_nat (Entity.num_views e) :=
                 EntityView.mk ox oy width height (read_display body)]>
               (Entity.views e)) e),
       with_out w (out w ++ [EvPrintf ("Loaded entity view: %s" ++ nl)
                                      [ArgStr filename]])).
Proof.
  intros Hfile Hn Hlen. unfold add_entity_view_from_file. rewrite Hfile.
  unfold bind, lift, Entity.store_view.
  assert (Hin : (0 <=? Entity.num_views e) && (Entity.num_views e <? MAX_VIEWS) = true).
  { apply andb_true_intro. split; [apply Z.leb_le|apply Z.ltb_lt]; lia. }
  rewrite Hin.
  assert (Hlt : (Z.to_nat (Entity.num_views e) < length (Entity.views e))%nat)
    by (rewrite Hlen; unfold MAX_VIEWS in *; lia).
  destruct (lookup_lt_is_Some_2 _ _ Hlt) as [v0 ->].
  cbn [res_bind fst snd]. unfold printf, emit, ret. cbn [res_bind fst snd].
  unfold CInt.uadd, Entity.set_views. cbn [Entity.num_views].
  rewrite uwrap_id by (unfold MAX_VIEWS in *; lia).
  reflexivity.
Qed.

(** Whatever the entity, the result of a successful call is the entity with
    one more view and the same current view. *)
Lemma add_entity_view_from_file_ret (e e' : Entity.t) (filename : string)
  (w w' : World) :
  add_entity_view_from_file e filename w = Ret (e', w') ->
  0 <= Entity.num_views e < MAX_VIEWS
  /\ Entity.num_views e' = CInt.uadd (Entity.num_views e) 1
  /\ Entity.current_view e' = Entity.current_view e.
Proof.
  unfold add_entity_view_from_file.
  destruct (files w filename) as [| | |width height ox oy body];
    try (unfold bind, printf, emit, exit; cbn [res_bind fst snd]; discriminate).
  unfold bind, lift, Entity.store_view.
  destruct ((0 <=? Entity.num_views e) && (Entity.num_views e <? MAX_VIEWS)) eqn:Hin;
    [|cbn [res_bind]; discriminate].
  apply andb_prop in Hin as [H0 H1]. apply Z.leb_le in H0. apply Z.ltb_lt in H1.
  destruct (Entity.views e !! Z.to_nat (Entity.num_views e));
    [|cbn [res_bind]; discriminate].
  cbn [res_bind fst snd]. unfold printf, emit, ret. cbn [res_bind fst snd].
  intros H. injection H as <- _. cbn. auto.
Qed.

(** C7, as amended.  For an entity that already holds ten views,
    [add_entity_view_from_file] makes no capacity check.  A file that cannot
    be opened, a malformed header and an allocation failure print their
    diagnostic (naming the file in the first two cases) and exit with
    status 1, as for any entity; an asset that loads is stored at
    [views[10]], outside the array, with no diagnostic and no exit. *)
Theorem add_entity_view_from_file_at_capacity (e : Entity.t)
  (filename : string) (w : World) :
  Entity.num_views e = MAX_VIEWS ->
  add_entity_view_from_file e filename w =
  match files w filename with
  | OpenFailed =>
      Exit 1 (out w ++ [EvPrintf "Error opening file '%s'" [ArgStr filename]])
  | HeaderMalformed =>
      Exit 1 (out w ++ [EvPrintf ("Error parsing entity file '%s'" ++ nl)
                                 [ArgStr filename]])
  | AllocFailed =>
      Exit 1 (out w ++ [EvPrintf
                          ("Error allocating memory for entity view display" ++ nl)
                          []])
  | AssetOk _ _ _ _ _ => Undef
  end.
Proof.
  intros Hfull. unfold add_entity_view_from_file.
  destruct (files w filename) as [| | |width height ox oy body]; try reflexivity.
  unfold bind, lift, Entity.store_view. rewrite Hfull. reflexivity.
Qed.

Lemma add_entity_view_from_file_at_capacity_witness :
  Entity.num_views full_entity = MAX_VIEWS
  /\ add_entity_view_from_file full_entity "0.entity" asset_world = Undef
  /\ add_entity_view_from_file full_entity "broken.entity" asset_world
     = Exit 1 [EvPrintf ("Error parsing entity file '%s'" ++ nl)
                        [ArgStr "broken.entity"]].
Proof.
  split; [reflexivity|]. split.
  - exact (add_entity_view_from_file_at_capacity full_entity "0.entity"
             asset_world eq_refl).
  - exact (add_entity_view_from_file_at_capacity full_entity "broken.entity"
             asset_world eq_refl).
Defined.

(** C7, as stated, fails: adding an eleventh view from a well-formed asset
    is not reported as a fatal error. *)
Lemma add_entity_view_from_file_no_capacity_error :
  Entity.num_views full_entity = MAX_VIEWS
  /\ files asset_world "0.entity" = AssetOk 3 5 0 0 digit_body
  /\ add_entity_view_from_file full_entity "0.entity" asset_world = Undef
  /\ ~ reports_fatal_error full_entity "0.entity" asset_world.
Proof.
  split; [reflexivity|]. split; [reflexivity|]. split; [reflexivity|].
  intros (status & console & H & _). discriminate H.
Qed.

(** ** The view index invariant *)

Lemma entity_ok_inv (e : Entity.t) : entity_ok e -> view_index_inv e.
Proof. unfold entity_ok, view_index_inv. intros [[H0 _]|H] Hn; [contradiction|exact H]. Qed.

Lemma show_digit_ok (v : Z) (d : Entity.t) :
  0 <= v < 10 -> digit_ok d -> digit_ok (show_digit v d).
Proof.
  unfold digit_ok, entity_ok, show_digit. intros Hv [Hn _]. cbn. split; [exact Hn|].
  right. lia.
Qed.

Lemma hide_digit_ok (d : Entity.t) : digit_ok d -> digit_ok (Entity.set_visible false d).
Proof. unfold digit_ok, entity_ok. cbn. auto. Qed.

Lemma score_digits_loop_ok (fuel : nat) :
  forall (score k m : Z) (ds ds' : list Entity.t),
    Forall digit_ok ds ->
    score_digits_loop fuel score k ds = Ret (m, ds') ->
    Forall digit_ok ds'.
Proof.
  induction fuel as [|fuel IH]; intros score k m ds ds' Hds; cbn [score_digits_loop];
    [discriminate|].
  destruct (score >? 0) eqn:Hpos.
  - destruct ((0 <=? k) && (k <? SCORE_COUNTER_DIGITS)); [|discriminate].
    destruct (ds !! Z.to_nat k) as [d|] eqn:Hd; [|discriminate].
    apply IH. apply Forall_insert; [exact Hds|].
    apply (show_digit_ok _ d).
    + rewrite Z.gtb_ltb in Hpos. apply Z.ltb_lt in Hpos.
      unfold CInt.rem. pose proof (Z.rem_bound_pos score 10 ltac:(lia) ltac:(lia)).
      rewrite uwrap_id; lia.
    + exact (Forall_lookup_1 _ _ _ _ Hds Hd).
  - intros H. injection H as _ <-. exact Hds.
Qed.

Lemma hide_digits_from_ok (m : Z) (ds : list Entity.t) :
  Forall digit_ok ds -> Forall digit_ok (hide_digits_from m ds).
Proof.
  unfold hide_digits_from.
  generalize (seq (Z.to_nat m) (Z.to_nat (SCORE_COUNTER_DIGITS - m))) as l.
  intros l. revert ds. induction l as [|a l IH]; intros ds Hds; cbn [fold_left].
  - exact Hds.
  - apply IH. apply Forall_alter; [exact Hds|].
    intros d _. apply hide_digit_ok.
Qed.

(** [update_score_counter] keeps the digit entities sound. *)
Lemma update_score_counter_ok (gs gs' : GameState.t) :
  Forall digit_ok (ScoreCounter.digits (GameState.score_counter gs)) ->
  update_score_counter gs = Ret gs' ->
  Forall digit_ok (ScoreCounter.digits (GameState.score_counter gs')).
Proof.
  intros Hds. unfold update_score_counter.
  destruct (score_digits_loop score_loop_fuel (GameState.score gs) 0
              (ScoreCounter.digits (GameState.score_counter gs)))
    as [[m ds]| | |] eqn:E; cbn [res_bind]; try discriminate.
  intros H. injection H as <-. cbn.
  apply hide_digits_from_ok. exact (score_digits_loop_ok _ _ _ _ _ _ Hds E).
Qed.

Lemma built_ok (e : Entity.t) : built e -> entity_ok e.
Proof.
  induction 1 as [| |e e' filename w w' _ IH Hcap Hadd
                  |e e' Hpos Hnext
                  |gs gs' i d' _ IH Hten Hupd Hd'
                  |e v _ IH|e v _ IH|e v _ IH].
  - left. split; reflexivity.
  - left. split; reflexivity.
  - apply add_entity_view_from_file_ret in Hadd as ([H0 H1] & Hn & Hc).
    unfold entity_ok. rewrite Hn, Hc. unfold CInt.uadd.
    rewrite uwrap_id by (unfold MAX_VIEWS in *; lia).
    destruct IH as [[E0 E1]|IH]; right; lia.
  - unfold next_entity_view in Hnext.
    destruct (Entity.num_views e =? 0); [discriminate|].
    injection Hnext as <-. right. cbn. unfold CInt.urem.
    apply Z.mod_pos_bound. exact Hpos.
  - assert (Hds : Forall digit_ok (ScoreCounter.digits (GameState.score_counter gs))).
    { apply Forall_forall. intros d Hd. split; [apply Hten|apply IH]; exact Hd. }
    pose proof (update_score_counter_ok gs gs' Hds Hupd) as Hds'.
    exact (proj2 (Forall_lookup_1 _ _ _ _ Hds' Hd')).
  - exact IH.
  - exact IH.
  - exact IH.
Qed.

(** C6.  Every entity the program can build - by [create_entity] or zero
    initialisation, [add_entity_view_from_file] below the capacity,
    [next_entity_view] on an entity with a view, [update_score_counter] on
    digit entities with ten views, and writes to the position and the
    visibility - has its current view index below its number of views
    whenever it has a view. *)
Theorem view_index_invariant (e : Entity.t) : built e -> view_index_inv e.
Proof. intros H. apply entity_ok_inv, built_ok. exact H. Qed.

Lemma view_index_invariant_witness :
  built (fst two_view_entity)
  /\ Entity.num_views (fst two_view_entity) = 2
  /\ view_index_inv (fst two_view_entity).
Proof.
  assert (Hbuilt : built (fst two_view_entity)).
  { apply (built_add (fst one_view_entity) _ "1.entity" (snd one_view_entity)
             (snd two_view_entity)).
    - apply (built_add create_entity _ "0.entity" asset_world
               (snd one_view_entity)).
      + exact built_create.
      + reflexivity.
      + reflexivity.
    - reflexivity.
    - reflexivity. }
  split; [exact Hbuilt|]. split; [reflexivity|].
  exact (view_index_invariant (fst two_view_entity) Hbuilt).
Defined.

(** ** Periodic timers *)









(** The pass over [sample_timers] at time 1000: the first and the third
    timer are called once each, the third although fifty of its periods have
    gone by; the second is not due. *)
Example run_periodic_timers_sample :
  option_map
    (fun st : PassState =>
       (snd st, GameState.score (fst (fst st)),
        map PeriodicTimer.last_trigger_time (snd (fst st))))
    (ret_value (run_periodic_timers (counter_state 0) sample_timers still_world))
  = Some ([0; 2]%nat, 2, [1000; 900; 1000]).
Proof. vm_compute. reflexivity. Qed.

(** ** World scrolling *)


(** Run the monadic steps at the head of the goal. *)
Ltac run_m :=
  repeat (unfold bind, ret, lift; cbv beta; cbn [res_bind fst snd]).

Lemma update_score_counter_returns (gs : GameState.t) :
  0 <= GameState.score gs < 10 ^ 5 ->
  length (ScoreCounter.digits (GameState.score_counter gs)) = 5%nat ->
  exists digits',
    update_score_counter gs
    = Ret (GameState.set_score_counter
             (ScoreCounter.set_digits digits' (GameState.score_counter gs)) gs)
    /\ length digits' = 5%nat.
Proof.
  intros Hs Hlen.
  destruct (score_digits_loop_run 5 score_loop_fuel (GameState.score gs) 0
              (ScoreCounter.digits (GameState.score_counter gs))
              Hs ltac:(unfold score_loop_fuel, SCORE_COUNTER_DIGITS; lia)
              ltac:(lia) Hlen)
    as (ds & Hrun & _ & Hlen' & _).
  eexists. split.
  - unfold update_score_counter. change (Z.of_nat 0) with 0 in Hrun.
    rewrite Hrun. reflexivity.
  - rewrite hide_digits_from_length. exact Hlen'.
Qed.

Lemma alter_as_insert {A} (f : A -> A) (i : nat) (l : list A) (a : A) :
  l !! i = Some a -> alter f i l = <[i := f a]> l.
Proof.
  intros Ha. apply list_eq. intros j.
  destruct (decide (i = j)) as [->|Hne].
  - rewrite list_lookup_alter_eq, Ha.
    rewrite list_lookup_insert_eq by (eapply lookup_lt_Some; exact Ha).
    reflexivity.
  - rewrite list_lookup_alter_ne, list_lookup_insert_ne by exact Hne.
    reflexivity.
Qed.

Lemma with_obstacle_insert (i : nat) (f : Obstacle.t -> Obstacle.t)
  (gs : GameState.t) (ob : Obstacle.t) :
  GameState.obstacles gs !! i = Some ob ->
  with_obstacle i f gs
  = GameState.set_obstacles (<[i := f ob]> (GameState.obstacles gs)) gs.
Proof.
  intros H. unfold with_obstacle. rewrite (alter_as_insert f i _ ob H).
  reflexivity.
Qed.

Lemma obstacle_at_some (gs : GameState.t) (i : nat) (ob : Obstacle.t) (w : World) :
  GameState.obstacles gs !! i = Some ob -> obstacle_at gs i w = Ret (ob, w).
Proof. intros H. unfold obstacle_at, lift. rewrite H. reflexivity. Qed.


Lemma update_obstacle_placed (ob : Obstacle.t) :
  parts_placed (update_obstacle ob)
  /\ Obstacle.x (update_obstacle ob) = Obstacle.x ob
  /\ Obstacle.y (update_obstacle ob) = Obstacle.y ob
  /\ Obstacle.gap_size (update_obstacle ob) = Obstacle.gap_size ob
  /\ Obstacle.score_collected (update_obstacle ob) = Obstacle.score_collected ob
  /\ Entity.views (Obstacle.top_entity (update_obstacle ob))
     = Entity.views (Obstacle.top_entity ob).
Proof. unfold parts_placed, update_obstacle. cbn. repeat split. Qed.

(** The second half of the loop body of [scroll_world], from the recycling
    test on: [ob] is obstacle [i] as the first half has left it. *)
Lemma scroll_obstacle_recycle (i : nat) (gs : GameState.t) (w : World)
  (ob : Obstacle.t) (v0 : EntityView.t) :
  GameState.obstacles gs !! i = Some ob ->
  Entity.view_at (Obstacle.top_entity ob) 0 = Ret v0 ->
  exists w' ob',
    bind (obstacle_at gs i) (fun ob =>
    bind (lift (Entity.view_at (Obstacle.top_entity ob) 0)) (fun view0 =>
    bind
      (if Obstacle.x ob <? CInt.neg (EntityView.width view0) then
         bind random_center (fun c =>
         ret (with_obstacle i (Obstacle.set_score_collected false)
                (with_obstacle i (Obstacle.set_y c)
                   (with_obstacle i (Obstacle.set_x SCREEN_WIDTH) gs))))
       else ret gs)
      (fun game_state => ret (with_obstacle i update_obstacle game_state)))) w
    = Ret (GameState.set_obstacles (<[i := ob']> (GameState.obstacles gs)) gs, w')
    /\ rand_seq w' = rand_seq w
    /\ Entity.views (Obstacle.top_entity ob') = Entity.views (Obstacle.top_entity ob)
    /\ Obstacle.gap_size ob' = Obstacle.gap_size ob
    /\ parts_placed ob'
    /\ (leaves_screen ob v0 = true ->
        Obstacle.x ob' = SCREEN_WIDTH
        /\ Obstacle.score_collected ob' = false
        /\ Obstacle.y ob' = center_of (rand_seq w (draws w)))
    /\ (leaves_screen ob v0 = false ->
        Obstacle.x ob' = Obstacle.x ob /\ Obstacle.y ob' = Obstacle.y ob
        /\ Obstacle.score_collected ob' = Obstacle.score_collected ob).
Proof.
  intros Hob Hv0.
  pose proof (lookup_lt_Some _ _ _ Hob) as Hi.
  unfold bind at 1. rewrite (obstacle_at_some gs i ob w Hob). cbn [res_bind fst snd].
  unfold bind at 1. unfold lift at 1. rewrite Hv0. cbn [res_bind fst snd].
  unfold leaves_screen.
  destruct (Obstacle.x ob <? CInt.neg (EntityView.width v0)) eqn:Hleave.
  - cbv zeta.
    rewrite (with_obstacle_insert i _ gs ob Hob).
    unfold random_center, rand. run_m.
    rewrite (with_obstacle_insert i (Obstacle.set_y _) _
               (Obstacle.set_x SCREEN_WIDTH ob))
      by (cbn; apply list_lookup_insert_eq; exact Hi).
    rewrite (with_obstacle_insert i (Obstacle.set_score_collected false) _
               (Obstacle.set_y _ (Obstacle.set_x SCREEN_WIDTH ob)))
      by (cbn; apply list_lookup_insert_eq; rewrite length_insert; exact Hi).
    rewrite (with_obstacle_insert i update_obstacle _
               (Obstacle.set_score_collected false
                  (Obstacle.set_y _ (Obstacle.set_x SCREEN_WIDTH ob))))
      by (cbn; apply list_lookup_insert_eq; rewrite !length_insert; exact Hi).
    cbn [GameState.set_obstacles GameState.obstacles GameState.bird
         GameState.entities GameState.press_space_to_start GameState.screen_type
         GameState.title_text GameState.score GameState.score_counter
         GameState.quit].
    rewrite !list_insert_insert_eq.
    eexists _, _. split; [reflexivity|].
    fold (center_of (rand_seq w (draws w))).
    split; [reflexivity|].
    pose proof (update_obstacle_placed
                  (Obstacle.set_score_collected false
                     (Obstacle.set_y (center_of (rand_seq w (draws w)))
                        (Obstacle.set_x SCREEN_WIDTH ob))))
      as (Hp & Hx & Hy & Hg & Hs & Hviews).
    split; [rewrite Hviews; reflexivity|].
    split; [rewrite Hg; reflexivity|].
    split; [exact Hp|]. split; [|discriminate].
    intros _. rewrite Hx, Hy, Hs. cbn. auto.
  - unfold bind, ret. cbn [res_bind fst snd].
    rewrite (with_obstacle_insert i update_obstacle gs ob Hob).
    eexists _, _. split; [reflexivity|].
    split; [reflexivity|].
    pose proof (update_obstacle_placed ob) as (Hp & Hx & Hy & Hg & Hs & Hviews).
    split; [exact Hviews|]. split; [exact Hg|]. split; [exact Hp|].
    split; [discriminate|]. intros _. auto.
Qed.

(** The first half of the loop body of [scroll_world], the point: [ob] is
    obstacle [i] after its move. *)
Lemma scroll_obstacle_award (i : nat) (gs : GameState.t) (w : World)
  (ob : Obstacle.t) :
  GameState.obstacles gs !! i = Some ob ->
  score_fits gs 1 ->
  exists gs2 w2 ob2,
    match GameState.screen_type gs with
    | GAME_SCREEN =>
        bind (obstacle_at gs i) (fun ob =>
        if (Obstacle.x ob <? Entity.x (Bird.entity (GameState.bird gs)))
           && negb (Obstacle.score_collected ob)
        then
          bind (lift (update_score_counter
                        (GameState.set_score (CInt.add (GameState.score gs) 1)
                                             gs))) (fun game_state =>
          bind (printf (ESC ++ "]0; Score: %d " ++ BEL)
                       [ArgInt (GameState.score game_state)]) (fun _ =>
          ret (with_obstacle i (Obstacle.set_score_collected true)
                             game_state)))
        else ret gs)
    | TITLE_SCREEN => ret gs
    end w = Ret (gs2, w2)
    /\ GameState.obstacles gs2 = <[i := ob2]> (GameState.obstacles gs)
    /\ GameState.screen_type gs2 = GameState.screen_type gs
    /\ GameState.bird gs2 = GameState.bird gs
    /\ GameState.press_space_to_start gs2 = GameState.press_space_to_start gs
    /\ GameState.score gs <= GameState.score gs2 <= GameState.score gs + 1
    /\ length (ScoreCounter.digits (GameState.score_counter gs2))
       = length (ScoreCounter.digits (GameState.score_counter gs))
    /\ rand_seq w2 = rand_seq w /\ draws w2 = draws w
    /\ Obstacle.top_entity ob2 = Obstacle.top_entity ob
    /\ Obstacle.x ob2 = Obstacle.x ob /\ Obstacle.y ob2 = Obstacle.y ob
    /\ Obstacle.gap_size ob2 = Obstacle.gap_size ob.
Proof.
  intros Hob Hfit.
  assert (Hsame : exists gs2 w2 ob2,
            Ret (gs, w) = Ret (gs2, w2)
            /\ GameState.obstacles gs2 = <[i := ob2]> (GameState.obstacles gs)
            /\ GameState.screen_type gs2 = GameState.screen_type gs
            /\ GameState.bird gs2 = GameState.bird gs
            /\ GameState.press_space_to_start gs2
               = GameState.press_space_to_start gs
            /\ GameState.score gs <= GameState.score gs2 <= GameState.score gs + 1
            /\ length (ScoreCounter.digits (GameState.score_counter gs2))
               = length (ScoreCounter.digits (GameState.score_counter gs))
            /\ rand_seq w2 = rand_seq w /\ draws w2 = draws w
            /\ Obstacle.top_entity ob2 = Obstacle.top_entity ob
            /\ Obstacle.x ob2 = Obstacle.x ob /\ Obstacle.y ob2 = Obstacle.y ob
            /\ Obstacle.gap_size ob2 = Obstacle.gap_size ob).
  { exists gs, w, ob. rewrite (list_insert_id _ _ _ Hob).
    repeat split; auto; lia. }
  destruct (GameState.screen_type gs) eqn:Hscreen; [exact Hsame|].
  unfold bind at 1. rewrite (obstacle_at_some gs i ob w Hob). cbn [res_bind fst snd].
  destruct ((Obstacle.x ob <? Entity.x (Bird.entity (GameState.bird gs)))
            && negb (Obstacle.score_collected ob)); [|exact Hsame].
  clear Hsame. destruct Hfit as [Htitle|(Hs0 & Hs1 & Hlen)]; [congruence|].
  cbv zeta.
  assert (Hadd : CInt.add (GameState.score gs) 1 = GameState.score gs + 1).
  { unfold CInt.add. apply wrap_id. unfold CInt.in_range. lia. }
  rewrite Hadd.
  destruct (update_score_counter_returns
              (GameState.set_score (GameState.score gs + 1) gs)
              ltac:(cbn; lia) ltac:(exact Hlen))
    as (digits' & Hupd & Hlen').
  unfold bind at 1. unfold lift. rewrite Hupd. cbn [res_bind fst snd].
  unfold printf, emit. run_m.
  rewrite (with_obstacle_insert i _ _ ob) by (cbn; exact Hob).
  eexists _, _, _. split; [reflexivity|].
  cbn. rewrite Hlen', Hlen. repeat split; auto; lia.
Qed.

(** One turn of the obstacle loop of [scroll_world]. *)
Lemma scroll_obstacle_run (i : nat) (gs : GameState.t) (w : World)
  (ob : Obstacle.t) (v0 : EntityView.t) :
  GameState.obstacles gs !! i = Some ob ->
  Entity.view_at (Obstacle.top_entity ob) 0 = Ret v0 ->
  score_fits gs 1 ->
  exists gs' w' ob',
    scroll_obstacle i gs w = Ret (gs', w')
    /\ GameState.obstacles gs' = <[i := ob']> (GameState.obstacles gs)
    /\ GameState.screen_type gs' = GameState.screen_type gs
    /\ GameState.bird gs' = GameState.bird gs
    /\ GameState.press_space_to_start gs' = GameState.press_space_to_start gs
    /\ GameState.score gs <= GameState.score gs' <= GameState.score gs + 1
    /\ length (ScoreCounter.digits (GameState.score_counter gs'))
       = length (ScoreCounter.digits (GameState.score_counter gs))
    /\ rand_seq w' = rand_seq w
    /\ Entity.views (Obstacle.top_entity ob') = Entity.views (Obstacle.top_entity ob)
    /\ Obstacle.gap_size ob' = Obstacle.gap_size ob
    /\ parts_placed ob'
    /\ (leaves_screen (moved_left ob) v0 = true ->
        Obstacle.x ob' = SCREEN_WIDTH
        /\ Obstacle.score_collected ob' = false
        /\ exists n, Obstacle.y ob' = center_of (rand_seq w n))
    /\ (leaves_screen (moved_left ob) v0 = false ->
        Obstacle.x ob' = CInt.sub (Obstacle.x ob) 1
        /\ Obstacle.y ob' = Obstacle.y ob).
Proof.
  intros Hob Hv0 Hfit.
  pose proof (lookup_lt_Some _ _ _ Hob) as Hi.
  unfold scroll_obstacle.
  unfold bind at 1. rewrite (obstacle_at_some gs i ob w Hob). cbn [res_bind fst snd].
  cbv zeta. rewrite (with_obstacle_insert i _ gs ob Hob). fold (moved_left ob).
  set (gs1 := GameState.set_obstacles
                (<[i := moved_left ob]> (GameState.obstacles gs)) gs).
  assert (Hob1 : GameState.obstacles gs1 !! i = Some (moved_left ob))
    by (subst gs1; cbn; apply list_lookup_insert_eq; exact Hi).
  destruct (scroll_obstacle_award i gs1 w (moved_left ob) Hob1 Hfit)
    as (gs2 & w2 & ob2 & Hrun2 & Hobs2 & Hscr2 & Hbird2 & Hpress2 & Hscore2
        & Hlen2 & Hrand2 & Hdraws2 & Htop2 & Hx2 & Hy2 & Hgap2).
  unfold bind at 1.
  rewrite Hrun2. cbn [res_bind fst snd].
  change (GameState.screen_type gs1) with (GameState.screen_type gs) in Hscr2.
  change (GameState.bird gs1) with (GameState.bird gs) in Hbird2.
  change (GameState.press_space_to_start gs1)
    with (GameState.press_space_to_start gs) in Hpress2.
  change (GameState.score gs1) with (GameState.score gs) in Hscore2.
  change (GameState.score_counter gs1) with (GameState.score_counter gs) in Hlen2.
  assert (Hob2 : GameState.obstacles gs2 !! i = Some ob2).
  { rewrite Hobs2. apply list_lookup_insert_eq. subst gs1. cbn.
    rewrite length_insert. exact Hi. }
  assert (Hv2 : Entity.view_at (Obstacle.top_entity ob2) 0 = Ret v0).
  { rewrite Htop2. exact Hv0. }
  destruct (scroll_obstacle_recycle i gs2 w2 ob2 v0 Hob2 Hv2)
    as (w' & ob' & Hrun3 & Hrand3 & Hviews3 & Hgap3 & Hplaced & Hyes & Hno).
  rewrite Hrun3.
  eexists _, _, ob'. split; [reflexivity|].
  cbn [GameState.set_obstacles GameState.obstacles GameState.bird
       GameState.entities GameState.press_space_to_start GameState.screen_type
       GameState.title_text GameState.score GameState.score_counter
       GameState.quit].
  split.
  { rewrite Hobs2. subst gs1. cbn. rewrite !list_insert_insert_eq. reflexivity. }
  split; [exact Hscr2|]. split; [exact Hbird2|]. split; [exact Hpress2|].
  split; [exact Hscore2|]. split; [exact Hlen2|].
  split; [congruence|].
  split; [rewrite Hviews3, Htop2; reflexivity|].
  split; [rewrite Hgap3, Hgap2; reflexivity|].
  split; [exact Hplaced|].
  assert (Hleave : leaves_screen ob2 v0 = leaves_screen (moved_left ob) v0)
    by (unfold leaves_screen; rewrite Hx2; reflexivity).
  rewrite <- Hleave. split.
  - intros H. destruct (Hyes H) as (Ex & Es & Ey).
    split; [exact Ex|]. split; [exact Es|].
    exists (draws w2). rewrite Ey, Hrand2. reflexivity.
  - intros H. destruct (Hno H) as (Ex & Ey & _).
    rewrite Ex, Ey, Hx2, Hy2. split; reflexivity.
Qed.

Lemma view_at_views (e1 e2 : Entity.t) (k : Z) :
  Entity.views e1 = Entity.views e2 -> Entity.view_at e1 k = Entity.view_at e2 k.
Proof. intros H. unfold Entity.view_at. rewrite H. reflexivity. Qed.

(** The obstacle loop of [scroll_world], over distinct indices. *)
Lemma scroll_obstacles_run (idxs : list nat) :
  NoDup idxs ->
  forall (gs : GameState.t) (w : World),
    Forall (fun i => (i < length (GameState.obstacles gs))%nat) idxs ->
    Forall (fun ob => has_view0 (Obstacle.top_entity ob)) (GameState.obstacles gs) ->
    score_fits gs (Z.of_nat (length idxs)) ->
    exists gs' w',
      for_each idxs scroll_obstacle gs w = Ret (gs', w')
      /\ GameState.screen_type gs' = GameState.screen_type gs
      /\ GameState.bird gs' = GameState.bird gs
      /\ GameState.press_space_to_start gs' = GameState.press_space_to_start gs
      /\ rand_seq w' = rand_seq w
      /\ length (GameState.obstacles gs') = length (GameState.obstacles gs)
      /\ (forall i, i ∉ idxs ->
            GameState.obstacles gs' !! i = GameState.obstacles gs !! i)
      /\ (forall i ob v0,
            i ∈ idxs ->
            GameState.obstacles gs !! i = Some ob ->
            Entity.view_at (Obstacle.top_entity ob) 0 = Ret v0 ->
            exists ob',
              GameState.obstacles gs' !! i = Some ob' /\ scrolled w ob v0 ob').
Proof.
  induction idxs as [|i idxs IH]; intros Hnd gs w Hidx Hviews Hfit; cbn [for_each].
  - exists gs, w. split; [reflexivity|]. repeat split; auto.
    intros i ob v0 H. inversion H.
  - apply NoDup_cons in Hnd as [Hnotin Hnd].
    apply Forall_cons in Hidx as [Hi Hidx].
    destruct (lookup_lt_is_Some_2 _ _ Hi) as [ob Hob].
    destruct (Forall_lookup_1 _ _ _ _ Hviews Hob) as [v0 Hv0].
    assert (Hfit1 : score_fits gs 1).
    { destruct Hfit as [Ht|(H0 & H1 & H2)]; [left; exact Ht|right].
      cbn [length] in H1. split; [exact H0|]. split; [lia|exact H2]. }
    destruct (scroll_obstacle_run i gs w ob v0 Hob Hv0 Hfit1)
      as (gs1 & w1 & ob1 & Hrun1 & Hobs1 & Hscr1 & Hbird1 & Hpress1 & Hscore1
          & Hlen1 & Hrand1 & Hviews1 & Hgap1 & Hplaced1 & Hyes1 & Hno1).
    unfold bind. rewrite Hrun1. cbn [res_bind fst snd].
    assert (Hidx1 : Forall (fun j => (j < length (GameState.obstacles gs1))%nat) idxs).
    { rewrite Hobs1, length_insert. exact Hidx. }
    assert (Hviews1' : Forall (fun ob => has_view0 (Obstacle.top_entity ob))
                              (GameState.obstacles gs1)).
    { rewrite Hobs1. apply Forall_insert; [exact Hviews|].
      exists v0. rewrite (view_at_views _ _ 0 Hviews1). exact Hv0. }
    assert (Hfit' : score_fits gs1 (Z.of_nat (length idxs))).
    { destruct Hfit as [Ht|(H0 & H1 & H2)]; [left; congruence|right].
      cbn [length] in H1. rewrite Hlen1. split; [lia|]. split; [lia|exact H2]. }
    destruct (IH Hnd gs1 w1 Hidx1 Hviews1' Hfit')
      as (gs' & w' & Hrun & Hscr & Hbird & Hpress & Hrand & Hlen & Hout & Hin).
    exists gs', w'. split; [exact Hrun|].
    split; [congruence|]. split; [congruence|]. split; [congruence|].
    split; [congruence|].
    split; [rewrite Hlen, Hobs1; apply length_insert|].
    split.
    + intros j Hj. apply not_elem_of_cons in Hj as [Hne Hj].
      rewrite (Hout j Hj), Hobs1. apply list_lookup_insert_ne. congruence.
    + intros j obj vj Hj Hobj Hvj.
      destruct (decide (j = i)) as [->|Hne].
      * rewrite Hob in Hobj. injection Hobj as <-.
        rewrite Hv0 in Hvj. injection Hvj as <-.
        exists ob1. split.
        -- rewrite (Hout i Hnotin), Hobs1. apply list_lookup_insert_eq. exact Hi.
        -- unfold scrolled. auto.
      * apply elem_of_cons in Hj as [Heq|Hj]; [contradiction|].
        assert (Hobj1 : GameState.obstacles gs1 !! j = Some obj).
        { rewrite Hobs1, list_lookup_insert_ne by congruence. exact Hobj. }
        destruct (Hin j obj vj Hj Hobj1 Hvj) as (ob' & Hlook & Hg & Hp & Hy & Hn).
        exists ob'. split; [exact Hlook|].
        unfold scrolled. split; [exact Hg|]. split; [exact Hp|]. split; [|exact Hn].
        intros Hl. destruct (Hy Hl) as (Ex & Es & n & Ey).
        split; [exact Ex|]. split; [exact Es|]. exists n. rewrite Ey, Hrand1.
        reflexivity.
Qed.

(** [scroll_world] returns, and has scrolled every obstacle. *)
Lemma scroll_world_run (gs : GameState.t) (w : World) :
  Forall (fun ob => has_view0 (Obstacle.top_entity ob)) (GameState.obstacles gs) ->
  has_view0 (GameState.press_space_to_start gs) ->
  score_fits gs (GameState.obstacle_count gs) ->
  exists gs' w',
    scroll_world gs w = Ret (gs', w')
    /\ GameState.screen_type gs' = GameState.screen_type gs
    /\ forall i ob v0,
        GameState.obstacles gs !! i = Some ob ->
        Entity.view_at (Obstacle.top_entity ob) 0 = Ret v0 ->
        exists ob',
          GameState.obstacles gs' !! i = Some ob' /\ scrolled w ob v0 ob'.
Proof.
  intros Hviews Htext Hfit.
  assert (Hidx : Forall (fun i => (i < length (GameState.obstacles gs))%nat)
                        (seq 0 (length (GameState.obstacles gs)))).
  { apply Forall_forall. intros i Hi. apply elem_of_seq in Hi. lia. }
  destruct (scroll_obstacles_run (seq 0 (length (GameState.obstacles gs)))
              (NoDup_seq _ _) gs w Hidx Hviews
              ltac:(rewrite length_seq; exact Hfit))
    as (gs1 & w1 & Hrun & Hscr & Hbird & Hpress & Hrand & Hlen & Hout & Hin).
  assert (Hall : forall i ob v0,
            GameState.obstacles gs !! i = Some ob ->
            Entity.view_at (Obstacle.top_entity ob) 0 = Ret v0 ->
            exists ob',
              GameState.obstacles gs1 !! i = Some ob' /\ scrolled w ob v0 ob').
  { intros i ob v0 Hob Hv0. apply (Hin i ob v0); [|exact Hob|exact Hv0].
    apply elem_of_seq. pose proof (lookup_lt_Some _ _ _ Hob). lia. }
  unfold scroll_world, bind. rewrite Hrun. cbn [res_bind fst snd].
  destruct (GameState.screen_type gs1) eqn:Hscreen.
  - cbv zeta. rewrite Hpress.
    destruct (Entity.x (Entity.set_x _ (GameState.press_space_to_start gs))
              >? SCREEN_WIDTH).
    + destruct Htext as [v Hv].
      match goal with
      | |- context [Entity.view_at ?e 0] =>
          change (Entity.view_at e 0)
            with (Entity.view_at (GameState.press_space_to_start gs) 0)
      end.
      unfold lift. rewrite Hv. cbn [res_bind fst snd]. unfold ret.
      eexists _, _. split; [reflexivity|]. split; [cbn; congruence|exact Hall].
    + unfold ret. eexists _, _. split; [reflexivity|].
      split; [cbn; congruence|exact Hall].
  - unfold ret. eexists _, _. split; [reflexivity|].
    split; [congruence|exact Hall].
Qed.





(** The sample tick with the bird at [x = 120]: the first obstacle, which
    started at [x = -4] with a top part 3 cells wide, is back at the right
    edge with the centre [41 % 40 + 20] and its point not given; the second
    has moved to 99, behind the bird, and gives the eighth point; the third
    has moved one cell to the left. *)
Example scroll_world_sample :
  option_map
    (fun gs' =>
       (map (fun ob => (Obstacle.x ob, Obstacle.y ob, Obstacle.score_collected ob,
                        Entity.y (Obstacle.top_entity ob),
                        Entity.y (Obstacle.bottom_entity ob)))
            (GameState.obstacles gs'),
        GameState.score gs', shown_digits gs'))
    (ret_value (scroll_world (sample_game GAME_SCREEN (sample_bird 120 40) 7)
                             sample_world))
  = Some ([(300, 21, false, 13, 29); (99, 30, true, 21, 39);
           (199, 50, false, 40, 60)],
          8,
          [(true, 8); (false, 0); (false, 0); (false, 0); (false, 0)]).
Proof. vm_compute. reflexivity. Qed.

(** ** Starting a game *)

Lemma with_obstacle_compose (i : nat) (f g : Obstacle.t -> Obstacle.t)
  (gs : GameState.t) :
  with_obstacle i f (with_obstacle i g gs) = with_obstacle i (f ∘ g) gs.
Proof.
  unfold with_obstacle. cbn [GameState.obstacles GameState.set_obstacles].
  rewrite list_alter_alter_eq. reflexivity.
Qed.

Lemma start_x_value (i : nat) (count : Z) :
  (Z.of_nat i < count <= 25) ->
  CInt.wrap
    (CInt.to_size_t
       (CInt.to_size_t (Z.quot SCREEN_WIDTH 4)
        + CInt.to_size_t (CInt.mul (Z.of_nat i) SCREEN_WIDTH) / count))
  = start_x i count.
Proof.
  intros Hi. unfold start_x, CInt.mul, CInt.to_size_t, SCREEN_WIDTH.
  change (Z.quot 300 4) with 75.
  rewrite (wrap_id (Z.of_nat i * 300)) by (unfold CInt.in_range; lia).
  rewrite (Z.mod_small 75) by lia.
  rewrite (Z.mod_small (Z.of_nat i * 300)) by lia.
  assert (Hq : 0 <= Z.of_nat i * 300 / count < 7500).
  { split; [apply Z.div_pos; lia|].
    apply Z.div_lt_upper_bound; nia. }
  rewrite Z.mod_small by lia.
  apply wrap_id. unfold CInt.in_range. lia.
Qed.


(** One turn of the obstacle loop of [start_game]. *)
Lemma place_obstacle_run (i : nat) (gs : GameState.t) (w : World) :
  (i < length (GameState.obstacles gs) <= 25)%nat ->
  exists w',
    place_obstacle i gs w
    = Ret (with_obstacle i
             (placed (start_x i (GameState.obstacle_count gs))
                     (center_of (rand_seq w (draws w)))) gs, w')
    /\ rand_seq w' = rand_seq w /\ draws w' = S (draws w).
Proof.
  intros Hi. unfold place_obstacle, GameState.obstacle_count.
  destruct (Z.of_nat (length (GameState.obstacles gs)) =? 0) eqn:E;
    [apply Z.eqb_eq in E; lia|].
  rewrite start_x_value by lia.
  unfold random_center, rand. run_m.
  rewrite !with_obstacle_compose.
  eexists. split; [reflexivity|]. split; reflexivity.
Qed.

(** The obstacle loop of [start_game], from obstacle [a] on. *)
Lemma place_obstacles_run (m : nat) :
  forall (a : nat) (gs : GameState.t) (w : World),
    (a + m = length (GameState.obstacles gs))%nat ->
    (length (GameState.obstacles gs) <= 25)%nat ->
    exists gs' w',
      for_each (seq a m) place_obstacle gs w = Ret (gs', w')
      /\ gs' = GameState.set_obstacles (GameState.obstacles gs') gs
      /\ length (GameState.obstacles gs') = length (GameState.obstacles gs)
      /\ (forall i, (i < a)%nat ->
            GameState.obstacles gs' !! i = GameState.obstacles gs !! i)
      /\ (forall i, (a <= i)%nat ->
            GameState.obstacles gs' !! i
            = placed (start_x i (GameState.obstacle_count gs))
                     (center_of (rand_seq w (draws w + (i - a))))
                <$> GameState.obstacles gs !! i).
Proof.
  induction m as [|m IH]; intros a gs w Hlen Hcap; cbn [seq for_each].
  - exists gs, w. split; [reflexivity|]. split; [destruct gs; reflexivity|].
    split; [reflexivity|]. split; [reflexivity|].
    intros i Hi. rewrite (lookup_ge_None_2 (GameState.obstacles gs) i) by lia.
    reflexivity.
  - destruct (place_obstacle_run a gs w ltac:(lia)) as (w1 & Hrun1 & Hrand1 & Hdraws1).
    unfold bind. rewrite Hrun1. cbn [res_bind fst snd].
    set (gs1 := with_obstacle a _ gs).
    assert (Hlen1 : length (GameState.obstacles gs1) = length (GameState.obstacles gs))
      by (subst gs1; cbn; apply length_alter).
    destruct (IH (S a) gs1 w1 ltac:(lia) ltac:(lia))
      as (gs' & w' & Hrun & Hframe & Hlen' & Hlow & Hhigh).
    exists gs', w'. split; [exact Hrun|].
    split; [rewrite Hframe; subst gs1; reflexivity|].
    split; [lia|]. split.
    + intros i Hi. rewrite Hlow by lia. subst gs1. cbn.
      apply list_lookup_alter_ne. lia.
    + intros i Hi. destruct (decide (i = a)) as [->|Hne].
      * rewrite Hlow by lia. subst gs1. cbn.
        rewrite list_lookup_alter_eq, Nat.sub_diag, Nat.add_0_r. reflexivity.
      * rewrite Hhigh by lia. subst gs1. cbn.
        rewrite list_lookup_alter_ne by lia.
        unfold GameState.obstacle_count. cbn. rewrite length_alter.
        rewrite Hrand1, Hdraws1.
        replace (S (draws w) + (i - S a))%nat with (draws w + (i - a))%nat by lia.
        reflexivity.
Qed.

Lemma update_score_counter_zero (gs : GameState.t) :
  GameState.score gs = 0 ->
  update_score_counter gs
  = Ret (GameState.set_score_counter
           (ScoreCounter.set_digits
              (hide_digits_from 0
                 (ScoreCounter.digits (GameState.score_counter gs)))
              (GameState.score_counter gs)) gs).
Proof. intros H. unfold update_score_counter. rewrite H. reflexivity. Qed.


(** ** Ending a game *)

Lemma end_game_run (gs : GameState.t) (w : World) :
  end_game gs w
  = Ret (ended_state gs,
         with_out w (out w ++ [EvPrintf (ESC ++ "]0; NotFlappyBird " ++ BEL) []])).
Proof. reflexivity. Qed.


Lemma ended_state_twice (gs : GameState.t) :
  ended_state (ended_state gs) = ended_state gs.
Proof. reflexivity. Qed.

Lemma hits_obstacle_defined (bird : Entity.t) (ob : Obstacle.t) (b1 b2 : bool) :
  check_collision bird (Obstacle.top_entity ob) = Ret b1 ->
  check_collision bird (Obstacle.bottom_entity ob) = Ret b2 ->
  hits_obstacle bird ob = Ret (b1 || b2).
Proof.
  intros H1 H2. unfold hits_obstacle. rewrite H1. cbn [res_bind].
  destruct b1; [reflexivity|exact H2].
Qed.

(** The collision loop of [game_tick]: the game is ended as soon as an
    obstacle is hit, and stays ended. *)
Lemma collide_obstacles_run (gs : GameState.t) (idxs : list nat) :
  checks_defined gs ->
  Forall (fun i => (i < length (GameState.obstacles gs))%nat) idxs ->
  forall (g : GameState.t) (w : World),
    g = gs \/ g = ended_state gs ->
    exists g' w',
      for_each idxs collide_obstacle g w = Ret (g', w')
      /\ (g' = gs \/ g' = ended_state gs)
      /\ (g = ended_state gs -> g' = ended_state gs)
      /\ (forall i ob b1 b2,
            i ∈ idxs -> GameState.obstacles gs !! i = Some ob ->
            check_collision (bird_entity gs) (Obstacle.top_entity ob) = Ret b1 ->
            check_collision (bird_entity gs) (Obstacle.bottom_entity ob) = Ret b2 ->
            b1 || b2 = true -> g' = ended_state gs)
      /\ (g = gs ->
          (forall i ob, i ∈ idxs -> GameState.obstacles gs !! i = Some ob ->
             hits_obstacle (bird_entity gs) ob = Ret false) ->
          g' = gs /\ w' = w).
Proof.
  intros Hdef. induction idxs as [|i idxs IH]; intros Hidx g w Hg; cbn [for_each].
  - exists g, w. split; [reflexivity|]. split; [exact Hg|]. split; [auto|].
    split; [|auto]. intros i ob b1 b2 H. inversion H.
  - apply Forall_cons in Hidx as [Hi Hidx].
    destruct (lookup_lt_is_Some_2 _ _ Hi) as [ob Hob].
    destruct (Hdef ob (list_elem_of_lookup_2 _ _ _ Hob)) as (b1 & b2 & Hc1 & Hc2).
    pose proof (hits_obstacle_defined _ _ _ _ Hc1 Hc2) as Hhit.
    assert (Hgob : GameState.obstacles g !! i = Some ob
                   /\ bird_entity g = bird_entity gs).
    { destruct Hg as [->| ->]; split; auto. }
    destruct Hgob as [Hgob Hgbird].
    unfold bind at 1. unfold collide_obstacle at 1.
    unfold bind at 1. rewrite (obstacle_at_some g i ob w Hgob). cbn [res_bind fst snd].
    unfold bind at 1. unfold lift. rewrite Hgbird, Hhit. cbn [res_bind fst snd].
    destruct (b1 || b2) eqn:Hb.
    + rewrite end_game_run. cbn [res_bind fst snd].
      assert (Hg' : ended_state g = ended_state gs)
        by (destruct Hg as [->| ->]; reflexivity).
      rewrite Hg'.
      match goal with
      | |- context [for_each idxs collide_obstacle (ended_state gs) ?w1] =>
          destruct (IH Hidx (ended_state gs) w1 (or_intror eq_refl))
            as (g' & w' & Hrun & Hor & Hkeep & _ & _)
      end.
      exists g', w'. split; [exact Hrun|]. split; [exact Hor|].
      specialize (Hkeep eq_refl). split; [auto|]. split; [auto|].
      intros _ Hno. specialize (Hno i ob ltac:(left) Hob). congruence.
    + unfold ret. cbn [res_bind fst snd].
      destruct (IH Hidx g w Hg) as (g' & w' & Hrun & Hor & Hkeep & Hany & Hnone).
      exists g', w'. split; [exact Hrun|]. split; [exact Hor|]. split; [exact Hkeep|].
      split.
      * intros j obj c1 c2 Hj Hobj Hj1 Hj2 Hc.
        apply elem_of_cons in Hj as [->|Hj].
        -- rewrite Hob in Hobj. injection Hobj as <-.
           rewrite Hc1 in Hj1. rewrite Hc2 in Hj2.
           injection Hj1 as <-. injection Hj2 as <-. congruence.
        -- exact (Hany j obj c1 c2 Hj Hobj Hj1 Hj2 Hc).
      * intros Hgs Hno. apply Hnone; [exact Hgs|].
        intros j obj Hj. apply Hno. right. exact Hj.
Qed.


(** ** The game tick *)









(** The samples: the space bar on the title screen puts the three
    obstacles at 75, 175 and 275; a bird that overlaps the top part of the
    second obstacle, or that has left the screen, sends the game back to the
    title screen; a bird clear of the obstacles stays in the game. *)
Example start_game_sample :
  option_map
    (fun gs' =>
       (GameState.screen_type gs', GameState.score gs',
        Entity.x (bird_entity gs'), Entity.y (bird_entity gs'),
        map (fun ob => (Obstacle.x ob, Obstacle.y ob, Obstacle.score_collected ob))
            (GameState.obstacles gs'),
        shown_digits gs'))
    (ret_value (handle_key VK_SPACE
                  (sample_game TITLE_SCREEN (sample_bird 50 30) 3) space_world))
  = Some (GAME_SCREEN, 0, 10, 40,
          [(75, 21, false); (175, 47, false); (275, 34, false)],
          [(false, 0); (false, 0); (false, 0); (false, 0); (false, 0)]).
Proof. vm_compute. reflexivity. Qed.

Example game_checks_sample :
  option_map GameState.screen_type
    (ret_value (game_checks (sample_game GAME_SCREEN (sample_bird 99 20) 3)
                            sample_world)) = Some TITLE_SCREEN
  /\ option_map GameState.screen_type
       (ret_value (game_checks (sample_game GAME_SCREEN (sample_bird 50 20) 3)
                               sample_world)) = Some GAME_SCREEN.
Proof. split; vm_compute; reflexivity. Qed.

(** ** The callbacks of the game keep the clock

    The three callbacks of [main] use the console, [rand] and the keyboard;
    none of them touches the clock, so the timers of [main] meet the
    condition under which a pass has been described. *)

Create HintDb keeps.

Lemma keeps_ret {A} (a : A) : keeps (ret a).
Proof. intros w a' w' H. injection H as _ <-. reflexivity. Qed.

Lemma keeps_bind {A B} (m : M A) (k : A -> M B) :
  keeps m -> (forall a, keeps (k a)) -> keeps (bind m k).
Proof.
  intros Hm Hk w b w' H. unfold bind in H.
  destruct (m w) as [[a w1]| | |] eqn:E; cbn [res_bind fst snd] in H;
    try discriminate.
  rewrite (Hk a w1 b w' H). exact (Hm w a w1 E).
Qed.

Lemma keeps_lift {A} (r : Res A) : keeps (lift r).
Proof.
  intros w a w' H. unfold lift in H. destruct r; cbn in H; try discriminate.
  injection H as _ <-. reflexivity.
Qed.

Lemma keeps_for_each {A S} (l : list A) (body : A -> S -> M S) :
  (forall a s, keeps (body a s)) -> forall s, keeps (for_each l body s).
Proof.
  intros Hbody. induction l as [|a l IH]; intros s; cbn [for_each].
  - apply keeps_ret.
  - apply keeps_bind; [apply Hbody|exact IH].
Qed.

Lemma keeps_printf (fmt : string) (args : list PrintArg) : keeps (printf fmt args).
Proof. intros w a w' H. injection H as _ <-. reflexivity. Qed.

Lemma keeps_rand : keeps rand.
Proof. intros w a w' H. injection H as _ <-. reflexivity. Qed.

Lemma keeps_GetAsyncKeyState (vk : Z) : keeps (GetAsyncKeyState vk).
Proof. intros w a w' H. injection H as _ <-. reflexivity. Qed.

#[local] Hint Resolve keeps_ret keeps_lift keeps_printf keeps_rand
  keeps_GetAsyncKeyState : keeps.

(** Take a computation apart along its binds, loops and branches. *)
Ltac keeps_tac :=
  repeat first
    [ progress cbv zeta
    | solve [auto with keeps]
    | apply keeps_for_each; intros ? ?
    | apply keeps_bind; [|intros ?]
    | match goal with
      | |- keeps (if ?c then _ else _) => destruct c
      | |- keeps (match ?x with _ => _ end) => destruct x
      end ].

Lemma keeps_obstacle_at (gs : GameState.t) (i : nat) : keeps (obstacle_at gs i).
Proof. unfold obstacle_at. keeps_tac. Qed.

Lemma keeps_random_center : keeps random_center.
Proof. unfold random_center. keeps_tac. Qed.

#[local] Hint Resolve keeps_obstacle_at keeps_random_center : keeps.

Lemma keeps_scroll_world (gs : GameState.t) : keeps (scroll_world gs).
Proof. unfold scroll_world, scroll_obstacle. keeps_tac. Qed.

Lemma keeps_animate_bird (gs : GameState.t) : keeps (animate_bird gs).
Proof. unfold animate_bird. keeps_tac. Qed.

Lemma keeps_start_game (gs : GameState.t) : keeps (start_game gs).
Proof. unfold start_game, place_obstacle. keeps_tac. Qed.

Lemma keeps_end_game (gs : GameState.t) : keeps (end_game gs).
Proof. unfold end_game. keeps_tac. Qed.

#[local] Hint Resolve keeps_start_game keeps_end_game : keeps.

Lemma keeps_press_space (gs : GameState.t) : keeps (press_space gs).
Proof. unfold press_space. keeps_tac. Qed.

#[local] Hint Resolve keeps_press_space : keeps.

Lemma keeps_handle_key (i : Z) (gs : GameState.t) : keeps (handle_key i gs).
Proof. unfold handle_key. keeps_tac. Qed.

Lemma keeps_title_autopilot (gs : GameState.t) : keeps (title_autopilot gs).
Proof. unfold title_autopilot. keeps_tac. Qed.

Lemma keeps_collide_obstacle (i : nat) (gs : GameState.t) :
  keeps (collide_obstacle i gs).
Proof. unfold collide_obstacle. keeps_tac. Qed.

#[local] Hint Resolve keeps_handle_key keeps_title_autopilot
  keeps_collide_obstacle : keeps.

Lemma keeps_game_checks (gs : GameState.t) : keeps (game_checks gs).
Proof. unfold game_checks. keeps_tac. Qed.

Lemma keeps_move_bird (gs : GameState.t) : keeps (move_bird gs).
Proof. unfold move_bird. keeps_tac. Qed.

#[local] Hint Resolve keeps_game_checks keeps_move_bird : keeps.

Lemma keeps_game_tick (gs : GameState.t) : keeps (game_tick gs).
Proof. unfold game_tick. keeps_tac. Qed.

Lemma main_timers_keep_clock : Forall keeps_clock main_timers.
Proof.
  repeat constructor; intros g; cbn [PeriodicTimer.callback].
  - apply keeps_scroll_world.
  - apply keeps_animate_bird.
  - apply keeps_game_tick.
Qed.

(** A pass of the timers of [main] over the sample game at time 1000, their
    last trigger times being 0: the three callbacks are called once each, in
    the order of the array. *)
Example run_periodic_timers_main :
  option_map
    (fun st : PassState =>
       (snd st, map PeriodicTimer.last_trigger_time (snd (fst st))))
    (ret_value (run_periodic_timers
                  (sample_game GAME_SCREEN (sample_bird 120 40) 7)
                  main_timers still_world))
  = Some ([0; 1; 2]%nat, [1000; 1000; 1000]).
Proof. vm_compute. reflexivity. Qed.

(** ** Further facts *)

(** The view index invariant alone is not kept by the loader: an entity
    without views whose index is not 0 - which no operation builds -
    satisfies it, and violates it once a view is added. *)
Example add_view_needs_index_zero :
  let e := Entity.set_current_view 5 create_entity in
  view_index_inv e
  /\ exists e' w',
      add_entity_view_from_file e "0.entity" asset_world = Ret (e', w')
      /\ ~ view_index_inv e'.
Proof.
  cbv zeta. split.
  - intros H. exfalso. apply H. reflexivity.
  - rewrite (add_entity_view_from_file_loads _ "0.entity" asset_world
               3 5 0 0 digit_body eq_refl).
    + eexists _, _. split; [reflexivity|].
      unfold view_index_inv. cbn. lia.
    + unfold MAX_VIEWS. cbn. lia.
    + reflexivity.
Qed.

(** [next_entity_view] moves to the next view, and from the last view to
    the first. *)
Lemma next_entity_view_step (e : Entity.t) :
  0 < Entity.num_views e < 2 ^ 32 ->
  0 <= Entity.current_view e < Entity.num_views e ->
  next_entity_view e
  = Ret (Entity.set_current_view
           ((Entity.current_view e + 1) mod Entity.num_views e) e).
Proof.
  intros Hn Hc. unfold next_entity_view.
  destruct (Entity.num_views e =? 0) eqn:E; [apply Z.eqb_eq in E; lia|].
  unfold CInt.urem, CInt.uadd. rewrite uwrap_id by lia. reflexivity.
Qed.

Lemma next_entity_view_times_index (n : nat) :
  forall e : Entity.t,
    0 < Entity.num_views e < 2 ^ 32 ->
    0 <= Entity.current_view e < Entity.num_views e ->
    next_entity_view_times n e
    = Ret (Entity.set_current_view
             ((Entity.current_view e + Z.of_nat n) mod Entity.num_views e) e).
Proof.
  induction n as [|n IH]; intros e Hn Hc; cbn [next_entity_view_times].
  - rewrite Z.add_0_r, Z.mod_small by lia. destruct e; reflexivity.
  - rewrite (next_entity_view_step e Hn Hc). cbn [res_bind].
    rewrite IH.
    + cbn [Entity.set_current_view Entity.current_view Entity.num_views
           Entity.x Entity.y Entity.views Entity.visible].
      rewrite Z.add_mod_idemp_l by lia.
      replace (Entity.current_view e + 1 + Z.of_nat n)
        with (Entity.current_view e + Z.of_nat (S n)) by lia.
      reflexivity.
    + exact Hn.
    + cbn. apply Z.mod_pos_bound. lia.
Qed.

(** X17.  [next_entity_view] cycles: on an entity that shows one of its
    views, as many calls as there are views bring back the entity it
    started from. *)
Lemma next_entity_view_cycle (e : Entity.t) :
  0 < Entity.num_views e < 2 ^ 32 ->
  0 <= Entity.current_view e < Entity.num_views e ->
  next_entity_view_times (Z.to_nat (Entity.num_views e)) e = Ret e.
Proof.
  intros Hn Hc. rewrite next_entity_view_times_index by assumption.
  rewrite Z2Nat.id by lia.
  replace (Entity.current_view e + Entity.num_views e)
    with (Entity.current_view e + 1 * Entity.num_views e) by lia.
  rewrite Z.mod_add, Z.mod_small by lia. destruct e; reflexivity.
Qed.

Lemma next_entity_view_cycle_witness :
  let e := Entity.set_current_view 1 (Entity.set_num_views 3 create_entity) in
  next_entity_view_times 3 e = Ret e.
Proof.
  apply (next_entity_view_cycle
           (Entity.set_current_view 1 (Entity.set_num_views 3 create_entity)));
    cbn; lia.
Defined.

(** X18.  [check_collision] does not depend on the order of its arguments:
    the two calls have the same outcome, defined or not. *)
Lemma check_collision_symmetric (e1 e2 : Entity.t) :
  check_collision e1 e2 = check_collision e2 e1.
Proof.
  unfold check_collision, Entity.view_at.
  destruct ((0 <=? Entity.current_view e1) && (Entity.current_view e1 <? MAX_VIEWS)),
           ((0 <=? Entity.current_view e2) && (Entity.current_view e2 <? MAX_VIEWS));
    try reflexivity;
    destruct (Entity.views e1 !! Z.to_nat (Entity.current_view e1)) as [v1|],
             (Entity.views e2 !! Z.to_nat (Entity.current_view e2)) as [v2|];
    try reflexivity.
  cbn [res_bind]. f_equal. f_equal; apply orb_comm.
Qed.

(** * Further properties of the program *)

(** X1.  For two entities whose boxes have a positive width and height and
    lie within the range of [int], [check_collision] returns true exactly
    when the boxes share a cell and neither their left edges nor their top
    edges coincide. *)
Theorem check_collision_exact (e1 e2 : Entity.t) (v1 v2 : EntityView.t) :
  active_view e1 v1 -> active_view e2 v2 ->
  let b1 := Box.of_entity e1 v1 in
  let b2 := Box.of_entity e2 v2 in
  CInt.in_range (Box.left b1) -> CInt.in_range (Box.left b1 + Box.width b1) ->
  CInt.in_range (Box.top b1) -> CInt.in_range (Box.top b1 + Box.height b1) ->
  CInt.in_range (Box.left b2) -> CInt.in_range (Box.left b2 + Box.width b2) ->
  CInt.in_range (Box.top b2) -> CInt.in_range (Box.top b2 + Box.height b2) ->
  0 < Box.width b1 -> 0 < Box.height b1 ->
  0 < Box.width b2 -> 0 < Box.height b2 ->
  exists b : bool,
    check_collision e1 e2 = Ret b
    /\ (b = true <->
        Box.overlap b1 b2
        /\ Box.left b1 <> Box.left b2 /\ Box.top b1 <> Box.top b2).
Proof.
  intros H1 H2 b1 b2 Rl1 Rr1 Rt1 Rb1 Rl2 Rr2 Rt2 Rb2 Hw1 Hh1 Hw2 Hh2.
  rewrite (check_collision_unfold e1 e2 v1 v2 H1 H2). cbv zeta.
  eexists. split; [reflexivity|].
  rewrite <- overlapb_spec. subst b1 b2.
  unfold Box.overlapb, Box.of_entity in *.
  cbn [Box.left Box.top Box.width Box.height] in *.
  unfold CInt.sub, CInt.add.
  rewrite (wrap_id _ Rl1), (wrap_id _ Rl2), (wrap_id _ Rt1), (wrap_id _ Rt2).
  rewrite (wrap_id _ Rr1), (wrap_id _ Rr2), (wrap_id _ Rb1), (wrap_id _ Rb2).
  rewrite !andb_true_iff, !orb_true_iff, !andb_true_iff, !Z.ltb_lt, !Z.gtb_gt.
  lia.
Qed.

Lemma check_collision_exact_witness :
  exists b : bool,
    check_collision (block 0 0 10 10) (block 5 7 4 6) = Ret b
    /\ (b = true <->
        Box.overlap (Box.mk 0 0 10 10) (Box.mk 5 7 4 6)
        /\ (0 <> 5) /\ (0 <> 7)).
Proof.
  apply (check_collision_exact (block 0 0 10 10) (block 5 7 4 6)
           (EntityView.mk 0 0 10 10 ["#"%char; "000"%char])
           (EntityView.mk 0 0 4 6 ["#"%char; "000"%char]));
    try reflexivity; unfold CInt.in_range; cbn; lia.
Defined.

(** ** The score counter beyond its five digits *)

Lemma score_digits_loop_overflow (n : nat) :
  forall (fuel : nat) (score : Z) (k : nat) (ds : list Entity.t),
    10 ^ Z.of_nat n <= score < 2 ^ 31 -> (n < fuel)%nat -> (k + n = 5)%nat ->
    length ds = 5%nat ->
    score_digits_loop fuel score (Z.of_nat k) ds = Undef.
Proof.
  induction n as [|n IH]; intros fuel score k ds Hs Hfuel Hk Hlen;
    (destruct fuel as [|fuel]; [lia|]).
  - cbn [score_digits_loop]. change (10 ^ Z.of_nat 0) with 1 in Hs.
    replace (score >? 0) with true by (symmetry; rewrite Z.gtb_ltb; apply Z.ltb_lt; lia).
    replace (Z.of_nat k <? SCORE_COUNTER_DIGITS) with false
      by (symmetry; apply Z.ltb_ge; unfold SCORE_COUNTER_DIGITS; lia).
    rewrite andb_false_r. reflexivity.
  - rewrite Nat2Z.inj_succ, Z.pow_succ_r in Hs by lia.
    assert (Hp : 0 < 10 ^ Z.of_nat n) by (apply Z.pow_pos_nonneg; lia).
    cbn [score_digits_loop].
    replace (score >? 0) with true by (symmetry; rewrite Z.gtb_ltb; apply Z.ltb_lt; lia).
    replace ((0 <=? Z.of_nat k) && (Z.of_nat k <? SCORE_COUNTER_DIGITS)) with true.
    2:{ symmetry. unfold SCORE_COUNTER_DIGITS. apply andb_true_intro.
        split; [apply Z.leb_le|apply Z.ltb_lt]; lia. }
    rewrite Nat2Z.id.
    destruct (lookup_lt_is_Some_2 ds k ltac:(lia)) as [d Hd]. rewrite Hd.
    assert (Hq : 10 ^ Z.of_nat n <= score / 10)
      by (apply Z.div_le_lower_bound; lia).
    assert (Hq' : score / 10 <= score)
      by (apply Z.div_le_upper_bound; lia).
    assert (Hdiv : CInt.div score 10 = score / 10).
    { unfold CInt.div. rewrite Z.quot_div_nonneg by lia.
      apply wrap_id. unfold CInt.in_range. lia. }
    assert (Hadd : CInt.add (Z.of_nat k) 1 = Z.of_nat (S k)).
    { unfold CInt.add. rewrite wrap_id; [lia|]. unfold CInt.in_range. lia. }
    rewrite Hdiv, Hadd.
    apply IH; [lia|lia|lia|]. rewrite length_insert. exact Hlen.
Qed.

(** X2.  A score of 100000 or more has more decimal digits than the counter
    has digit entities: [update_score_counter] then stores to [digits[5]],
    outside the array, and has no defined behaviour. *)
Theorem update_score_counter_overflow (gs : GameState.t) :
  10 ^ 5 <= GameState.score gs < 2 ^ 31 ->
  length (ScoreCounter.digits (GameState.score_counter gs)) = 5%nat ->
  update_score_counter gs = Undef.
Proof.
  intros Hs Hlen. unfold update_score_counter.
  change 0 with (Z.of_nat 0) at 1.
  rewrite (score_digits_loop_overflow 5 score_loop_fuel (GameState.score gs) 0);
    [reflexivity|exact Hs| |reflexivity|exact Hlen].
  unfold score_loop_fuel, SCORE_COUNTER_DIGITS. lia.
Qed.

Lemma update_score_counter_overflow_witness :
  update_score_counter (counter_state 123456) = Undef.
Proof.
  apply update_score_counter_overflow; [cbn; lia|reflexivity].
Defined.

(** The digit entities after [update_score_counter], one by one. *)
Lemma update_score_counter_digits (gs : GameState.t) :
  0 <= GameState.score gs < 10 ^ 5 ->
  length (ScoreCounter.digits (GameState.score_counter gs)) = 5%nat ->
  exists digits',
    update_score_counter gs
    = Ret (GameState.set_score_counter
             (ScoreCounter.set_digits digits' (GameState.score_counter gs)) gs)
    /\ length digits' = 5%nat
    /\ forall j : nat,
        digits' !! j
        = (if (j <? num_digits (GameState.score gs))%nat
           then show_digit (digit_of (GameState.score gs) j)
           else Entity.set_visible false)
            <$> ScoreCounter.digits (GameState.score_counter gs) !! j.
Proof.
  intros Hs Hlen.
  destruct (score_digits_loop_run 5 score_loop_fuel (GameState.score gs) 0
              (ScoreCounter.digits (GameState.score_counter gs))
              Hs ltac:(unfold score_loop_fuel, SCORE_COUNTER_DIGITS; lia)
              ltac:(lia) Hlen)
    as (ds & Hrun & Hnd & Hlen' & Hlook).
  exists (hide_digits_from (Z.of_nat (num_digits (GameState.score gs))) ds).
  split; [|split].
  - unfold update_score_counter. change (Z.of_nat 0) with 0 in Hrun.
    rewrite Hrun. reflexivity.
  - rewrite hide_digits_from_length. exact Hlen'.
  - intros j. rewrite hide_digits_from_lookup by exact Hnd.
    rewrite Hlook. cbn [Nat.add Nat.leb andb]. rewrite Nat.sub_0_r.
    set (nd := num_digits (GameState.score gs)) in *.
    destruct (ScoreCounter.digits (GameState.score_counter gs) !! j)
      as [d0|] eqn:Hd0.
    2:{ destruct (nd <=? j)%nat, (j <? 5)%nat, (j <? nd)%nat; reflexivity. }
    pose proof (lookup_lt_Some _ _ _ Hd0) as Hj. rewrite Hlen in Hj.
    replace (j <? 5)%nat with true by (symmetry; apply Nat.ltb_lt; lia).
    destruct (decide (j < nd)%nat) as [Hlt|Hge].
    + replace (j <? nd)%nat with true by (symmetry; apply Nat.ltb_lt; lia).
      replace (nd <=? j)%nat with false by (symmetry; apply Nat.leb_gt; lia).
      reflexivity.
    + replace (j <? nd)%nat with false by (symmetry; apply Nat.ltb_ge; lia).
      replace (nd <=? j)%nat with true by (symmetry; apply Nat.leb_le; lia).
      reflexivity.
Qed.

(** X3.  [update_score_counter] changes nothing but the visibility and the
    shown view of the digit entities, and a second call changes nothing at
    all. *)
Theorem update_score_counter_idempotent (gs : GameState.t) :
  0 <= GameState.score gs < 10 ^ 5 ->
  length (ScoreCounter.digits (GameState.score_counter gs)) = 5%nat ->
  exists gs',
    update_score_counter gs = Ret gs'
    /\ update_score_counter gs' = Ret gs'
    /\ map (fun d => (Entity.x d, Entity.y d, Entity.num_views d, Entity.views d))
           (ScoreCounter.digits (GameState.score_counter gs'))
       = map (fun d => (Entity.x d, Entity.y d, Entity.num_views d, Entity.views d))
             (ScoreCounter.digits (GameState.score_counter gs))
    /\ GameState.set_score_counter (GameState.score_counter gs) gs' = gs.
Proof.
  intros Hs Hlen.
  destruct (update_score_counter_digits gs Hs Hlen) as (ds & Hrun & Hlen' & Hlook).
  eexists. split; [exact Hrun|].
  set (gs' := GameState.set_score_counter _ gs) in *.
  split; [|split].
  - destruct (update_score_counter_digits gs' Hs Hlen') as (ds2 & Hrun2 & Hlen2 & Hlook2).
    assert (Hds : ds2 = ds).
    { apply list_eq. intros j. rewrite Hlook2.
      change (GameState.score gs') with (GameState.score gs).
      change (ScoreCounter.digits (GameState.score_counter gs')) with ds.
      rewrite Hlook.
      destruct (ScoreCounter.digits (GameState.score_counter gs) !! j) as [d|];
        [|reflexivity].
      destruct (j <? num_digits (GameState.score gs))%nat; reflexivity. }
    rewrite Hrun2, Hds. reflexivity.
  - subst gs'. cbn. apply list_eq. intros j.
    rewrite !list_lookup_fmap, Hlook.
    destruct (ScoreCounter.digits (GameState.score_counter gs) !! j) as [d|];
      [|reflexivity].
    destruct (j <? num_digits (GameState.score gs))%nat; reflexivity.
  - subst gs'. destruct gs. reflexivity.
Qed.

Lemma update_score_counter_idempotent_witness :
  exists gs',
    update_score_counter (counter_state 907) = Ret gs'
    /\ update_score_counter gs' = Ret gs'
    /\ map (fun d => (Entity.x d, Entity.y d, Entity.num_views d, Entity.views d))
           (ScoreCounter.digits (GameState.score_counter gs'))
       = map (fun d => (Entity.x d, Entity.y d, Entity.num_views d, Entity.views d))
             (ScoreCounter.digits (GameState.score_counter (counter_state 907)))
    /\ GameState.set_score_counter (GameState.score_counter (counter_state 907)) gs'
       = counter_state 907.
Proof.
  apply (update_score_counter_idempotent (counter_state 907));
    [cbn; lia|reflexivity].
Defined.

(** ** What the renderer draws *)

Lemma split_lines_cons (chars : list ascii) :
  exists l ls, split_lines chars = l :: ls.
Proof.
  destruct chars as [|c rest]; cbn [split_lines]; [eauto|].
  destruct (is_newline c); [eauto|].
  destruct (split_lines rest); eauto.
Qed.

Lemma glyph_at_cons (l : list ascii) (ls : list (list ascii)) (sx sy X Y : Z) :
  glyph_at (l :: ls) sx sy X Y
  = if Y =? sy then glyph_at [l] sx sy X Y else glyph_at ls sx (sy + 1) X Y.
Proof.
  unfold glyph_at.
  destruct (Y =? sy) eqn:E.
  - apply Z.eqb_eq in E. subst Y. rewrite Z.sub_diag. reflexivity.
  - apply Z.eqb_neq in E.
    destruct (sy <=? Y) eqn:E1; cbn [andb].
    + apply Z.leb_le in E1.
      replace (sy + 1 <=? Y) with true by (symmetry; apply Z.leb_le; lia).
      cbn [andb]. destruct (sx <=? X); [|reflexivity].
      replace (Z.to_nat (Y - sy)) with (S (Z.to_nat (Y - (sy + 1)))) by lia.
      reflexivity.
    + apply Z.leb_gt in E1.
      replace (sy + 1 <=? Y) with false by (symmetry; apply Z.leb_gt; lia).
      reflexivity.
Qed.

Lemma glyph_from_start (lines : list (list ascii)) (sx sy X Y : Z) :
  glyph_from lines sx sx sy X Y = glyph_at lines sx sy X Y.
Proof.
  destruct lines as [|l ls]; cbn [glyph_from].
  - unfold glyph_at. destruct ((sy <=? Y) && (sx <=? X)); [|reflexivity].
    rewrite lookup_nil. reflexivity.
  - symmetry. apply glyph_at_cons.
Qed.

Lemma glyph_at_above (lines : list (list ascii)) (sx sy X Y : Z) :
  Y < sy -> glyph_at lines sx sy X Y = None.
Proof.
  intros H. unfold glyph_at.
  replace (sy <=? Y) with false by (symmetry; apply Z.leb_gt; lia). reflexivity.
Qed.

Lemma glyph_at_line (l : list ascii) (cx cy X : Z) :
  glyph_at [l] cx cy X cy = if cx <=? X then l !! Z.to_nat (X - cx) else None.
Proof.
  unfold glyph_at. rewrite Z.leb_refl, Z.sub_diag. cbn [andb].
  destruct (cx <=? X); reflexivity.
Qed.

(** The loop of [render_entity], cell by cell. *)
Lemma render_chars_spec (sx : Z) (chars : list ascii) :
  forall (cx cy : Z) (f : Frame),
    frame_ok f ->
    - 2 ^ 31 <= sx -> sx + Z.of_nat (length chars) < 2 ^ 31 ->
    - 2 ^ 31 <= cx -> cx + Z.of_nat (length chars) < 2 ^ 31 ->
    - 2 ^ 31 <= cy -> cy + Z.of_nat (length chars) < 2 ^ 31 ->
    forall X Y : nat,
      (X < Z.to_nat SCREEN_WIDTH)%nat -> (Y < Z.to_nat SCREEN_HEIGHT)%nat ->
      frame_get (render_chars sx chars cx cy f) X Y
      = default (frame_get f X Y)
                (glyph_from (split_lines chars) cx sx cy (Z.of_nat X) (Z.of_nat Y)).
Proof.
  induction chars as [|c rest IH]; intros cx cy f Hf Hsx1 Hsx2 Hcx1 Hcx2 Hcy1 Hcy2 X Y HX HY.
  - cbn [render_chars split_lines glyph_from].
    destruct (Z.of_nat Y =? cy) eqn:E.
    + apply Z.eqb_eq in E. rewrite E, glyph_at_line.
      destruct (cx <=? Z.of_nat X); rewrite ?lookup_nil; reflexivity.
    + unfold glyph_at. destruct ((cy + 1 <=? Z.of_nat Y) && (sx <=? Z.of_nat X));
        rewrite ?lookup_nil; reflexivity.
  - cbn [length] in Hsx2, Hcx2, Hcy2. cbn [render_chars split_lines].
    destruct (split_lines_cons rest) as (l0 & ls & Hsplit).
    destruct (is_newline c) eqn:Enl.
    + assert (Hadd : CInt.add cy 1 = cy + 1).
      { unfold CInt.add. apply wrap_id. unfold CInt.in_range. lia. }
      rewrite Hadd, IH; try assumption; try lia.
      rewrite glyph_from_start. cbn [glyph_from].
      destruct (Z.of_nat Y =? cy) eqn:E.
      * apply Z.eqb_eq in E. rewrite E, glyph_at_line.
        rewrite glyph_at_above by lia.
        destruct (cx <=? Z.of_nat X); rewrite ?lookup_nil; reflexivity.
      * reflexivity.
    + assert (Hadd : CInt.add cx 1 = cx + 1).
      { unfold CInt.add. apply wrap_id. unfold CInt.in_range. lia. }
      rewrite Hadd, Hsplit.
      set (f' := if (cx >=? 0) && (cx <? SCREEN_WIDTH) && (cy >=? 0)
                    && (cy <? SCREEN_HEIGHT)
                 then frame_set f (Z.to_nat cx) (Z.to_nat cy) c else f).
      assert (Hf' : frame_ok f').
      { subst f'. destruct (_ && _); [apply frame_set_dims|]; exact Hf. }
      rewrite IH; try assumption; try lia.
      rewrite Hsplit. cbn [glyph_from].
      assert (Hother : (Z.of_nat X, Z.of_nat Y) <> (cx, cy) ->
                       frame_get f' X Y = frame_get f X Y).
      { intros Hne. subst f'.
        destruct ((cx >=? 0) && (cx <? SCREEN_WIDTH) && (cy >=? 0)
                  && (cy <? SCREEN_HEIGHT)) eqn:Ec; [|reflexivity].
        apply frame_get_set_ne. intros Heq. apply Hne.
        injection Heq as <- <-.
        rewrite !andb_true_iff in Ec. destruct Ec as [[[E1 _] E2] _].
        apply Z.geb_le in E1. apply Z.geb_le in E2.
        rewrite !Z2Nat.id by lia. reflexivity. }
      destruct (Z.of_nat Y =? cy) eqn:E.
      * apply Z.eqb_eq in E. rewrite E, !glyph_at_line.
        destruct (Z.compare_spec (Z.of_nat X) cx) as [Heq|Hlt|Hgt].
        -- replace (cx + 1 <=? Z.of_nat X) with false
             by (symmetry; apply Z.leb_gt; lia).
           replace (cx <=? Z.of_nat X) with true
             by (symmetry; apply Z.leb_le; lia).
           rewrite Heq, Z.sub_diag. cbn.
           subst f'. rewrite <- Heq, <- E.
           replace ((Z.of_nat X >=? 0) && (Z.of_nat X <? SCREEN_WIDTH)
                    && (Z.of_nat Y >=? 0) && (Z.of_nat Y <? SCREEN_HEIGHT))
             with true.
           2:{ symmetry. rewrite !andb_true_iff.
               repeat split; (apply Z.geb_le || apply Z.ltb_lt); lia. }
           rewrite !Nat2Z.id.
           apply (frame_get_set_eq _ _ f X Y c Hf HX HY).
        -- replace (cx + 1 <=? Z.of_nat X) with false
             by (symmetry; apply Z.leb_gt; lia).
           replace (cx <=? Z.of_nat X) with false
             by (symmetry; apply Z.leb_gt; lia).
           cbn. apply Hother. intros Heq. injection Heq as ? ?. lia.
        -- replace (cx + 1 <=? Z.of_nat X) with true
             by (symmetry; apply Z.leb_le; lia).
           replace (cx <=? Z.of_nat X) with true
             by (symmetry; apply Z.leb_le; lia).
           replace (Z.to_nat (Z.of_nat X - cx))
             with (S (Z.to_nat (Z.of_nat X - (cx + 1)))) by lia.
           cbn [lookup list_lookup].
           destruct (l0 !! Z.to_nat (Z.of_nat X - (cx + 1))); cbn; [reflexivity|].
           apply Hother. intros Heq. injection Heq as ? ?. lia.
      * apply Z.eqb_neq in E.
        destruct (glyph_at ls sx (cy + 1) (Z.of_nat X) (Z.of_nat Y)); cbn;
          [reflexivity|].
        apply Hother. intros Heq. injection Heq as ? ?. lia.
Qed.

(** What [render_entity] draws. *)
Lemma render_entity_run (e : Entity.t) (f : Frame) :
  frame_ok f ->
  drawable e ->
  exists f',
    render_entity e f = Ret f'
    /\ frame_ok f'
    /\ forall X Y : nat,
        (X < Z.to_nat SCREEN_WIDTH)%nat -> (Y < Z.to_nat SCREEN_HEIGHT)%nat ->
        frame_get f' X Y
        = default (frame_get f X Y) (entity_glyph e (Z.of_nat X) (Z.of_nat Y)).
Proof.
  intros Hf Hd. unfold render_entity, entity_glyph.
  destruct (Entity.visible e) eqn:Hvis; cbn [negb].
  2:{ exists f. split; [reflexivity|]. split; [exact Hf|]. reflexivity. }
  destruct Hd as [Hd|(v & Hv & Hne & Hx1 & Hx2 & Hy1 & Hy2)]; [congruence|].
  unfold active_view in Hv. rewrite Hv. cbn [res_bind].
  unfold EntityView.display_size in Hx2, Hy2.
  destruct (EntityView.display v) as [|c0 d] eqn:Hdisp; [contradiction|].
  cbn [length] in Hx2, Hy2.
  assert (Hsx : CInt.sub (Entity.x e) (EntityView.origin_x v)
                = Entity.x e - EntityView.origin_x v).
  { unfold CInt.sub. apply wrap_id. unfold CInt.in_range. lia. }
  assert (Hsy : CInt.sub (Entity.y e) (EntityView.origin_y v)
                = Entity.y e - EntityView.origin_y v).
  { unfold CInt.sub. apply wrap_id. unfold CInt.in_range. lia. }
  rewrite Hsx, Hsy. eexists. split; [reflexivity|].
  split; [apply render_chars_dims; exact Hf|].
  intros X Y HX HY. unfold drawn_chars. rewrite Hdisp.
  assert (Hlen : length (take (length (c0 :: d) - 1) (c0 :: d)) = length d).
  { rewrite length_take. cbn [length]. lia. }
  rewrite render_chars_spec; try assumption; try (rewrite Hlen; lia).
  rewrite glyph_from_start. reflexivity.
Qed.

(** X4.  [render_entity] leaves the frame as it is for a hidden entity.  For
    a visible one it draws the text of the shown view line by line from the
    cell [(x - origin_x, y - origin_y)]: each cell of the screen that the
    text reaches takes the character of the text, blanks included, and
    every other cell keeps its character; what falls outside the screen is
    dropped. *)
Theorem render_entity_draws (e : Entity.t) (f : Frame) :
  frame_ok f ->
  drawable e ->
  exists f',
    render_entity e f = Ret f'
    /\ frame_ok f'
    /\ forall X Y : nat,
        (X < Z.to_nat SCREEN_WIDTH)%nat -> (Y < Z.to_nat SCREEN_HEIGHT)%nat ->
        frame_get f' X Y
        = default (frame_get f X Y) (entity_glyph e (Z.of_nat X) (Z.of_nat Y)).
Proof. exact (render_entity_run e f). Qed.

Lemma render_entity_draws_witness :
  exists f',
    render_entity clipped_block blank_frame = Ret f'
    /\ frame_ok f'
    /\ forall X Y : nat,
        (X < Z.to_nat SCREEN_WIDTH)%nat -> (Y < Z.to_nat SCREEN_HEIGHT)%nat ->
        frame_get f' X Y
        = default (frame_get blank_frame X Y)
                  (entity_glyph clipped_block (Z.of_nat X) (Z.of_nat Y)).
Proof.
  apply (render_entity_draws clipped_block blank_frame blank_frame_ok).
  right. eexists. split; [reflexivity|].
  cbn. repeat split; try lia. discriminate.
Defined.

(** Of the block ["ab"; "cd"] at column -1, the right column alone is
    drawn, in column 0. *)
Example render_entity_clipped :
  option_map (fun f' => (frame_get f' 0 3, frame_get f' 0 4,
                         frame_get f' 1 3, frame_get f' 0 5))
             (match render_entity clipped_block blank_frame with
              | Ret f' => Some f'
              | _ => None
              end)
  = Some ("b", "d", " ", " ")%char.
Proof. vm_compute. reflexivity. Qed.

Lemma frame_get_blank (X Y : nat) : frame_get blank_frame X Y = " "%char.
Proof.
  unfold frame_get, blank_frame.
  destruct (replicate _ _ !! X) as [col|] eqn:E; [|reflexivity].
  apply lookup_replicate in E as [-> _].
  destruct (replicate _ _ !! Y) as [c|] eqn:E2; [|reflexivity].
  apply lookup_replicate in E2 as [-> _]. reflexivity.
Qed.

Lemma draw_rows_inside (hm : nat) (c : ascii) (xs : list nat) :
  forall (f : Frame) (X Y : nat),
    Y <> 0%nat -> Y <> hm ->
    frame_get (fold_left (fun f x => let f := frame_set f x 0 c in
                                     frame_set f x hm c) xs f) X Y
    = frame_get f X Y.
Proof.
  induction xs as [|x xs IH]; intros f X Y H0 Hm; cbn [fold_left]; [reflexivity|].
  rewrite IH by assumption. cbv zeta.
  rewrite !frame_get_set_ne; [reflexivity| |]; intros Heq; injection Heq; lia.
Qed.

Lemma draw_columns_inside (wm : nat) (c : ascii) (ys : list nat) :
  forall (f : Frame) (X Y : nat),
    X <> 0%nat -> X <> wm ->
    frame_get (fold_left (fun f y => let f := frame_set f 0 y c in
                                     frame_set f wm y c) ys f) X Y
    = frame_get f X Y.
Proof.
  induction ys as [|y ys IH]; intros f X Y H0 Hm; cbn [fold_left]; [reflexivity|].
  rewrite IH by assumption. cbv zeta.
  rewrite !frame_get_set_ne; [reflexivity| |]; intros Heq; injection Heq; lia.
Qed.

Lemma draw_border_inside (f : Frame) (X Y : nat) :
  (0 < X < Z.to_nat (SCREEN_WIDTH - 1))%nat ->
  (0 < Y < Z.to_nat (SCREEN_HEIGHT - 1))%nat ->
  frame_get (draw_border f) X Y = frame_get f X Y.
Proof.
  intros HX HY. unfold draw_border.
  rewrite draw_columns_inside by lia. apply draw_rows_inside; lia.
Qed.

(** The entity loop of [render_next_frame]. *)
Lemma render_entities_paint (gs : GameState.t) (ps : list EntityRef)
  (es : list Entity.t) :
  Forall2 (fun p e => GameState.deref gs p = Ret e) ps es ->
  Forall drawable es ->
  forall f : Frame,
    frame_ok f ->
    exists f',
      res_for_each ps
        (fun p frame => res_bind (GameState.deref gs p)
                          (fun entity => render_entity entity frame)) f
      = Ret f'
      /\ frame_ok f'
      /\ forall X Y : nat,
          (X < Z.to_nat SCREEN_WIDTH)%nat -> (Y < Z.to_nat SCREEN_HEIGHT)%nat ->
          frame_get f' X Y
          = fold_left (fun c e => default c (entity_glyph e (Z.of_nat X) (Z.of_nat Y)))
                      es (frame_get f X Y).
Proof.
  induction 1 as [|p e ps es Hp Hps IH]; intros Hd f Hf.
  - exists f. split; [reflexivity|]. split; [exact Hf|]. reflexivity.
  - apply Forall_cons in Hd as [Hde Hd].
    destruct (render_entity_run e f Hf Hde) as (f1 & Hr1 & Hf1 & Hc1).
    destruct (IH Hd f1 Hf1) as (f' & Hr & Hf' & Hc).
    exists f'. cbn [res_for_each]. rewrite Hp. cbn [res_bind].
    rewrite Hr1. cbn [res_bind]. split; [exact Hr|]. split; [exact Hf'|].
    intros X Y HX HY. rewrite Hc by assumption. cbn [fold_left].
    rewrite Hc1 by assumption. reflexivity.
Qed.

(** X5.  [render_next_frame] draws the registered entities in the order of
    their registration on a blank frame, and the border last: inside the
    border, a cell shows the character of the last registered entity that
    puts one there, and a blank if there is none. *)
Theorem render_next_frame_paints (ds : DisplayState.t) (gs : GameState.t)
  (es : list Entity.t) :
  Forall2 (fun p e => GameState.deref gs p = Ret e) (GameState.entities gs) es ->
  Forall drawable es ->
  exists ds',
    render_next_frame ds gs = Ret ds'
    /\ forall X Y : nat,
        (0 < X < Z.to_nat (SCREEN_WIDTH - 1))%nat ->
        (0 < Y < Z.to_nat (SCREEN_HEIGHT - 1))%nat ->
        frame_get (DisplayState.next_frame ds') X Y
        = paint es (Z.of_nat X) (Z.of_nat Y).
Proof.
  intros Hes Hd.
  destruct (render_entities_paint gs _ es Hes Hd blank_frame blank_frame_ok)
    as (f' & Hr & Hf' & Hc).
  unfold render_next_frame. rewrite Hr. cbn [res_bind].
  eexists. split; [reflexivity|].
  intros X Y HX HY. cbn [DisplayState.next_frame DisplayState.set_next_frame].
  rewrite draw_border_inside by assumption.
  rewrite Hc by (unfold SCREEN_WIDTH, SCREEN_HEIGHT in *; lia).
  rewrite frame_get_blank. reflexivity.
Qed.

Lemma render_next_frame_paints_witness :
  exists ds',
    render_next_frame sample_display corner_state = Ret ds'
    /\ forall X Y : nat,
        (0 < X < Z.to_nat (SCREEN_WIDTH - 1))%nat ->
        (0 < Y < Z.to_nat (SCREEN_HEIGHT - 1))%nat ->
        frame_get (DisplayState.next_frame ds') X Y
        = paint [block 5 0 1 1; block 0 0 1 1] (Z.of_nat X) (Z.of_nat Y).
Proof.
  apply (render_next_frame_paints sample_display corner_state).
  - repeat constructor.
  - constructor; [|constructor; [|constructor]];
      right; eexists; (split; [reflexivity|]);
      cbn; repeat split; try lia; discriminate.
Defined.

(** ** Showing the same frame again *)

(** [update_display] as a whole. *)
Lemma update_display_run (cur nxt : Frame) (t : Z) (w : World) :
  frame_ok cur -> frame_ok nxt ->
  update_display (DisplayState.mk cur nxt t) w
  = Ret (DisplayState.mk nxt nxt (clock w (ticks w)),
         mkWorld (clock w) (S (ticks w)) (rand_seq w) (draws w) (key_state w)
                 (polls w) (files w)
                 (out w ++ flat_map (positioned_write nxt) (changed_cells cur nxt))).
Proof.
  intros Hcur Hnxt.
  pose proof (update_cells_run (Z.to_nat SCREEN_WIDTH) (Z.to_nat SCREEN_HEIGHT)
                nxt screen_cells) as Hrun.
  destruct (Hrun (grid_cells_NoDup _ _)
                 ltac:(apply Forall_forall; intros [x y] Hc;
                       apply grid_cells_in in Hc; exact Hc)
                 cur t w Hcur)
    as (cur' & Hfor & Hdims & Hin & _).
  assert (Heq : cur' = nxt).
  { apply (frame_ext (Z.to_nat SCREEN_WIDTH) (Z.to_nat SCREEN_HEIGHT));
      [exact Hdims|exact Hnxt|].
    intros x y Hx Hy. apply Hin. apply grid_cells_in. split; assumption. }
  subst cur'.
  unfold update_display, bind. rewrite update_display_loops, Hfor.
  cbn [res_bind fst snd]. unfold millis, ret. cbn [res_bind fst snd].
  reflexivity.
Qed.

Lemma changed_cells_same (f : Frame) : changed_cells f f = [].
Proof.
  unfold changed_cells. induction screen_cells as [|c cs IH]; [reflexivity|].
  cbn [List.filter]. unfold differs at 1. rewrite Ascii.eqb_refl. exact IH.
Qed.

(** X6.  Once [update_display] has shown a frame, showing the same frame
    again moves no cursor and prints nothing: the console is written only
    where the picture changes. *)
Theorem update_display_again (ds : DisplayState.t) (w : World) :
  frame_ok (DisplayState.current_frame ds) ->
  frame_ok (DisplayState.next_frame ds) ->
  exists ds1 w1 ds2 w2,
    update_display ds w = Ret (ds1, w1)
    /\ update_display ds1 w1 = Ret (ds2, w2)
    /\ out w2 = out w1
    /\ DisplayState.current_frame ds2 = DisplayState.next_frame ds
    /\ DisplayState.next_frame ds2 = DisplayState.next_frame ds.
Proof.
  destruct ds as [cur nxt t].
  cbn [DisplayState.current_frame DisplayState.next_frame].
  intros Hcur Hnxt.
  eexists _, _, _, _.
  split; [apply update_display_run; assumption|].
  split; [apply update_display_run; assumption|].
  cbn [out DisplayState.current_frame DisplayState.next_frame].
  rewrite changed_cells_same. cbn [flat_map]. rewrite app_nil_r. auto.
Qed.

Lemma update_display_again_witness :
  exists ds1 w1 ds2 w2,
    update_display sample_display sample_world = Ret (ds1, w1)
    /\ update_display ds1 w1 = Ret (ds2, w2)
    /\ out w2 = out w1
    /\ DisplayState.current_frame ds2 = DisplayState.next_frame sample_display
    /\ DisplayState.next_frame ds2 = DisplayState.next_frame sample_display.
Proof.
  apply (update_display_again sample_display sample_world).
  - exact blank_frame_ok.
  - do 2 apply frame_set_dims. exact blank_frame_ok.
Defined.

(** ** Loading a view and reading it back *)

(** The buffer that the reading loop builds: the characters of the file up
    to the first one that is 0 or 255, followed by a 0. *)
Lemma read_display_spec (body : list ascii) :
  exists text,
    read_display body = text ++ ["000"%char]
    /\ Forall (fun c => c <> "000"%char /\ c <> "255"%char) text
    /\ (body = text
        \/ exists c rest,
            body = text ++ c :: rest /\ (c = "000"%char \/ c = "255"%char)).
Proof.
  induction body as [|c rest (text & Hr & Hclean & Hbody)]; cbn [read_display].
  - exists []. split; [reflexivity|]. split; [constructor|]. left. reflexivity.
  - destruct (Ascii.eqb c "000") eqn:E0; cbn [orb].
    { apply Ascii.eqb_eq in E0. exists []. split; [reflexivity|].
      split; [constructor|]. right. exists c, rest. auto. }
    destruct (Ascii.eqb c "255") eqn:E1.
    { apply Ascii.eqb_eq in E1. exists []. split; [reflexivity|].
      split; [constructor|]. right. exists c, rest. auto. }
    apply Ascii.eqb_neq in E0. apply Ascii.eqb_neq in E1.
    exists (c :: text). split; [rewrite Hr; reflexivity|].
    split; [constructor; auto|].
    destruct Hbody as [->|(c' & rest' & -> & Hc')]; [left; reflexivity|].
    right. exists c', rest'. auto.
Qed.




(** ** Well-formed game states *)

Lemma post_ret {A} (a : A) (Q : A -> Prop) : Q a -> post (ret a) Q.
Proof. intros H w a' w' Hr. injection Hr as <- _. exact H. Qed.

Lemma post_bind {A B} (P : A -> Prop) (m : M A) (k : A -> M B)
  (Q : B -> Prop) :
  post m P -> (forall a, P a -> post (k a) Q) -> post (bind m k) Q.
Proof.
  intros Hm Hk w b w' Hr. unfold bind in Hr.
  destruct (m w) as [[a w1]| | |] eqn:E; try discriminate.
  cbn [res_bind fst snd] in Hr. exact (Hk a (Hm _ _ _ E) _ _ _ Hr).
Qed.

Lemma post_bind_any {A B} (m : M A) (k : A -> M B) (Q : B -> Prop) :
  (forall a, post (k a) Q) -> post (bind m k) Q.
Proof.
  intros Hk. apply (post_bind (fun _ => True)); [intros ? ? ? ?; exact I|].
  intros a _. apply Hk.
Qed.

Lemma post_lift {A} (r : Res A) (Q : A -> Prop) :
  (forall a, r = Ret a -> Q a) -> post (lift r) Q.
Proof.
  intros H w a w' Hr. unfold lift in Hr.
  destruct r as [a0| | |]; try discriminate.
  cbn [res_bind] in Hr. injection Hr as <- _. apply H. reflexivity.
Qed.

Lemma post_for_each {A S} (I : S -> Prop) (l : list A)
  (body : A -> S -> M S) :
  (forall a s, I s -> post (body a s) I) ->
  forall s, I s -> post (for_each l body s) I.
Proof.
  intros Hbody. induction l as [|a l IH]; intros s Hs; cbn [for_each].
  - apply post_ret. exact Hs.
  - apply (post_bind I); [apply Hbody; exact Hs|]. exact IH.
Qed.

(** *** Entities *)

Lemma shown_set_x (v : Z) (e : Entity.t) : shown e -> shown (Entity.set_x v e).
Proof. intros H. exact H. Qed.

Lemma shown_set_y (v : Z) (e : Entity.t) : shown e -> shown (Entity.set_y v e).
Proof. intros H. exact H. Qed.

Lemma shown_set_visible (v : bool) (e : Entity.t) :
  shown e -> shown (Entity.set_visible v e).
Proof. intros H. exact H. Qed.

Lemma shown_set_current_view (v : Z) (e : Entity.t) :
  0 <= v < Entity.num_views e -> shown e -> shown (Entity.set_current_view v e).
Proof. intros Hv [Hl _]. split; [exact Hl|exact Hv]. Qed.

Lemma ent_rel_refl (e : Entity.t) : ent_rel e e.
Proof. intros H. auto. Qed.

Lemma ent_rel_set_x (v : Z) (e e1 : Entity.t) :
  ent_rel e e1 -> ent_rel e (Entity.set_x v e1).
Proof. intros H Hs. destruct (H Hs) as [H1 H2]. split; [exact H1|exact H2]. Qed.

Lemma ent_rel_set_y (v : Z) (e e1 : Entity.t) :
  ent_rel e e1 -> ent_rel e (Entity.set_y v e1).
Proof. intros H Hs. destruct (H Hs) as [H1 H2]. split; [exact H1|exact H2]. Qed.

Lemma ent_rel_set_visible (v : bool) (e e1 : Entity.t) :
  ent_rel e e1 -> ent_rel e (Entity.set_visible v e1).
Proof. intros H Hs. destruct (H Hs) as [H1 H2]. split; [exact H1|exact H2]. Qed.

Lemma ent_rel_next (e e' : Entity.t) :
  next_entity_view e = Ret e' -> ent_rel e e'.
Proof.
  intros Hn Hs. unfold next_entity_view in Hn.
  destruct (Entity.num_views e =? 0); [discriminate|].
  injection Hn as <-. destruct Hs as [Hl Hc]. split; [|reflexivity].
  split; [exact Hl|]. cbn [Entity.current_view Entity.set_current_view Entity.num_views].
  unfold CInt.urem. apply Z.mod_pos_bound. lia.
Qed.

Lemma shown_view_at (e : Entity.t) :
  shown e ->
  exists v, Entity.view_at e (Entity.current_view e) = Ret v /\ loaded_view v.
Proof.
  intros [(Hlen & _ & Hn & Hviews) Hc]. unfold Entity.view_at.
  replace ((0 <=? Entity.current_view e) && (Entity.current_view e <? MAX_VIEWS))
    with true
    by (symmetry; apply andb_true_intro;
        split; [apply Z.leb_le|apply Z.ltb_lt]; lia).
  destruct (lookup_lt_is_Some_2 (Entity.views e) (Z.to_nat (Entity.current_view e))
              ltac:(unfold MAX_VIEWS in *; lia)) as [v Hv].
  rewrite Hv. exists v. split; [reflexivity|].
  apply (Hviews (Z.to_nat (Entity.current_view e)) v); [lia|exact Hv].
Qed.

Lemma shown_view0 (e : Entity.t) : shown e -> has_view0 e.
Proof.
  intros [(Hlen & _ & Hn & _) Hc]. unfold has_view0, Entity.view_at.
  cbn [Z.leb Z.ltb Z.compare andb Z.to_nat]. unfold MAX_VIEWS in *.
  destruct (lookup_lt_is_Some_2 (Entity.views e) 0 ltac:(lia)) as [v Hv].
  exists v. change (Z.to_nat 0) with 0%nat. rewrite Hv. reflexivity.
Qed.

Lemma shown_renderable (e : Entity.t) : shown e -> renderable e.
Proof.
  intros Hs. right. destruct (shown_view_at e Hs) as (v & Hv & text & Ht & _).
  exists v. split; [exact Hv|]. rewrite Ht. destruct text; discriminate.
Qed.

(** *** Obstacles *)

Lemma ob_rel_set_x (v : Z) (ob : Obstacle.t) : ob_rel ob (Obstacle.set_x v ob).
Proof. intros H. auto. Qed.

Lemma ob_rel_set_y (v : Z) (ob : Obstacle.t) : ob_rel ob (Obstacle.set_y v ob).
Proof. intros H. auto. Qed.

Lemma ob_rel_set_score_collected (v : bool) (ob : Obstacle.t) :
  ob_rel ob (Obstacle.set_score_collected v ob).
Proof. intros H. auto. Qed.

Lemma ob_rel_update_obstacle (ob : Obstacle.t) : ob_rel ob (update_obstacle ob).
Proof.
  intros [H1 H2]. split; [split; [exact H1|exact H2]|]. repeat split.
Qed.

(** *** Updates of the game state *)

Lemma stable_set_screen_type a (s : ScreenType) (gs : GameState.t) :
  stable a gs -> stable a (GameState.set_screen_type s gs).
Proof. intros H. exact H. Qed.

Lemma stable_set_score a (v : Z) (gs : GameState.t) :
  stable a gs -> stable a (GameState.set_score v gs).
Proof. intros H. exact H. Qed.

Lemma stable_set_quit a (v : bool) (gs : GameState.t) :
  stable a gs -> stable a (GameState.set_quit v gs).
Proof. intros H. exact H. Qed.

Lemma stable_with_velocity a (f : spec_float -> spec_float) (gs : GameState.t) :
  stable a gs -> stable a (with_velocity f gs).
Proof. intros H. exact H. Qed.

Lemma stable_set_bird_entity a (e' : Entity.t) (b : Bird.t) (gs : GameState.t) :
  ent_rel (bird_entity gs) e' -> stable a gs ->
  stable a (GameState.set_bird (Bird.set_entity e' b) gs).
Proof.
  intros Hrel [Hwf Ha]. destruct Hwf as (Hb & Hrest).
  destruct (Hrel Hb) as [Hs He]. split.
  - split; [exact Hs|exact Hrest].
  - rewrite <- Ha. unfold assets, bird_entity in *.
    cbn [GameState.bird GameState.set_bird Bird.entity Bird.set_entity
         GameState.entities GameState.obstacles GameState.press_space_to_start
         GameState.title_text GameState.score_counter].
    rewrite He. reflexivity.
Qed.

Lemma stable_with_bird_entity a (f : Entity.t -> Entity.t) (gs : GameState.t) :
  ent_rel (bird_entity gs) (f (bird_entity gs)) -> stable a gs ->
  stable a (with_bird_entity f gs).
Proof. apply stable_set_bird_entity. Qed.

Lemma stable_set_press a (e' : Entity.t) (gs : GameState.t) :
  ent_rel (GameState.press_space_to_start gs) e' -> stable a gs ->
  stable a (GameState.set_press_space_to_start e' gs).
Proof.
  intros Hrel [Hwf Ha]. destruct Hwf as (Hb & Hp & Hrest).
  destruct (Hrel Hp) as [Hs He]. split.
  - split; [exact Hb|]. split; [exact Hs|exact Hrest].
  - rewrite <- Ha. unfold assets, bird_entity in *.
    cbn [GameState.bird GameState.set_press_space_to_start
         GameState.entities GameState.obstacles GameState.press_space_to_start
         GameState.title_text GameState.score_counter].
    rewrite He. reflexivity.
Qed.

Lemma stable_set_title a (e' : Entity.t) (gs : GameState.t) :
  ent_rel (GameState.title_text gs) e' -> stable a gs ->
  stable a (GameState.set_title_text e' gs).
Proof.
  intros Hrel [Hwf Ha]. destruct Hwf as (Hb & Hp & Ht & Hrest).
  destruct (Hrel Ht) as [Hs He]. split.
  - split; [exact Hb|]. split; [exact Hp|]. split; [exact Hs|exact Hrest].
  - rewrite <- Ha. unfold assets, bird_entity in *.
    cbn [GameState.bird GameState.set_title_text
         GameState.entities GameState.obstacles GameState.press_space_to_start
         GameState.title_text GameState.score_counter].
    rewrite He. reflexivity.
Qed.

Lemma stable_with_obstacle a (i : nat) (f : Obstacle.t -> Obstacle.t)
  (gs : GameState.t) :
  (forall ob, ob_rel ob (f ob)) -> stable a gs ->
  stable a (with_obstacle i f gs).
Proof.
  intros Hrel [Hwf Ha].
  destruct Hwf as (Hb & Hp & Ht & Hobs & Hlen & Hd & Hdl & Hrefs & Hel).
  unfold with_obstacle. split.
  - unfold wf, bird_entity in *.
    cbn [GameState.bird GameState.set_obstacles GameState.entities
         GameState.obstacles GameState.press_space_to_start
         GameState.title_text GameState.score_counter].
    rewrite length_alter.
    refine (conj Hb (conj Hp (conj Ht (conj _ (conj Hlen (conj Hd (conj Hdl
              (conj Hrefs Hel)))))))).
    apply Forall_alter; [exact Hobs|].
    intros ob _ Hob. apply (Hrel ob Hob).
  - rewrite <- Ha. unfold assets, bird_entity.
    cbn [GameState.bird GameState.set_obstacles GameState.entities
         GameState.obstacles GameState.press_space_to_start
         GameState.title_text GameState.score_counter].
    do 2 f_equal. apply list_eq. intros j. rewrite !list_lookup_fmap.
    destruct (decide (j = i)) as [->|Hne].
    + rewrite list_lookup_alter_eq.
      destruct (GameState.obstacles gs !! i) as [ob|] eqn:E; [|reflexivity].
      cbn [fmap option_fmap option_map].
      destruct (Hrel ob (Forall_lookup_1 _ _ _ _ Hobs E)) as (_ & -> & -> & ->).
      reflexivity.
    + rewrite list_lookup_alter_ne by congruence. reflexivity.
Qed.

(** The digit entities keep their views through [update_score_counter]. *)
Lemma score_digits_loop_stable (las : list (Z * list EntityView.t)) (fuel : nat) :
  forall (score k m : Z) (ds ds' : list Entity.t),
    Forall digit_shown ds -> map entity_assets ds = las ->
    score_digits_loop fuel score k ds = Ret (m, ds') ->
    Forall digit_shown ds' /\ map entity_assets ds' = las.
Proof.
  induction fuel as [|fuel IH]; intros score k m ds ds' Hds Has Hrun;
    cbn [score_digits_loop] in Hrun; [discriminate|].
  destruct (score >? 0) eqn:Hpos.
  2:{ injection Hrun as <- <-. auto. }
  destruct ((0 <=? k) && (k <? SCORE_COUNTER_DIGITS)); [|discriminate].
  destruct (ds !! Z.to_nat k) as [d|] eqn:Hd; [|discriminate].
  apply IH in Hrun; [exact Hrun| |].
  - apply Forall_insert; [exact Hds|].
    destruct (Forall_lookup_1 _ _ _ _ Hds Hd) as [Hs Hn].
    split; [|exact Hn].
    apply shown_set_visible, shown_set_current_view; [|exact Hs].
    rewrite Hn. rewrite Z.gtb_ltb in Hpos. apply Z.ltb_lt in Hpos.
    unfold CInt.rem. pose proof (Z.rem_bound_pos score 10 ltac:(lia) ltac:(lia)).
    rewrite uwrap_id; lia.
  - rewrite list_fmap_insert. rewrite <- Has. apply list_insert_id.
    rewrite list_lookup_fmap, Hd. reflexivity.
Qed.

Lemma hide_digits_from_stable (las : list (Z * list EntityView.t)) (m : Z)
  (ds : list Entity.t) :
  Forall digit_shown ds -> map entity_assets ds = las ->
  Forall digit_shown (hide_digits_from m ds)
  /\ map entity_assets (hide_digits_from m ds) = las.
Proof.
  unfold hide_digits_from.
  generalize (seq (Z.to_nat m) (Z.to_nat (SCORE_COUNTER_DIGITS - m))).
  intros idxs. revert ds. induction idxs as [|i idxs IH]; intros ds Hds Has;
    cbn [fold_left]; [auto|].
  apply IH.
  - apply Forall_alter; [exact Hds|]. intros d _ [Hs Hn]. split; assumption.
  - rewrite <- Has. apply list_eq. intros j. rewrite !list_lookup_fmap.
    destruct (decide (j = i)) as [->|Hne].
    + rewrite list_lookup_alter_eq. destruct (ds !! i); reflexivity.
    + rewrite list_lookup_alter_ne by congruence. reflexivity.
Qed.

Lemma stable_update_score_counter a (gs gs' : GameState.t) :
  stable a gs -> update_score_counter gs = Ret gs' -> stable a gs'.
Proof.
  intros [Hwf Ha] Hrun. unfold update_score_counter in Hrun.
  destruct (score_digits_loop _ _ _ _) as [[m ds]| | |] eqn:Hloop;
    try discriminate.
  cbn [res_bind] in Hrun. injection Hrun as <-.
  destruct Hwf as (Hb & Hp & Ht & Hobs & Hlen & Hd & Hdl & Hrefs & Hel).
  destruct (score_digits_loop_stable _ _ _ _ _ _ _ Hd eq_refl Hloop) as [Hd1 Ha1].
  destruct (hide_digits_from_stable _ m ds Hd1 Ha1) as [Hd2 Ha2].
  split.
  - unfold wf, bird_entity in *.
    cbn [GameState.bird GameState.set_score_counter GameState.entities
         GameState.obstacles GameState.press_space_to_start
         GameState.title_text GameState.score_counter
         ScoreCounter.digits ScoreCounter.set_digits].
    refine (conj Hb (conj Hp (conj Ht (conj Hobs (conj Hlen (conj Hd2 (conj _
              (conj Hrefs Hel)))))))).
    rewrite <- Hdl, <- (length_map entity_assets), Ha2, length_map. reflexivity.
  - rewrite <- Ha. unfold assets, bird_entity.
    cbn [GameState.bird GameState.set_score_counter GameState.entities
         GameState.obstacles GameState.press_space_to_start
         GameState.title_text GameState.score_counter
         ScoreCounter.digits ScoreCounter.set_digits].
    rewrite Ha2. reflexivity.
Qed.

Lemma stable_hide_digits a (m : Z) (gs : GameState.t) :
  stable a gs ->
  stable a (GameState.set_score_counter
              (ScoreCounter.set_digits
                 (hide_digits_from m
                    (ScoreCounter.digits (GameState.score_counter gs)))
                 (GameState.score_counter gs)) gs).
Proof.
  intros [Hwf Ha].
  destruct Hwf as (Hb & Hp & Ht & Hobs & Hlen & Hd & Hdl & Hrefs & Hel).
  destruct (hide_digits_from_stable _ m _ Hd eq_refl) as [Hd2 Ha2].
  split.
  - unfold wf, bird_entity in *.
    cbn [GameState.bird GameState.set_score_counter GameState.entities
         GameState.obstacles GameState.press_space_to_start
         GameState.title_text GameState.score_counter
         ScoreCounter.digits ScoreCounter.set_digits].
    refine (conj Hb (conj Hp (conj Ht (conj Hobs (conj Hlen (conj Hd2 (conj _
              (conj Hrefs Hel)))))))).
    rewrite hide_digits_from_length. exact Hdl.
  - rewrite <- Ha. unfold assets, bird_entity.
    cbn [GameState.bird GameState.set_score_counter GameState.entities
         GameState.obstacles GameState.press_space_to_start
         GameState.title_text GameState.score_counter
         ScoreCounter.digits ScoreCounter.set_digits].
    rewrite Ha2. reflexivity.
Qed.

(** *** The callbacks *)

Ltac stable_step :=
  match goal with
  | H : stable ?a ?g |- stable ?a ?g => exact H
  | H : ent_rel ?e ?e' |- ent_rel ?e ?e' => exact H
  | H : update_score_counter ?g0 = Ret ?g |- stable _ ?g =>
      apply (stable_update_score_counter _ g0 g); [|exact H]
  | |- stable _ (if ?c then _ else _) => destruct c
  | |- stable _ (GameState.set_score_counter
                   (ScoreCounter.set_digits (hide_digits_from _ _) _) _) =>
      apply stable_hide_digits
  | |- stable _ (with_obstacle _ _ _) =>
      apply stable_with_obstacle; [intros ?|]
  | |- stable _ (with_bird_entity _ _) =>
      apply stable_with_bird_entity; [cbv beta|]
  | |- stable _ (with_velocity _ _) => apply stable_with_velocity
  | |- stable _ (GameState.set_screen_type _ _) => apply stable_set_screen_type
  | |- stable _ (GameState.set_score _ _) => apply stable_set_score
  | |- stable _ (GameState.set_quit _ _) => apply stable_set_quit
  | |- stable _ (GameState.set_press_space_to_start _ _) => apply stable_set_press
  | |- stable _ (GameState.set_title_text _ _) => apply stable_set_title
  | |- stable _ (GameState.set_bird (Bird.set_entity _ _) _) =>
      apply stable_set_bird_entity
  | |- ent_rel _ (Entity.set_x _ _) => apply ent_rel_set_x
  | |- ent_rel _ (Entity.set_y _ _) => apply ent_rel_set_y
  | |- ent_rel _ (Entity.set_visible _ _) => apply ent_rel_set_visible
  | |- ent_rel _ _ => apply ent_rel_refl
  | |- ob_rel _ (Obstacle.set_x _ _) => apply ob_rel_set_x
  | |- ob_rel _ (Obstacle.set_y _ _) => apply ob_rel_set_y
  | |- ob_rel _ (Obstacle.set_score_collected _ _) =>
      apply ob_rel_set_score_collected
  | |- ob_rel _ (update_obstacle _) => apply ob_rel_update_obstacle
  end.

(** Take a computation apart along its binds, loops and branches, keeping
    track of the game state. *)
Ltac post_tac a :=
  repeat first
    [ progress cbv zeta
    | apply post_ret
    | apply post_for_each; [intros ? ? ?|]
    | match goal with
      | |- post (bind (lift (next_entity_view ?e)) _) _ =>
          apply (post_bind (ent_rel e));
          [apply post_lift; intros ? ?; apply ent_rel_next; assumption
          |intros ? ?]
      end
    | apply (post_bind (stable a)); [|intros ? ?]
    | apply post_bind_any; intros ?
    | apply post_lift; intros ? ?
    | solve [discriminate]
    | match goal with
      | |- post (if ?c then _ else _) _ => destruct c
      | |- post (match ?x with _ => _ end) _ => destruct x
      end
    | stable_step ].

Lemma post_scroll_world a (gs : GameState.t) :
  stable a gs -> post (scroll_world gs) (stable a).
Proof. intros H. unfold scroll_world, scroll_obstacle. post_tac a. Qed.

Lemma post_animate_bird a (gs : GameState.t) :
  stable a gs -> post (animate_bird gs) (stable a).
Proof. intros H. unfold animate_bird. post_tac a. Qed.

Lemma post_start_game a (gs : GameState.t) :
  stable a gs -> post (start_game gs) (stable a).
Proof. intros H. unfold start_game, place_obstacle. post_tac a. Qed.

Lemma post_end_game a (gs : GameState.t) :
  stable a gs -> post (end_game gs) (stable a).
Proof. intros H. unfold end_game. post_tac a. Qed.

Lemma post_press_space a (gs : GameState.t) :
  stable a gs -> post (press_space gs) (stable a).
Proof.
  intros H. unfold press_space.
  apply (post_bind (stable a)).
  - destruct (GameState.screen_type gs);
      [apply post_start_game|apply post_ret]; exact H.
  - intros g Hg. post_tac a.
Qed.

Lemma post_handle_key a (i : Z) (gs : GameState.t) :
  stable a gs -> post (handle_key i gs) (stable a).
Proof.
  intros H. unfold handle_key.
  apply post_bind_any. intros down. destruct down; [|apply post_ret; exact H].
  cbv zeta.
  destruct (i =? VK_LEFT), (i =? VK_RIGHT), (i =? VK_SPACE), (i =? VK_ESCAPE);
    (apply (post_bind (stable a));
     [first [apply post_press_space|apply post_ret]; repeat stable_step
     |intros g Hg; apply post_ret; repeat stable_step]).
Qed.

Lemma post_title_autopilot a (gs : GameState.t) :
  stable a gs -> post (title_autopilot gs) (stable a).
Proof. intros H. unfold title_autopilot. post_tac a. Qed.

Lemma post_game_checks a (gs : GameState.t) :
  stable a gs -> post (game_checks gs) (stable a).
Proof.
  intros H. unfold game_checks, collide_obstacle.
  destruct (GameState.screen_type gs); [apply post_ret; exact H|].
  apply (post_bind (stable a)).
  - apply post_for_each; [|exact H]. intros i s Hs.
    apply post_bind_any. intros ob. apply post_bind_any. intros hit.
    destruct hit; [apply post_end_game|apply post_ret]; exact Hs.
  - intros g Hg. destruct (out_of_screen (bird_entity g));
      [apply post_end_game|apply post_ret]; exact Hg.
Qed.

Lemma post_move_bird a (gs : GameState.t) :
  stable a gs -> post (move_bird gs) (stable a).
Proof. intros H. unfold move_bird. post_tac a. Qed.

Lemma post_game_tick a (gs : GameState.t) :
  stable a gs -> post (game_tick gs) (stable a).
Proof.
  intros H. unfold game_tick.
  apply (post_bind (stable a)).
  { apply post_for_each; [|exact H]. intros i s Hs. apply post_handle_key, Hs. }
  intros g1 H1. cbv zeta.
  apply (post_bind (stable a)).
  { apply post_title_autopilot. unfold apply_gravity.
    destruct (CFloat.ltb _ _); [apply stable_with_velocity|]; exact H1. }
  intros g2 H2.
  apply (post_bind (stable a)); [apply post_game_checks, H2|].
  intros g3 H3. apply post_move_bird, H3.
Qed.

(** *** The callbacks return *)

Lemma returns_ret {A} (a : A) : returns (ret a).
Proof. intros w. eexists _, _. reflexivity. Qed.

Lemma returns_bind {A B} (P : A -> Prop) (m : M A) (k : A -> M B) :
  returns m -> post m P -> (forall a, P a -> returns (k a)) ->
  returns (bind m k).
Proof.
  intros Hm HP Hk w. destruct (Hm w) as (a & w1 & E).
  destruct (Hk a (HP _ _ _ E) w1) as (b & w2 & E2).
  exists b, w2. unfold bind. rewrite E. exact E2.
Qed.

Lemma returns_bind_any {A B} (m : M A) (k : A -> M B) :
  returns m -> (forall a, returns (k a)) -> returns (bind m k).
Proof.
  intros Hm Hk. apply (returns_bind (fun _ => True)); auto.
  intros ? ? ? ?. exact I.
Qed.

Lemma returns_for_each {A} (I : GameState.t -> Prop) (l : list A)
  (body : A -> GameState.t -> M GameState.t) :
  (forall a s, a ∈ l -> I s -> returns (body a s) /\ post (body a s) I) ->
  forall s, I s -> returns (for_each l body s).
Proof.
  induction l as [|a l IH]; intros Hbody s Hs; cbn [for_each].
  - apply returns_ret.
  - destruct (Hbody a s ltac:(left) Hs) as [Hr Hp].
    apply (returns_bind I); [exact Hr|exact Hp|].
    intros s' Hs'. apply IH; [|exact Hs'].
    intros a' s'' Hin. apply Hbody. right. exact Hin.
Qed.

Lemma returns_printf (fmt : string) (args : list PrintArg) :
  returns (printf fmt args).
Proof. intros w. eexists _, _. reflexivity. Qed.

Lemma returns_rand : returns rand.
Proof. intros w. eexists _, _. reflexivity. Qed.

Lemma returns_GetAsyncKeyState (vk : Z) : returns (GetAsyncKeyState vk).
Proof. intros w. eexists _, _. reflexivity. Qed.

Lemma returns_lift {A} (r : Res A) (a : A) : r = Ret a -> returns (lift r).
Proof. intros -> w. eexists _, _. reflexivity. Qed.

Lemma returns_end_game (gs : GameState.t) : returns (end_game gs).
Proof. intros w. rewrite end_game_run. eauto. Qed.

Lemma returns_start_game a (gs : GameState.t) :
  stable a gs -> returns (start_game gs).
Proof.
  intros [Hwf _] w. unfold start_game. cbv zeta.
  set (g := GameState.set_score 0 _).
  rewrite (update_score_counter_zero g eq_refl).
  unfold bind at 1. unfold lift. cbn [res_bind fst snd].
  set (g' := GameState.set_score_counter _ g).
  destruct Hwf as (_ & _ & _ & _ & Hlen & _).
  change (GameState.obstacles g') with (GameState.obstacles gs).
  destruct (place_obstacles_run (length (GameState.obstacles gs)) 0 g' w eq_refl)
    as (gs' & w' & Hrun & _).
  { unfold MAX_OBSTACLES in Hlen. exact Hlen. }
  eauto.
Qed.

Lemma shown_has_views (e : Entity.t) :
  shown e -> exists e', next_entity_view e = Ret e'.
Proof.
  intros [_ Hc]. unfold next_entity_view.
  destruct (Entity.num_views e =? 0) eqn:E; [apply Z.eqb_eq in E; lia|eauto].
Qed.

Lemma returns_next_view a (gs : GameState.t) (k : Entity.t -> M GameState.t) :
  stable a gs ->
  (forall e, returns (k e)) ->
  returns (bind (lift (next_entity_view (bird_entity gs))) k).
Proof.
  intros [Hwf _] Hk. destruct Hwf as (Hb & _).
  destruct (shown_has_views _ Hb) as [e' He'].
  apply returns_bind_any; [apply (returns_lift _ e' He')|exact Hk].
Qed.

Lemma returns_press_space a (gs : GameState.t) :
  stable a gs -> returns (press_space gs).
Proof.
  intros H. unfold press_space.
  apply (returns_bind (stable a)).
  - destruct (GameState.screen_type gs);
      [apply (returns_start_game a); exact H|apply returns_ret].
  - destruct (GameState.screen_type gs);
      [apply post_start_game|apply post_ret]; exact H.
  - intros g Hg. cbv zeta.
    apply (returns_next_view a); [|intros e; apply returns_ret].
    destruct (CFloat.gtb _ _); [apply stable_with_velocity|]; exact Hg.
Qed.

Lemma returns_handle_key a (i : Z) (gs : GameState.t) :
  stable a gs -> returns (handle_key i gs).
Proof.
  intros H. unfold handle_key.
  apply returns_bind_any; [apply returns_GetAsyncKeyState|].
  intros down. destruct down; [|apply returns_ret]. cbv zeta.
  apply returns_bind_any; [|intros g; apply returns_ret].
  destruct (i =? VK_SPACE); [|apply returns_ret].
  apply (returns_press_space a).
  destruct (i =? VK_LEFT), (i =? VK_RIGHT); repeat stable_step.
Qed.

Lemma returns_title_autopilot (gs : GameState.t) : returns (title_autopilot gs).
Proof.
  unfold title_autopilot. destruct (GameState.screen_type gs); [|apply returns_ret].
  apply returns_bind_any.
  - destruct (_ >? _); [|apply returns_ret].
    apply returns_bind_any; [apply returns_rand|intros r; apply returns_ret].
  - intros g. destruct (_ <? _); apply returns_ret.
Qed.

Lemma shown_check_collision (e1 e2 : Entity.t) :
  shown e1 -> shown e2 -> exists b, check_collision e1 e2 = Ret b.
Proof.
  intros H1 H2.
  destruct (shown_view_at e1 H1) as (v1 & Hv1 & _).
  destruct (shown_view_at e2 H2) as (v2 & Hv2 & _).
  rewrite (check_collision_unfold e1 e2 v1 v2 Hv1 Hv2). eauto.
Qed.

Lemma wf_checks_defined (gs : GameState.t) : wf gs -> checks_defined gs.
Proof.
  intros (Hb & _ & _ & Hobs & _) ob Hin.
  destruct (proj1 (Forall_forall _ _) Hobs ob Hin) as [Ht Hbt].
  destruct (shown_check_collision _ _ Hb Ht) as [b1 E1].
  destruct (shown_check_collision _ _ Hb Hbt) as [b2 E2].
  eauto.
Qed.

Lemma returns_game_checks a (gs : GameState.t) :
  stable a gs -> returns (game_checks gs).
Proof.
  intros H. unfold game_checks.
  destruct (GameState.screen_type gs); [apply returns_ret|].
  apply returns_bind_any.
  - intros w.
    destruct (collide_obstacles_run gs (seq 0 (length (GameState.obstacles gs)))
                (wf_checks_defined gs (proj1 H))
                ltac:(apply Forall_forall; intros i Hi;
                      apply elem_of_seq in Hi; lia)
                gs w ltac:(left; reflexivity))
      as (g' & w' & Hrun & _).
    eauto.
  - intros g. destruct (out_of_screen _);
      [apply returns_end_game|apply returns_ret].
Qed.

Lemma bind_assoc {A B C} (m : M A) (k : A -> M B) (h : B -> M C) (w : World) :
  bind (bind m k) h w = bind m (fun a => bind (k a) h) w.
Proof. unfold bind. destruct (m w) as [[a w1]| | |]; reflexivity. Qed.

Lemma bind_ext {A B} (m : M A) (k1 k2 : A -> M B) (w : World) :
  (forall a w', k1 a w' = k2 a w') -> bind m k1 w = bind m k2 w.
Proof. intros H. unfold bind. destruct (m w) as [[a w1]| | |]; cbn; auto. Qed.

Lemma game_tick_split (gs : GameState.t) (w : World) :
  game_tick gs w = bind (game_tick_before_move gs) move_bird w.
Proof.
  unfold game_tick, game_tick_before_move. rewrite bind_assoc.
  apply bind_ext. intros g w1. cbv zeta. rewrite bind_assoc. reflexivity.
Qed.

Lemma post_game_tick_before_move a (gs : GameState.t) :
  stable a gs -> post (game_tick_before_move gs) (stable a).
Proof.
  intros H. unfold game_tick_before_move.
  apply (post_bind (stable a)).
  { apply post_for_each; [|exact H]. intros i s Hs. apply post_handle_key, Hs. }
  intros g1 H1.
  apply (post_bind (stable a)); [|intros g2 H2; apply post_game_checks, H2].
  apply post_title_autopilot. unfold apply_gravity.
  destruct (CFloat.ltb _ _); [apply stable_with_velocity|]; exact H1.
Qed.

Lemma returns_game_tick_before_move a (gs : GameState.t) :
  stable a gs -> returns (game_tick_before_move gs).
Proof.
  intros H. unfold game_tick_before_move.
  apply (returns_bind (stable a)).
  - apply (returns_for_each (stable a)); [|exact H].
    intros i s _ Hs. split; [apply (returns_handle_key a)|apply post_handle_key];
      exact Hs.
  - apply post_for_each; [|exact H]. intros i s Hs. apply post_handle_key, Hs.
  - intros g1 H1.
    assert (H1' : stable a (apply_gravity g1)).
    { unfold apply_gravity.
      destruct (CFloat.ltb _ _); [apply stable_with_velocity|]; exact H1. }
    apply (returns_bind (stable a)).
    + apply returns_title_autopilot.
    + apply post_title_autopilot, H1'.
    + intros g2 H2. apply (returns_game_checks a), H2.
Qed.

(** *** The sample game is well formed *)

Lemma loaded_viewb_spec (v : EntityView.t) :
  loaded_viewb v = true -> loaded_view v.
Proof.
  unfold loaded_viewb, loaded_view. intros H.
  destruct (rev (EntityView.display v)) as [|c text] eqn:E; [discriminate|].
  apply andb_prop in H as [Hc Ht]. apply Ascii.eqb_eq in Hc. subst c.
  exists (rev text). split.
  - rewrite <- (rev_involutive (EntityView.display v)), E. reflexivity.
  - apply Forall_forall. intros c Hc. apply list_elem_of_In, in_rev in Hc.
    rewrite forallb_forall in Ht. specialize (Ht c Hc).
    apply negb_true_iff, Ascii.eqb_neq in Ht. exact Ht.
Qed.

Ltac loaded_views :=
  intros k v Hk Hv;
  repeat (destruct k as [|k];
          [cbn in Hv; injection Hv as <-; apply loaded_viewb_spec; reflexivity|]);
  cbn in Hk; lia.

Ltac shown_sample :=
  split;
  [split; [reflexivity|split; [reflexivity|split; [unfold MAX_VIEWS; cbn; lia|]]];
   loaded_views
  |cbn; lia].

Lemma sample_game_wf (screen : ScreenType) (x y score : Z) :
  wf (sample_game screen (sample_bird x y) score).
Proof.
  unfold wf.
  split; [shown_sample|]. split; [shown_sample|].
  split; [destruct screen; shown_sample|].
  split.
  { repeat (constructor; [split; shown_sample|]). constructor. }
  split; [vm_compute; lia|].
  split.
  { repeat (constructor; [split; [shown_sample|reflexivity]|]). constructor. }
  split; [reflexivity|].
  split; [|vm_compute; lia].
  repeat (constructor; [vm_compute; lia || exact I|]). constructor.
Qed.

(** *** A pass of the timers *)

Lemma post_run_timer a (cbs : list (GameState.t -> M GameState.t)) (i : nat)
  (st : PassState) :
  Forall (preserves (stable a)) cbs ->
  stable a (fst (fst st)) /\ map PeriodicTimer.callback (snd (fst st)) = cbs ->
  post (run_timer i st)
       (fun st' => stable a (fst (fst st'))
                   /\ map PeriodicTimer.callback (snd (fst st')) = cbs).
Proof.
  intros Hcbs [Hs Hm]. destruct st as [[g timers] calls].
  cbn [fst snd] in Hs, Hm. unfold run_timer.
  destruct (timers !! i) as [t|] eqn:Ht.
  2:{ apply post_lift. intros ? ?. discriminate. }
  apply post_bind_any. intros now.
  destruct (_ >? _).
  2:{ apply post_ret. cbn [fst snd]. auto. }
  assert (Hpres : preserves (stable a) (PeriodicTimer.callback t)).
  { apply (proj1 (Forall_forall _ _) Hcbs). rewrite <- Hm.
    apply list_elem_of_fmap. exists t. split; [reflexivity|].
    apply (list_elem_of_lookup_2 _ i). exact Ht. }
  apply (post_bind (stable a)); [apply Hpres; exact Hs|].
  intros g' Hg'. apply post_bind_any. intros now'. apply post_ret.
  cbn [fst snd]. split; [exact Hg'|].
  rewrite <- Hm. rewrite list_fmap_insert. apply list_insert_id.
  rewrite list_lookup_fmap, Ht. reflexivity.
Qed.

Lemma main_timers_preserve a :
  Forall (preserves (stable a)) (map PeriodicTimer.callback main_timers).
Proof.
  cbn [map main_timers PeriodicTimer.callback].
  constructor; [|constructor; [|constructor; [|constructor]]]; intros gs H.
  - apply post_scroll_world, H.
  - apply post_animate_bird, H.
  - apply post_game_tick, H.
Qed.

(** X8.  The callbacks of the three timers of [main] keep a game state well
    formed, and leave its registered pointers, the views of its entities
    and the gaps of its obstacles as they are; so does a whole pass of
    [run_periodic_timers] over these callbacks. *)
Theorem callbacks_keep_well_formed (gs : GameState.t) :
  wf gs ->
  Forall (fun t => forall w gs' w',
            PeriodicTimer.callback t gs w = Ret (gs', w') ->
            wf gs' /\ assets gs' = assets gs)
         main_timers
  /\ forall timers w gs' timers' calls w',
      map PeriodicTimer.callback timers = map PeriodicTimer.callback main_timers ->
      run_periodic_timers gs timers w = Ret ((gs', timers', calls), w') ->
      wf gs' /\ assets gs' = assets gs.
Proof.
  intros Hwf.
  assert (H : stable (assets gs) gs) by (split; [exact Hwf|reflexivity]).
  split.
  - unfold main_timers.
    constructor; [|constructor; [|constructor; [|constructor]]];
      intros w gs' w' Hrun; cbn [PeriodicTimer.callback] in Hrun.
    + exact (post_scroll_world _ gs H _ _ _ Hrun).
    + exact (post_animate_bird _ gs H _ _ _ Hrun).
    + exact (post_game_tick _ gs H _ _ _ Hrun).
  - intros timers w gs' timers' calls w' Hm Hrun.
    unfold run_periodic_timers in Hrun.
    refine (proj1 (post_for_each
              (fun st : PassState =>
                 stable (assets gs) (fst (fst st))
                 /\ map PeriodicTimer.callback (snd (fst st))
                    = map PeriodicTimer.callback main_timers)
              _ run_timer _ (gs, timers, []) _ _ _ _ Hrun)).
    + intros i st Hst. apply post_run_timer; [|exact Hst].
      apply main_timers_preserve.
    + cbn [fst snd]. auto.
Qed.

Lemma callbacks_keep_well_formed_witness :
  let gs := sample_game GAME_SCREEN (sample_bird 120 40) 7 in
  Forall (fun t => forall w gs' w',
            PeriodicTimer.callback t gs w = Ret (gs', w') ->
            wf gs' /\ assets gs' = assets gs)
         main_timers
  /\ forall timers w gs' timers' calls w',
      map PeriodicTimer.callback timers = map PeriodicTimer.callback main_timers ->
      run_periodic_timers gs timers w = Ret ((gs', timers', calls), w') ->
      wf gs' /\ assets gs' = assets gs.
Proof.
  apply (callbacks_keep_well_formed (sample_game GAME_SCREEN (sample_bird 120 40) 7)).
  apply sample_game_wf.
Defined.

(** *** Nothing undefined from a well-formed state *)

Lemma valid_ref_deref (gs : GameState.t) (p : EntityRef) :
  wf gs -> valid_ref (length (GameState.obstacles gs)) p ->
  exists e, GameState.deref gs p = Ret e /\ shown e.
Proof.
  intros (Hb & Hp & Ht & Hobs & _ & Hd & Hdl & _) Hv.
  destruct p as [| | |i|i|i]; cbn [valid_ref GameState.deref] in *.
  - eauto.
  - eauto.
  - eauto.
  - destruct (lookup_lt_is_Some_2 _ i Hv) as [ob Hob]. rewrite Hob.
    exists (Obstacle.top_entity ob). split; [reflexivity|].
    apply (Forall_lookup_1 _ _ _ _ Hobs Hob).
  - destruct (lookup_lt_is_Some_2 _ i Hv) as [ob Hob]. rewrite Hob.
    exists (Obstacle.bottom_entity ob). split; [reflexivity|].
    apply (Forall_lookup_1 _ _ _ _ Hobs Hob).
  - rewrite <- Hdl in Hv.
    destruct (lookup_lt_is_Some_2 _ i Hv) as [d Hdi]. rewrite Hdi.
    exists d. split; [reflexivity|].
    apply (Forall_lookup_1 _ _ _ _ Hd Hdi).
Qed.

Lemma wf_score_fits_views (gs : GameState.t) :
  wf gs ->
  Forall (fun ob => has_view0 (Obstacle.top_entity ob)) (GameState.obstacles gs)
  /\ has_view0 (GameState.press_space_to_start gs).
Proof.
  intros (_ & Hp & _ & Hobs & _). split; [|apply shown_view0, Hp].
  apply (Forall_impl _ _ _ Hobs). intros ob [Ht _]. apply shown_view0, Ht.
Qed.

(** X9.  From a well-formed game state a turn of the game has a defined
    behaviour but for two things: [render_next_frame] and [animate_bird]
    return; [scroll_world] returns as long as the score stays below
    [10 ^ 5]; and [game_tick] returns up to its last statement, in a
    well-formed state, and then as a whole if the velocity of the bird
    converts to an [int]. *)
Theorem well_formed_turn_defined (gs : GameState.t) :
  wf gs ->
  (forall ds, exists ds', render_next_frame ds gs = Ret ds')
  /\ returns (animate_bird gs)
  /\ (score_fits gs (GameState.obstacle_count gs) -> returns (scroll_world gs))
  /\ forall w, exists gs1 w1,
      game_tick_before_move gs w = Ret (gs1, w1)
      /\ wf gs1
      /\ game_tick gs w = move_bird gs1 w1
      /\ forall dy,
          CFloat.to_int (bird_velocity gs1) = Ret dy ->
          game_tick gs w
          = Ret (with_bird_entity
                   (fun e => Entity.set_y (CInt.add (Entity.y e) dy) e) gs1, w1).
Proof.
  intros Hwf.
  assert (H : stable (assets gs) gs) by (split; [exact Hwf|reflexivity]).
  split; [|split; [|split]].
  - intros ds. apply render_next_frame_returns.
    destruct Hwf as (Hb & Hp & Ht & Hobs & Hlen & Hd & Hdl & Hrefs & Hel).
    apply (Forall_impl _ _ _ Hrefs). intros p Hv.
    destruct (valid_ref_deref gs p) as (e & He & Hs); [|exact Hv|].
    { exact (conj Hb (conj Hp (conj Ht (conj Hobs (conj Hlen (conj Hd
               (conj Hdl (conj Hrefs Hel)))))))). }
    exists e. split; [exact He|apply shown_renderable, Hs].
  - unfold animate_bird.
    apply (returns_next_view (assets gs)); [exact H|].
    intros e. apply returns_ret.
  - intros Hfit w. destruct (wf_score_fits_views gs Hwf) as [Hv Hp].
    destruct (scroll_world_run gs w Hv Hp Hfit) as (gs' & w' & Hrun & _).
    eauto.
  - intros w.
    destruct (returns_game_tick_before_move _ gs H w) as (gs1 & w1 & Hrun).
    pose proof (post_game_tick_before_move _ gs H _ _ _ Hrun) as [Hwf1 _].
    exists gs1, w1. split; [exact Hrun|]. split; [exact Hwf1|].
    assert (Hsplit : game_tick gs w = move_bird gs1 w1).
    { rewrite game_tick_split. unfold bind. rewrite Hrun. reflexivity. }
    split; [exact Hsplit|].
    intros dy Hdy. rewrite Hsplit. unfold move_bird, bind, lift.
    rewrite Hdy. reflexivity.
Qed.

Lemma well_formed_turn_defined_witness :
  let gs := sample_game GAME_SCREEN (sample_bird 120 40) 7 in
  (forall ds, exists ds', render_next_frame ds gs = Ret ds')
  /\ returns (animate_bird gs)
  /\ (score_fits gs (GameState.obstacle_count gs) -> returns (scroll_world gs))
  /\ forall w, exists gs1 w1,
      game_tick_before_move gs w = Ret (gs1, w1)
      /\ wf gs1
      /\ game_tick gs w = move_bird gs1 w1
      /\ forall dy,
          CFloat.to_int (bird_velocity gs1) = Ret dy ->
          game_tick gs w
          = Ret (with_bird_entity
                   (fun e => Entity.set_y (CInt.add (Entity.y e) dy) e) gs1, w1).
Proof.
  apply (well_formed_turn_defined (sample_game GAME_SCREEN (sample_bird 120 40) 7)).
  apply sample_game_wf.
Defined.

(** ** Registering an entity *)

Lemma with_out_app (w : World) (o1 o2 : list Event) :
  with_out (with_out w (out w ++ o1)) (out (with_out w (out w ++ o1)) ++ o2)
  = with_out w (out w ++ (o1 ++ o2)).
Proof. unfold with_out. cbn [out]. rewrite app_assoc. reflexivity. Qed.

Lemma with_out_nil (w : World) : with_out w (out w ++ []) = w.
Proof. rewrite app_nil_r. apply with_out_same. Qed.

Lemma c_string_text (text : list ascii) :
  Forall (fun c => c <> "000"%char) text ->
  c_string (text ++ ["000"%char]) = Ret (text_string (text ++ ["000"%char])).
Proof.
  induction 1 as [|c text Hc _ IH]; [reflexivity|].
  cbn [app c_string text_string].
  apply Ascii.eqb_neq in Hc. rewrite Hc, IH. reflexivity.
Qed.

Lemma loaded_view_at (n : Z) (e : Entity.t) (i : nat) :
  loaded n e -> (i < Z.to_nat n)%nat ->
  exists v,
    Entity.views e !! i = Some v
    /\ Entity.view_at e (Z.of_nat i) = Ret v
    /\ loaded_view v.
Proof.
  intros (Hlen & _ & Hn & Hviews) Hi. unfold MAX_VIEWS in *.
  destruct (lookup_lt_is_Some_2 (Entity.views e) i ltac:(lia)) as [v Hv].
  exists v. split; [exact Hv|]. split; [|exact (Hviews i v Hi Hv)].
  unfold Entity.view_at, MAX_VIEWS.
  replace ((0 <=? Z.of_nat i) && (Z.of_nat i <? 10)) with true
    by (symmetry; apply andb_true_intro;
        split; [apply Z.leb_le|apply Z.ltb_lt]; lia).
  rewrite Nat2Z.id, Hv. reflexivity.
Qed.

Lemma print_view_run (n : Z) (e : Entity.t) (i : nat) (w : World) :
  loaded n e -> (i < Z.to_nat n)%nat ->
  print_view e i tt w
  = Ret (tt, with_out w
               (out w ++ view_report i
                           (default EntityView.zero (Entity.views e !! i)))).
Proof.
  intros Hl Hi. destruct (loaded_view_at n e i Hl Hi) as (v & Hv & Hat & text & Ht & Hclean).
  unfold print_view, bind, printf, emit, lift. cbn [res_bind fst snd].
  rewrite Hat. cbn [res_bind fst snd]. rewrite Ht, (c_string_text text Hclean).
  cbn [res_bind fst snd]. rewrite Hv. cbn [default].
  unfold with_out. cbn [out clock ticks rand_seq draws key_state polls files].
  unfold view_report, id. rewrite Ht.
  repeat rewrite <- app_assoc. reflexivity.
Qed.

Lemma print_views_run (n : Z) (e : Entity.t) (idxs : list nat) :
  loaded n e -> Forall (fun i => (i < Z.to_nat n)%nat) idxs ->
  forall w,
    for_each idxs (print_view e) tt w
    = Ret (tt, with_out w
                 (out w ++ flat_map
                             (fun i => view_report i
                                         (default EntityView.zero
                                                  (Entity.views e !! i)))
                             idxs)).
Proof.
  intros Hl. induction 1 as [|i idxs Hi _ IH]; intros w; cbn [for_each flat_map].
  - unfold ret. rewrite with_out_nil. reflexivity.
  - unfold bind. rewrite (print_view_run n e i w Hl Hi). cbn [res_bind fst snd].
    rewrite IH, with_out_app. reflexivity.
Qed.

Lemma c_string_outcome (buf : list ascii) :
  (exists s, c_string buf = Ret s) \/ c_string buf = Undef.
Proof.
  induction buf as [|c buf IH]; cbn [c_string]; [auto|].
  destruct (Ascii.eqb c "000"); [eauto|].
  destruct IH as [[s ->]| ->]; cbn [res_bind]; eauto.
Qed.

Lemma view_at_outcome (e : Entity.t) (k : Z) :
  (exists v, Entity.view_at e k = Ret v) \/ Entity.view_at e k = Undef.
Proof.
  unfold Entity.view_at. destruct (_ && _); [|auto].
  destruct (_ !! _); eauto.
Qed.

Lemma print_view_outcome (e : Entity.t) (i : nat) (w : World) :
  (exists w', print_view e i tt w = Ret (tt, w'))
  \/ print_view e i tt w = Undef.
Proof.
  unfold print_view, bind, printf, emit, lift. cbn [res_bind fst snd].
  destruct (view_at_outcome e (Z.of_nat i)) as [[v ->]| ->];
    cbn [res_bind fst snd]; [|auto].
  destruct (c_string_outcome (EntityView.display v)) as [[s ->]| ->];
    cbn [res_bind fst snd]; eauto.
Qed.

(** The printing loop of [register_entity] returns or reads outside the
    views or a text; it never ends the process. *)
Lemma print_views_outcome (e : Entity.t) (idxs : list nat) :
  forall w, (exists w', for_each idxs (print_view e) tt w = Ret (tt, w'))
            \/ for_each idxs (print_view e) tt w = Undef.
Proof.
  induction idxs as [|i idxs IH]; intros w; cbn [for_each].
  - left. eexists. reflexivity.
  - unfold bind.
    destruct (print_view_outcome e i w) as [[w' ->]| ->];
      cbn [res_bind fst snd]; [apply IH|auto].
Qed.

Lemma entity_report_length (e : Entity.t) :
  length (entity_report e) = (1 + 6 * Z.to_nat (Entity.num_views e))%nat.
Proof.
  unfold entity_report. cbn [length]. f_equal.
  assert (H : forall l : list nat,
             length (flat_map
                       (fun i => view_report i
                                   (default EntityView.zero (Entity.views e !! i)))
                       l)
             = (6 * length l)%nat).
  { induction l as [|i l IH]; [reflexivity|].
    cbn [flat_map]. rewrite length_app, IH. cbn [length view_report]. lia. }
  rewrite H, length_seq. reflexivity.
Qed.

Lemma register_entity_run (gs : GameState.t) (p : EntityRef) (e : Entity.t)
  (n : Z) (w : World) :
  GameState.deref gs p = Ret e -> loaded n e ->
  (length (GameState.entities gs) < Z.to_nat MAX_ENTITIES)%nat ->
  register_entity gs p w
  = Ret (registered p gs, with_out w (out w ++ entity_report e)).
Proof.
  intros Hp Hl Hlen. unfold register_entity.
  unfold bind at 1. unfold printf, emit. cbn [res_bind fst snd].
  unfold bind at 1. unfold lift at 1. rewrite Hp. cbn [res_bind fst snd].
  unfold bind at 1.
  destruct Hl as (Hl1 & Hl2 & Hl3 & Hl4).
  rewrite (print_views_run n e (seq 0 (Z.to_nat (Entity.num_views e)))
             (conj Hl1 (conj Hl2 (conj Hl3 Hl4)))).
  2:{ apply Forall_forall. intros i Hi. apply elem_of_seq in Hi. lia. }
  cbn [res_bind fst snd].
  replace (GameState.entity_count gs <? MAX_ENTITIES) with true.
  2:{ symmetry. apply Z.ltb_lt. unfold GameState.entity_count, MAX_ENTITIES in *. lia. }
  unfold ret, registered, entity_report, with_out.
  cbn [out clock ticks rand_seq draws key_state polls files].
  rewrite <- app_assoc. reflexivity.
Qed.

(** X10.  [register_entity] prints a report of the entity, one line and six
    more for each of its views, and stores the pointer after the pointers
    registered so far; nothing else of the game state changes.  With 25
    pointers registered the store falls outside [entities[25]]: the call has
    no defined behaviour, whatever the entity. *)
Theorem register_entity_appends (gs : GameState.t) (p : EntityRef) (w : World) :
  (forall (e : Entity.t) (n : Z),
      GameState.deref gs p = Ret e -> loaded n e ->
      (length (GameState.entities gs) < Z.to_nat MAX_ENTITIES)%nat ->
      exists gs' w',
        register_entity gs p w = Ret (gs', w')
        /\ GameState.entities gs' = GameState.entities gs ++ [p]
        /\ GameState.entities gs' !! length (GameState.entities gs) = Some p
        /\ set_entities (GameState.entities gs) gs' = gs
        /\ out w' = out w ++ entity_report e
        /\ length (entity_report e) = (1 + 6 * Z.to_nat n)%nat)
  /\ (MAX_ENTITIES <= GameState.entity_count gs ->
      register_entity gs p w = Undef).
Proof.
  split.
  - intros e n Hp Hl Hlen.
    rewrite (register_entity_run gs p e n w Hp Hl Hlen).
    eexists _, _. split; [reflexivity|].
    unfold registered. cbn [GameState.entities set_entities].
    split; [reflexivity|]. split.
    { rewrite lookup_app_r by lia. rewrite Nat.sub_diag. reflexivity. }
    split; [destruct gs; reflexivity|]. split; [reflexivity|].
    destruct Hl as (_ & <- & _ & _). apply entity_report_length.
  - intros Hfull. unfold register_entity.
    unfold bind at 1. unfold printf, emit. cbn [res_bind fst snd].
    unfold bind at 1. unfold lift at 1.
    destruct (GameState.deref gs p) as [e| | |] eqn:Hp; cbn [res_bind fst snd];
      try reflexivity.
    + unfold bind at 1.
      match goal with
      | |- res_bind (for_each ?l _ _ ?w1) _ = _ =>
          destruct (print_views_outcome e l w1) as [[w' ->]| ->]
      end; cbn [res_bind fst snd]; [|reflexivity].
      replace (GameState.entity_count gs <? MAX_ENTITIES) with false
        by (symmetry; apply Z.ltb_ge; lia).
      reflexivity.
    + exfalso. destruct p; cbn in Hp; try discriminate;
        destruct (_ !! _); discriminate.
    + exfalso. destruct p; cbn in Hp; try discriminate;
        destruct (_ !! _); discriminate.
Qed.

Lemma sample_bird_loaded (x y : Z) : loaded 3 (sample_bird x y).
Proof.
  split; [reflexivity|]. split; [reflexivity|].
  split; [unfold MAX_VIEWS; lia|]. loaded_views.
Qed.

Lemma register_entity_appends_witness :
  (exists gs' w',
      register_entity (sample_game TITLE_SCREEN (sample_bird 50 30) 0) RefBird
                      sample_world = Ret (gs', w')
      /\ GameState.entities gs'
         = GameState.entities (sample_game TITLE_SCREEN (sample_bird 50 30) 0)
           ++ [RefBird]
      /\ length (out w') = 19%nat)
  /\ register_entity crowded_game RefBird sample_world = Undef.
Proof.
  split.
  - destruct (proj1 (register_entity_appends
                       (sample_game TITLE_SCREEN (sample_bird 50 30) 0)
                       RefBird sample_world)
                (sample_bird 50 30) 3 eq_refl (sample_bird_loaded 50 30))
      as (gs' & w' & Hrun & He & _ & _ & Ho & Hl).
    + vm_compute. lia.
    + exists gs', w'. split; [exact Hrun|]. split; [exact He|].
      rewrite Ho. cbn [out sample_world app]. rewrite Hl. reflexivity.
  - apply (proj2 (register_entity_appends crowded_game RefBird sample_world)).
    vm_compute. discriminate.
Defined.

(** ** Loading files in turn *)

Lemma loads_ret {A} fs (a : A) (Q : A -> Prop) : Q a -> loads fs [] (ret a) Q.
Proof.
  intros H w _. left. split; [constructor|].
  exists a, []. rewrite with_out_nil. auto.
Qed.

Lemma loads_printf fs (fmt : string) (args : list PrintArg) :
  loads fs [] (printf fmt args) (fun _ => True).
Proof.
  intros w _. left. split; [constructor|].
  exists tt, [EvPrintf fmt args]. auto.
Qed.

Lemma loads_lift {A} fs (a : A) : loads fs [] (lift (Ret a)) (eq a).
Proof.
  intros w _. left. split; [constructor|].
  exists a, []. rewrite with_out_nil. auto.
Qed.

Lemma loads_bind {A B} fs (n1 n2 names : list string) (P : A -> Prop)
  (m : M A) (k : A -> M B) (Q : B -> Prop) :
  names = n1 ++ n2 ->
  loads fs n1 m P ->
  (forall a, Forall (file_ok fs) n1 -> P a -> loads fs n2 (k a) Q) ->
  loads fs names (bind m k) Q.
Proof.
  intros -> Hm Hk w Hw. unfold bind.
  destruct (Hm w Hw)
    as [[Hok (a & o & Hr & HP)]|(pre & name & post & console & Hn & Hpre & Hbad & Hr)].
  - rewrite Hr. cbn [res_bind fst snd].
    destruct (Hk a Hok HP (with_out w (out w ++ o)) Hw)
      as [[Hok2 (b & o2 & Hr2 & HQ)]
         |(pre & name & post & console & Hn & Hpre & Hbad & Hr2)].
    + left. split; [apply Forall_app; auto|].
      exists b, (o ++ o2). rewrite Hr2, with_out_app. auto.
    + right. exists (n1 ++ pre), name, post, console.
      split; [rewrite Hn, app_assoc; reflexivity|].
      split; [apply Forall_app; auto|]. auto.
  - right. exists pre, name, (post ++ n2), console.
    split; [rewrite Hn, <- app_assoc; reflexivity|].
    split; [exact Hpre|]. split; [exact Hbad|].
    rewrite Hr. reflexivity.
Qed.

(** The rule for a first part that loads no file. *)
Lemma loads_then {A B} fs (names : list string) (P : A -> Prop)
  (m : M A) (k : A -> M B) (Q : B -> Prop) :
  loads fs [] m P ->
  (forall a, P a -> loads fs names (k a) Q) ->
  loads fs names (bind m k) Q.
Proof.
  intros Hm Hk. apply (loads_bind fs [] names names P); [reflexivity|exact Hm|].
  intros a _. apply Hk.
Qed.

Lemma file_ok_view fs (name : string) :
  file_ok fs name -> loaded_view (view_of fs name).
Proof.
  intros (width & height & ox & oy & body & E). unfold view_of. rewrite E.
  destruct (read_display_spec body) as (text & Hr & Hclean & _).
  exists text. split; [exact Hr|].
  apply (Forall_impl _ _ _ Hclean). intros c [Hc _]. exact Hc.
Qed.

Lemma loaded_with_view fs (name : string) (n : Z) (e : Entity.t) :
  file_ok fs name -> loaded n e -> n < MAX_VIEWS ->
  loaded (n + 1) (with_view fs name e).
Proof.
  intros Hok (Hlen & Hn & Hr & Hviews) Hlt. unfold with_view. subst n.
  split; [cbn [Entity.views Entity.set_num_views Entity.set_views];
          rewrite length_insert; exact Hlen|].
  split; [reflexivity|]. split; [lia|].
  intros k v Hk Hv. cbn [Entity.views Entity.set_num_views Entity.set_views] in Hv.
  destruct (decide (k = Z.to_nat (Entity.num_views e))) as [->|Hne].
  - rewrite list_lookup_insert_eq in Hv by (unfold MAX_VIEWS in *; lia).
    injection Hv as <-. apply file_ok_view, Hok.
  - rewrite list_lookup_insert_ne in Hv by congruence.
    apply (Hviews k v); [lia|exact Hv].
Qed.

Lemma loads_add fs (e : Entity.t) (name : string) (n : Z) :
  loaded n e -> n < MAX_VIEWS ->
  loads fs [name] (add_entity_view_from_file e name) (eq (with_view fs name e)).
Proof.
  intros (Hlen & Hn & Hr & _) Hlt w Hw.
  destruct (fs name) as [| | |width height ox oy body] eqn:E.
  4:{ left. split.
      { constructor; [|constructor]. exists width, height, ox, oy, body. exact E. }
      rewrite (add_entity_view_from_file_loads e name w width height ox oy body);
        [|rewrite Hw; exact E|lia|exact Hlen].
      eexists _, _. split; [reflexivity|].
      unfold with_view, view_of. rewrite E. reflexivity. }
  all: right; exists [], name, [], (out w);
    (split; [reflexivity|]); (split; [constructor|]);
    (split; [intros (? & ? & ? & ? & ? & Hok); congruence|]);
    unfold add_entity_view_from_file, load_error; rewrite Hw, E; reflexivity.
Qed.

Lemma loads_register fs (gs : GameState.t) (p : EntityRef) (e : Entity.t)
  (n : Z) :
  GameState.deref gs p = Ret e -> loaded n e ->
  (length (GameState.entities gs) < Z.to_nat MAX_ENTITIES)%nat ->
  loads fs [] (register_entity gs p) (eq (registered p gs)).
Proof.
  intros Hp Hl Hlen w _. left. split; [constructor|].
  rewrite (register_entity_run gs p e n w Hp Hl Hlen). eauto.
Qed.

Lemma create_entity_loaded : loaded 0 create_entity.
Proof.
  split; [reflexivity|]. split; [reflexivity|]. split; [unfold MAX_VIEWS; lia|].
  intros k v Hk. cbn in Hk. lia.
Qed.

Lemma zero_entity_loaded : loaded 0 Entity.zero.
Proof. exact create_entity_loaded. Qed.

(** ** Creating an obstacle *)

Lemma loads_create_obstacle fs (gs : GameState.t) (x y gap_size : Z) :
  (length (GameState.obstacles gs) < Z.to_nat MAX_OBSTACLES)%nat ->
  (length (GameState.entities gs) + 2 <= Z.to_nat MAX_ENTITIES)%nat ->
  loads fs ["obstacle_top.entity"; "obstacle_bottom.entity"]%string
        (create_obstacle gs x y gap_size)
        (eq (obstacle_created fs x y gap_size gs)).
Proof.
  intros Hobs Hent. unfold create_obstacle. cbv zeta.
  apply (loads_bind fs ["obstacle_top.entity"%string]
                    ["obstacle_bottom.entity"%string] _
                    (eq (with_view fs "obstacle_top.entity" create_entity)));
    [reflexivity|apply (loads_add fs _ _ 0 create_entity_loaded); unfold MAX_VIEWS; lia|].
  intros top Hok1 <-.
  apply (loads_bind fs ["obstacle_bottom.entity"%string] [] _
                    (eq (with_view fs "obstacle_bottom.entity" create_entity)));
    [reflexivity|apply (loads_add fs _ _ 0 create_entity_loaded); unfold MAX_VIEWS; lia|].
  intros bottom Hok2 <-.
  apply Forall_inv in Hok1, Hok2.
  replace (GameState.obstacle_count gs <? MAX_OBSTACLES) with true
    by (symmetry; apply Z.ltb_lt;
        unfold GameState.obstacle_count, MAX_OBSTACLES in *; lia).
  set (top := with_view fs "obstacle_top.entity" create_entity).
  set (bottom := with_view fs "obstacle_bottom.entity" create_entity).
  set (g0 := GameState.set_obstacles _ gs).
  assert (Hlook : GameState.obstacles g0 !! length (GameState.obstacles gs)
                  = Some (Obstacle.mk x y gap_size top bottom false)).
  { subst g0. cbn [GameState.obstacles GameState.set_obstacles].
    rewrite lookup_app_r by lia. rewrite Nat.sub_diag. reflexivity. }
  apply (loads_then fs []
           (eq (registered (RefObstacleTop (length (GameState.obstacles gs))) g0))).
  { apply (loads_register fs g0 _ top 1).
    - cbn [GameState.deref]. rewrite Hlook. reflexivity.
    - apply (loaded_with_view fs _ 0); [exact Hok1|apply create_entity_loaded|].
      unfold MAX_VIEWS. lia.
    - subst g0. cbn [GameState.entities GameState.set_obstacles]. lia. }
  intros g1 <-.
  apply (loads_then fs []
           (eq (registered (RefObstacleBottom (length (GameState.obstacles gs)))
                  (registered (RefObstacleTop (length (GameState.obstacles gs)))
                              g0)))).
  { apply (loads_register fs _ _ bottom 1).
    - cbn [GameState.deref]. unfold registered at 1.
      cbn [GameState.obstacles set_entities]. rewrite Hlook. reflexivity.
    - apply (loaded_with_view fs _ 0); [exact Hok2|apply create_entity_loaded|].
      unfold MAX_VIEWS. lia.
    - unfold registered. subst g0.
      cbn [GameState.entities GameState.set_obstacles set_entities].
      rewrite length_app. cbn [length]. lia. }
  intros g2 <-. apply loads_ret. reflexivity.
Qed.





(** ** Creating the score counter *)

Lemma with_digit_ext (k : nat) (f g : Entity.t -> Entity.t) (gs : GameState.t)
  (d : Entity.t) :
  ScoreCounter.digits (GameState.score_counter gs) !! k = Some d ->
  f d = g d -> with_digit k f gs = with_digit k g gs.
Proof.
  intros Hd Hfg. unfold with_digit. cbv zeta.
  rewrite (alter_as_insert f k _ d Hd), (alter_as_insert g k _ d Hd), Hfg.
  reflexivity.
Qed.

Lemma with_digit_compose (k : nat) (f g : Entity.t -> Entity.t)
  (gs : GameState.t) :
  with_digit k f (with_digit k g gs) = with_digit k (f ∘ g) gs.
Proof.
  unfold with_digit. cbv zeta.
  cbn [GameState.score_counter GameState.set_score_counter
       ScoreCounter.digits ScoreCounter.set_digits].
  rewrite list_alter_alter_eq. reflexivity.
Qed.

Lemma with_digit_id (k : nat) (gs : GameState.t) :
  with_digit k (fun d => d) gs = gs.
Proof.
  unfold with_digit. cbv zeta. rewrite list_alter_id by reflexivity.
  destruct gs as [b es os p st t s sc q]. destruct sc. reflexivity.
Qed.

Lemma with_digit_lookup (k : nat) (f : Entity.t -> Entity.t) (gs : GameState.t)
  (j : nat) :
  ScoreCounter.digits (GameState.score_counter (with_digit k f gs)) !! j
  = if decide (j = k)
    then f <$> ScoreCounter.digits (GameState.score_counter gs) !! j
    else ScoreCounter.digits (GameState.score_counter gs) !! j.
Proof.
  unfold with_digit. cbv zeta.
  cbn [GameState.score_counter GameState.set_score_counter
       ScoreCounter.digits ScoreCounter.set_digits].
  destruct (decide (j = k)) as [->|Hne].
  - apply list_lookup_alter_eq.
  - apply list_lookup_alter_ne. congruence.
Qed.

Lemma digit_at_some (gs : GameState.t) (k : nat) (d : Entity.t) :
  ScoreCounter.digits (GameState.score_counter gs) !! k = Some d ->
  digit_at gs k = lift (Ret d).
Proof. intros H. unfold digit_at. rewrite H. reflexivity. Qed.

Lemma loads_load_digit_view fs (k : nat) (i : Z) (gs : GameState.t)
  (d : Entity.t) (n : Z) :
  ScoreCounter.digits (GameState.score_counter gs) !! k = Some d ->
  loaded n d -> n < MAX_VIEWS ->
  loads fs [digit_filename i] (load_digit_view k i gs)
        (eq (with_digit k (with_view fs (digit_filename i)) gs)).
Proof.
  intros Hd Hl Hn. unfold load_digit_view. rewrite (digit_at_some gs k d Hd).
  apply (loads_then fs _ (eq d)); [apply loads_lift|]. intros ? <-.
  apply (loads_bind fs [digit_filename i] [] _
                    (eq (with_view fs (digit_filename i) d)));
    [reflexivity|apply (loads_add fs d _ n Hl Hn)|].
  intros ? _ <-. apply loads_ret.
  apply (with_digit_ext k _ _ gs d Hd). reflexivity.
Qed.

Lemma loads_digit_views fs (k : nat) (idxs : list Z) :
  forall (gs : GameState.t) (d : Entity.t) (n : Z),
    ScoreCounter.digits (GameState.score_counter gs) !! k = Some d ->
    loaded n d -> n + Z.of_nat (length idxs) <= MAX_VIEWS ->
    loads fs (map digit_filename idxs)
          (for_each idxs (load_digit_view k) gs)
          (eq (with_digit k
                 (fun d => fold_left (fun e i => with_view fs (digit_filename i) e)
                                     idxs d)
                 gs)).
Proof.
  induction idxs as [|i idxs IH]; intros gs d n Hd Hl Hn; cbn [for_each map].
  - apply loads_ret. cbn [fold_left]. apply with_digit_id.
  - cbn [length] in Hn.
    apply (loads_bind fs [digit_filename i] (map digit_filename idxs) _
                      (eq (with_digit k (with_view fs (digit_filename i)) gs)));
      [reflexivity|apply (loads_load_digit_view fs k i gs d n Hd Hl); lia|].
    intros g Hok <-. apply Forall_inv in Hok.
    assert (Hd1 : ScoreCounter.digits
                    (GameState.score_counter
                       (with_digit k (with_view fs (digit_filename i)) gs)) !! k
                  = Some (with_view fs (digit_filename i) d)).
    { rewrite with_digit_lookup. rewrite decide_True by reflexivity.
      rewrite Hd. reflexivity. }
    pose proof (IH _ _ (n + 1) Hd1
                   (loaded_with_view fs _ n d Hok Hl ltac:(lia)) ltac:(lia))
      as Hrest.
    rewrite with_digit_compose in Hrest. exact Hrest.
Qed.

Lemma digit_glyphs_loaded fs (d : Entity.t) :
  loaded 0 d ->
  fold_left (fun e i => with_view fs (digit_filename i) e)
            (map Z.of_nat (seq 0 10)) d
  = Entity.set_num_views 10 (Entity.set_views (digit_views fs) d).
Proof.
  intros (Hlen & Hn & _). destruct d as [x y n c vs vis].
  cbn [Entity.views Entity.num_views] in Hlen, Hn. subst n.
  do 10 (destruct vs as [|? vs]; [discriminate|]).
  destruct vs; [|discriminate]. reflexivity.
Qed.

Lemma digit_views_loaded fs (d : Entity.t) :
  Forall (file_ok fs) digit_names ->
  length (Entity.views d) = Z.to_nat MAX_VIEWS ->
  loaded 10 (Entity.set_num_views 10 (Entity.set_views (digit_views fs) d)).
Proof.
  intros Hok Hlen. split; [reflexivity|]. split; [reflexivity|].
  split; [unfold MAX_VIEWS; lia|].
  intros k v _ Hv. cbn [Entity.views Entity.set_num_views Entity.set_views] in Hv.
  unfold digit_views in Hv. rewrite list_lookup_fmap in Hv.
  destruct (digit_names !! k) as [name|] eqn:E; [|discriminate].
  injection Hv as <-. apply file_ok_view.
  apply (Forall_lookup_1 _ _ _ _ Hok E).
Qed.

Lemma loads_create_digit fs (x y : Z) (k : nat) (gs : GameState.t)
  (d : Entity.t) :
  ScoreCounter.digits (GameState.score_counter gs) !! k = Some d ->
  loaded 0 d ->
  (length (GameState.entities gs) < Z.to_nat MAX_ENTITIES)%nat ->
  loads fs digit_names (create_digit x y k gs) (eq (digit_created fs x y k gs)).
Proof.
  intros Hd Hl Hlen. unfold create_digit.
  apply (loads_bind fs digit_names [] _
           (eq (with_digit k
                  (fun d => fold_left
                              (fun e i => with_view fs (digit_filename i) e)
                              (map Z.of_nat (seq 0 10)) d)
                  gs)));
    [rewrite app_nil_r; reflexivity
    |apply (loads_digit_views fs k _ gs d 0 Hd Hl); unfold MAX_VIEWS; cbn; lia|].
  intros g Hok <-. cbv zeta.
  rewrite (with_digit_ext k
             (fun d => fold_left
                         (fun e i => with_view fs (digit_filename i) e)
                         (map Z.of_nat (seq 0 10)) d)
             (fun d => Entity.set_num_views 10
                         (Entity.set_views (digit_views fs) d))
             gs d Hd (digit_glyphs_loaded fs d Hl)).
  rewrite !with_digit_compose.
  set (loaded_d := Entity.set_num_views 10 (Entity.set_views (digit_views fs) d)).
  assert (Hd1 : ScoreCounter.digits
                  (GameState.score_counter
                     (with_digit k
                        (Entity.set_visible true
                         ∘ (fun d => Entity.set_num_views 10
                                       (Entity.set_views (digit_views fs) d)))
                        gs)) !! k
                = Some (Entity.set_visible true loaded_d)).
  { rewrite with_digit_lookup, decide_True by reflexivity. rewrite Hd. reflexivity. }
  rewrite (digit_at_some _ k _ Hd1).
  apply (loads_then fs _ (eq (Entity.set_visible true loaded_d)));
    [apply loads_lift|]. intros ? <-.
  apply (loads_then fs _ (eq (view_of fs "0.entity"))); [apply loads_lift|].
  intros ? <-.
  rewrite !with_digit_compose.
  apply (loads_register fs _ _ (digit_built fs x y k d) 10).
  - cbn [GameState.deref]. rewrite with_digit_lookup, decide_True by reflexivity.
    rewrite Hd. reflexivity.
  - apply (digit_views_loaded fs d Hok). apply Hl.
  - exact Hlen.
Qed.

Lemma loads_lift_ret {A} fs (r : Res A) (a : A) (Q : A -> Prop) :
  r = Ret a -> Q a -> loads fs [] (lift r) Q.
Proof.
  intros -> HQ w _. left. split; [constructor|].
  exists a, []. rewrite with_out_nil. auto.
Qed.

Lemma digit_created_digits fs (x y : Z) (k : nat) (gs : GameState.t) (j : nat) :
  ScoreCounter.digits (GameState.score_counter (digit_created fs x y k gs)) !! j
  = if decide (j = k)
    then digit_built fs x y k
           <$> ScoreCounter.digits (GameState.score_counter gs) !! j
    else ScoreCounter.digits (GameState.score_counter gs) !! j.
Proof. unfold digit_created, registered. apply with_digit_lookup. Qed.

Lemma loads_create_digits fs (x y : Z) (ks : list nat) :
  forall gs : GameState.t,
    NoDup ks ->
    (forall k, k ∈ ks ->
       exists d, ScoreCounter.digits (GameState.score_counter gs) !! k = Some d
                 /\ loaded 0 d) ->
    (length (GameState.entities gs) + length ks <= Z.to_nat MAX_ENTITIES)%nat ->
    loads fs (flat_map (fun _ => digit_names) ks)
          (for_each ks (create_digit x y) gs)
          (eq (fold_left (fun g k => digit_created fs x y k g) ks gs)).
Proof.
  induction ks as [|k ks IH]; intros gs Hnd Hds Hlen; cbn [for_each flat_map fold_left].
  - apply loads_ret. reflexivity.
  - cbn [length] in Hlen. apply NoDup_cons in Hnd as [Hk Hnd].
    destruct (Hds k ltac:(left)) as (d & Hd & Hl).
    apply (loads_bind fs digit_names (flat_map (fun _ => digit_names) ks) _
                      (eq (digit_created fs x y k gs)));
      [reflexivity|apply (loads_create_digit fs x y k gs d Hd Hl); lia|].
    intros g _ <-. apply IH; [exact Hnd| |].
    + intros k' Hk'. rewrite digit_created_digits.
      rewrite decide_False by (intros ->; contradiction).
      apply Hds. right. exact Hk'.
    + unfold digit_created, registered, with_digit. cbv zeta.
      cbn [GameState.entities set_entities GameState.set_score_counter].
      rewrite length_app. cbn [length]. lia.
Qed.

Lemma digits_created_frame fs (x y : Z) (ks : list nat) :
  forall gs : GameState.t,
    let gs' := fold_left (fun g k => digit_created fs x y k g) ks gs in
    GameState.score gs' = GameState.score gs
    /\ length (ScoreCounter.digits (GameState.score_counter gs'))
       = length (ScoreCounter.digits (GameState.score_counter gs))
    /\ GameState.entities gs' = GameState.entities gs ++ map RefDigit ks
    /\ GameState.obstacles gs' = GameState.obstacles gs
    /\ GameState.bird gs' = GameState.bird gs
    /\ GameState.title_text gs' = GameState.title_text gs
    /\ GameState.press_space_to_start gs' = GameState.press_space_to_start gs
    /\ GameState.screen_type gs' = GameState.screen_type gs
    /\ GameState.quit gs' = GameState.quit gs.
Proof.
  induction ks as [|k ks IH]; intros gs; cbn [fold_left map].
  - cbv zeta. rewrite app_nil_r. repeat split.
  - specialize (IH (digit_created fs x y k gs)). cbv zeta in IH |- *.
    destruct IH as (H1 & H2 & H3 & H4 & H5 & H6 & H7 & H8 & H9).
    rewrite H1, H2, H3, H4, H5, H6, H7, H8, H9.
    unfold digit_created, registered, with_digit. cbv zeta.
    cbn [GameState.score GameState.entities GameState.obstacles GameState.bird
         GameState.title_text GameState.press_space_to_start
         GameState.screen_type GameState.quit GameState.score_counter
         set_entities GameState.set_score_counter ScoreCounter.digits
         ScoreCounter.set_digits].
    rewrite length_alter, <- app_assoc. repeat split.
Qed.

Lemma loads_create_score_counter fs (gs : GameState.t) (x y : Z) :
  Forall blank_digit (ScoreCounter.digits (GameState.score_counter gs)) ->
  length (ScoreCounter.digits (GameState.score_counter gs))
  = Z.to_nat SCORE_COUNTER_DIGITS ->
  (length (GameState.entities gs) + 5 <= Z.to_nat MAX_ENTITIES)%nat ->
  0 <= GameState.score gs < 10 ^ 5 ->
  loads fs (flat_map (fun _ => digit_names) (seq 0 5))
        (create_score_counter gs x y)
        (fun gs' => update_score_counter (digits_created fs x y gs) = Ret gs').
Proof.
  intros Hblank Hlen Hent Hscore. unfold create_score_counter.
  apply (loads_bind fs (flat_map (fun _ => digit_names) (seq 0 5)) [] _
                    (eq (digits_created fs x y gs)));
    [rewrite app_nil_r; reflexivity| |].
  - apply loads_create_digits; [apply NoDup_seq| |rewrite length_seq; exact Hent].
    intros k Hk. apply elem_of_seq in Hk.
    destruct (lookup_lt_is_Some_2
                (ScoreCounter.digits (GameState.score_counter gs)) k) as [d Hd].
    { rewrite Hlen. unfold SCORE_COUNTER_DIGITS in *. lia. }
    exists d. split; [exact Hd|].
    apply (Forall_lookup_1 _ _ _ _ Hblank Hd).
  - intros g _ <-.
    destruct (digits_created_frame fs x y (seq 0 (Z.to_nat SCORE_COUNTER_DIGITS)) gs)
      as (Hs & Hl & _).
    fold (digits_created fs x y gs) in Hs, Hl.
    destruct (update_score_counter_digits (digits_created fs x y gs))
      as (ds & Hrun & _).
    { rewrite Hs. exact Hscore. }
    { rewrite Hl, Hlen. reflexivity. }
    apply (loads_lift_ret fs _ _ _ Hrun). exact Hrun.
Qed.

Lemma digits_created_lookup fs (x y : Z) (ks : list nat) :
  forall (gs : GameState.t) (j : nat),
    NoDup ks ->
    ScoreCounter.digits
      (GameState.score_counter
         (fold_left (fun g k => digit_created fs x y k g) ks gs)) !! j
    = if bool_decide (j ∈ ks)
      then digit_built fs x y j
             <$> ScoreCounter.digits (GameState.score_counter gs) !! j
      else ScoreCounter.digits (GameState.score_counter gs) !! j.
Proof.
  induction ks as [|k ks IH]; intros gs j Hnd; cbn [fold_left].
  - rewrite bool_decide_eq_false_2 by apply not_elem_of_nil. reflexivity.
  - apply NoDup_cons in Hnd as [Hk Hnd]. rewrite IH by exact Hnd.
    rewrite digit_created_digits.
    destruct (decide (j = k)) as [->|Hne].
    + rewrite (bool_decide_eq_false_2 _ Hk).
      rewrite bool_decide_eq_true_2 by left. reflexivity.
    + destruct (bool_decide (j ∈ ks)) eqn:E.
      * apply bool_decide_eq_true_1 in E.
        rewrite bool_decide_eq_true_2 by (right; exact E). reflexivity.
      * apply bool_decide_eq_false_1 in E.
        rewrite bool_decide_eq_false_2; [reflexivity|].
        intros Hin. apply elem_of_cons in Hin as [?|?]; contradiction.
Qed.


Lemma fails_not_all {A} fs (names : list string) (r : Res (A * World)) :
  fails_at fs names r -> ~ Forall (file_ok fs) names.
Proof.
  intros (pre & name & post & console & -> & _ & Hbad & _) Hall.
  apply Hbad. apply Forall_app in Hall as [_ Hall].
  apply Forall_cons in Hall as [H _]. exact H.
Qed.

(** The score counter once its digits are created and the score is shown. *)
Lemma digits_created_updated fs (gs gs' : GameState.t) (x y : Z) :
  Forall blank_digit (ScoreCounter.digits (GameState.score_counter gs)) ->
  length (ScoreCounter.digits (GameState.score_counter gs))
  = Z.to_nat SCORE_COUNTER_DIGITS ->
  0 <= GameState.score gs < 10 ^ 5 ->
  Forall (file_ok fs) digit_names ->
  update_score_counter (digits_created fs x y gs) = Ret gs' ->
  GameState.entities gs'
  = GameState.entities gs
    ++ [RefDigit 0; RefDigit 1; RefDigit 2; RefDigit 3; RefDigit 4]
  /\ length (ScoreCounter.digits (GameState.score_counter gs')) = 5%nat
  /\ (forall (k : nat) (d' : Entity.t),
        ScoreCounter.digits (GameState.score_counter gs') !! k = Some d' ->
        Entity.num_views d' = 10
        /\ Entity.views d' = digit_views fs
        /\ Entity.x d'
           = CInt.sub x
               (CInt.mul (Z.of_nat k)
                  (CInt.add (EntityView.width (view_of fs "0.entity")) 1))
        /\ Entity.y d' = y
        /\ (Entity.visible d' = true <-> (k < num_digits (GameState.score gs))%nat)
        /\ (Entity.visible d' = true ->
            Entity.current_view d' = digit_of (GameState.score gs) k)
        /\ shown d')
  /\ GameState.score gs' = GameState.score gs
  /\ GameState.obstacles gs' = GameState.obstacles gs
  /\ GameState.bird gs' = GameState.bird gs
  /\ GameState.title_text gs' = GameState.title_text gs
  /\ GameState.press_space_to_start gs' = GameState.press_space_to_start gs
  /\ GameState.screen_type gs' = GameState.screen_type gs
  /\ GameState.quit gs' = GameState.quit gs.
Proof.
  intros Hblank Hlen Hscore Hok Hup.
  destruct (digits_created_frame fs x y
              (seq 0 (Z.to_nat SCORE_COUNTER_DIGITS)) gs)
    as (Hs & Hl & He & Ho & Hb & Ht & Hp & Hst & Hq).
  fold (digits_created fs x y gs) in Hs, Hl, He, Ho, Hb, Ht, Hp, Hst, Hq.
  destruct (update_score_counter_digits (digits_created fs x y gs))
    as (ds & Hrun & Hdl & Hlook).
  { rewrite Hs. exact Hscore. }
  { rewrite Hl, Hlen. reflexivity. }
  rewrite Hrun in Hup. injection Hup as <-.
  cbn [GameState.entities GameState.set_score_counter GameState.score_counter
       ScoreCounter.digits ScoreCounter.set_digits GameState.score
       GameState.obstacles GameState.bird GameState.title_text
       GameState.press_space_to_start GameState.screen_type GameState.quit].
  split; [exact He|]. split; [exact Hdl|].
  split; [|auto 10].
  intros k d' Hd'. rewrite Hlook, Hs in Hd'.
  unfold digits_created in Hd'.
  rewrite digits_created_lookup in Hd' by apply NoDup_seq.
  destruct (ScoreCounter.digits (GameState.score_counter gs) !! k) as [d|] eqn:Hd.
  2:{ destruct (bool_decide _); discriminate. }
  pose proof (lookup_lt_Some _ _ _ Hd) as Hk. rewrite Hlen in Hk.
  rewrite bool_decide_eq_true_2 in Hd' by (apply elem_of_seq; lia).
  destruct (Forall_lookup_1 _ _ _ _ Hblank Hd) as [Hld Hcur].
  pose proof (digit_views_loaded fs d Hok (proj1 Hld)) as Hl10.
  cbn [fmap option_fmap option_map] in Hd'.
  destruct (k <? num_digits (GameState.score gs))%nat eqn:Ek;
    injection Hd' as <-.
  - apply Nat.ltb_lt in Ek.
    assert (Hdig : 0 <= digit_of (GameState.score gs) k < 10)
      by (unfold digit_of; apply Z.mod_pos_bound; lia).
    do 4 (split; [reflexivity|]).
    split; [split; auto|]. split; [reflexivity|].
    split; [exact Hl10|exact Hdig].
  - apply Nat.ltb_ge in Ek.
    do 4 (split; [reflexivity|]).
    split; [split; [discriminate|lia]|]. split; [discriminate|].
    split; [exact Hl10|]. cbn. rewrite Hcur. lia.
Qed.



Lemma zero_digits_blank :
  Forall blank_digit
         (ScoreCounter.digits (GameState.score_counter zero_game_state)).
Proof.
  cbn. repeat (constructor; [split; [exact zero_entity_loaded|reflexivity]|]).
  constructor.
Qed.


(** ** Loading the game *)

Lemma loads_main fs :
  loads fs main_assets main_load
        (fun gs' => update_score_counter (loaded_game fs) = Ret gs').
Proof.
  unfold main_load.
  apply (loads_then fs _ (fun _ => True)); [apply loads_printf|]. intros _ _.
  apply (loads_then fs _ (fun _ => True)); [apply loads_printf|]. intros _ _.
  cbv zeta.
  (* the title text *)
  apply (loads_bind fs ["not_flappy_bird.entity"%string] (tl main_assets) _
           (eq (with_view fs "not_flappy_bird.entity"
                  (Entity.set_y (Z.quot SCREEN_HEIGHT 2)
                     (Entity.set_x (Z.quot SCREEN_WIDTH 2) create_entity)))));
    [reflexivity
    |apply (loads_add fs _ _ 0); [exact create_entity_loaded|unfold MAX_VIEWS; lia]|].
  intros title Hok <-. apply Forall_inv in Hok.
  apply (loads_then fs _
           (eq (registered RefTitleText
                  (GameState.set_title_text
                     (with_view fs "not_flappy_bird.entity"
                        (Entity.set_y (Z.quot SCREEN_HEIGHT 2)
                           (Entity.set_x (Z.quot SCREEN_WIDTH 2) create_entity)))
                     (GameState.set_screen_type TITLE_SCREEN
                        (set_entities [] zero_game_state)))))).
  { eapply loads_register; [reflexivity| |vm_compute; lia].
    apply (loaded_with_view fs _ 0 _ Hok); [exact create_entity_loaded|].
    unfold MAX_VIEWS. lia. }
  intros g <-. clear Hok.
  (* the scrolling text *)
  apply (loads_bind fs ["press_space_to_start.entity"%string]
           (tl (tl main_assets)) _
           (eq (with_view fs "press_space_to_start.entity" create_entity)));
    [reflexivity
    |apply (loads_add fs _ _ 0); [exact create_entity_loaded|unfold MAX_VIEWS; lia]|].
  intros text Hok <-. apply Forall_inv in Hok.
  apply (loads_then fs _ (eq (view_of fs "press_space_to_start.entity")));
    [apply (loads_lift_ret fs _ (view_of fs "press_space_to_start.entity"));
     reflexivity|].
  intros view0 <-.
  match goal with
  | |- loads _ _ (bind (register_entity ?G _) _) _ =>
      apply (loads_then fs _ (eq (registered RefPressSpaceToStart G)))
  end.
  { eapply loads_register; [reflexivity| |vm_compute; lia].
    apply (loaded_with_view fs _ 0 _ Hok); [exact create_entity_loaded|].
    unfold MAX_VIEWS. lia. }
  intros g <-. clear Hok.
  (* the obstacles *)
  match goal with
  | |- loads _ _ (bind (create_obstacle ?G ?x ?y ?gap) _) _ =>
      apply (loads_bind fs ["obstacle_top.entity"; "obstacle_bottom.entity"]%string
               (tl (tl (tl (tl main_assets)))) _
               (eq (obstacle_created fs x y gap G)));
      [reflexivity|apply loads_create_obstacle; vm_compute; lia|]
  end.
  intros g _ <-.
  match goal with
  | |- loads _ _ (bind (create_obstacle ?G ?x ?y ?gap) _) _ =>
      apply (loads_bind fs ["obstacle_top.entity"; "obstacle_bottom.entity"]%string
               (tl (tl (tl (tl (tl (tl main_assets)))))) _
               (eq (obstacle_created fs x y gap G)));
      [reflexivity|apply loads_create_obstacle; vm_compute; lia|]
  end.
  intros g _ <-.
  match goal with
  | |- loads _ _ (bind (create_obstacle ?G ?x ?y ?gap) _) _ =>
      apply (loads_bind fs ["obstacle_top.entity"; "obstacle_bottom.entity"]%string
               (tl (tl (tl (tl (tl (tl (tl (tl main_assets)))))))) _
               (eq (obstacle_created fs x y gap G)));
      [reflexivity|apply loads_create_obstacle; vm_compute; lia|]
  end.
  intros g _ <-.
  (* the bird *)
  apply (loads_bind fs ["bird_0.entity"%string]
           (tl (tl (tl (tl (tl (tl (tl (tl (tl main_assets))))))))) _
           (eq (with_view fs "bird_0.entity" create_entity)));
    [reflexivity
    |apply (loads_add fs _ _ 0); [exact create_entity_loaded|unfold MAX_VIEWS; lia]|].
  intros e0 Hok0 <-. apply Forall_inv in Hok0.
  pose proof (loaded_with_view fs _ 0 _ Hok0 create_entity_loaded
                ltac:(unfold MAX_VIEWS; lia)) as Hl1.
  apply (loads_bind fs ["bird_1.entity"%string]
           (tl (tl (tl (tl (tl (tl (tl (tl (tl (tl main_assets)))))))))) _
           (eq (with_view fs "bird_1.entity"
                  (with_view fs "bird_0.entity" create_entity))));
    [reflexivity
    |apply (loads_add fs _ _ (0 + 1)); [exact Hl1|unfold MAX_VIEWS; lia]|].
  intros e1 Hok1 <-. apply Forall_inv in Hok1.
  pose proof (loaded_with_view fs _ _ _ Hok1 Hl1
                ltac:(unfold MAX_VIEWS; lia)) as Hl2.
  apply (loads_bind fs ["bird_2.entity"%string]
           (flat_map (fun _ => digit_names) (seq 0 5)) _
           (eq (with_view fs "bird_2.entity"
                  (with_view fs "bird_1.entity"
                     (with_view fs "bird_0.entity" create_entity)))));
    [reflexivity
    |apply (loads_add fs _ _ (0 + 1 + 1)); [exact Hl2|unfold MAX_VIEWS; lia]|].
  intros e2 Hok2 <-. apply Forall_inv in Hok2.
  pose proof (loaded_with_view fs _ _ _ Hok2 Hl2
                ltac:(unfold MAX_VIEWS; lia)) as Hl3.
  match goal with
  | |- loads _ _ (bind (register_entity ?G _) _) _ =>
      apply (loads_then fs _ (eq (registered RefBird G)))
  end.
  { eapply loads_register; [reflexivity|exact Hl3|vm_compute; lia]. }
  intros g <-.
  (* the score counter *)
  apply (loads_bind fs (flat_map (fun _ => digit_names) (seq 0 5)) [] _
           (fun gs' => update_score_counter (loaded_game fs) = Ret gs'));
    [rewrite app_nil_r; reflexivity| |].
  { apply loads_create_score_counter.
    - exact zero_digits_blank.
    - reflexivity.
    - vm_compute. lia.
    - cbn. lia. }
  intros gs' _ Hgs'.
  apply (loads_then fs _ (fun _ => True)); [apply loads_printf|]. intros _ _.
  apply loads_ret. exact Hgs'.
Qed.

Lemma loaded_shown (n : Z) (e : Entity.t) :
  loaded n e -> 0 <= Entity.current_view e < n -> shown e.
Proof.
  intros Hl Hc. pose proof Hl as (_ & Hn & _). subst n. split; assumption.
Qed.

(** X13.  The loading part of [main], when every asset loads: it returns a
    well-formed game state on the title screen with score 0, in which the
    title text, the scrolling text, the two parts of each of the three
    obstacles, the bird and the five digits are registered in this order,
    14 pointers for 25 places; the obstacles stand at (150, 40), (240, 30)
    and (60, 50) with gaps 8, 9 and 10; the bird has its three views and
    shows the first; and no digit of the counter is visible. *)
Theorem main_load_builds (w : World) :
  Forall (file_ok (files w)) main_assets ->
  exists gs w',
    main_load w = Ret (gs, w')
    /\ wf gs
    /\ GameState.entities gs
       = [RefTitleText; RefPressSpaceToStart;
          RefObstacleTop 0; RefObstacleBottom 0;
          RefObstacleTop 1; RefObstacleBottom 1;
          RefObstacleTop 2; RefObstacleBottom 2;
          RefBird;
          RefDigit 0; RefDigit 1; RefDigit 2; RefDigit 3; RefDigit 4]
    /\ GameState.screen_type gs = TITLE_SCREEN
    /\ GameState.score gs = 0
    /\ GameState.quit gs = false
    /\ map (fun ob => (Obstacle.x ob, Obstacle.y ob, Obstacle.gap_size ob,
                       Obstacle.score_collected ob))
           (GameState.obstacles gs)
       = [(150, 40, 8, false); (240, 30, 9, false); (60, 50, 10, false)]
    /\ Forall parts_placed (GameState.obstacles gs)
    /\ (Entity.x (GameState.title_text gs), Entity.y (GameState.title_text gs),
        Entity.visible (GameState.title_text gs)) = (150, 40, true)
    /\ (Entity.x (GameState.press_space_to_start gs),
        Entity.y (GameState.press_space_to_start gs),
        Entity.visible (GameState.press_space_to_start gs))
       = (CInt.sub 0 (EntityView.width
                        (view_of (files w) "press_space_to_start.entity")),
          70, true)
    /\ (Entity.num_views (bird_entity gs), Entity.current_view (bird_entity gs),
        Entity.visible (bird_entity gs), bird_velocity gs)
       = (3, 0, true, S754_zero false)
    /\ Forall (fun d => Entity.visible d = false)
              (ScoreCounter.digits (GameState.score_counter gs)).
Proof.
  intros Hok.
  destruct (loads_main (files w) w eq_refl) as [[_ (gs & o & Hr & Hup)]|Hfail].
  2:{ exfalso. exact (fails_not_all _ _ _ Hfail Hok). }
  exists gs, (with_out w (out w ++ o)). split; [exact Hr|].
  set (fs := files w) in *.
  unfold main_assets in Hok. apply Forall_app in Hok as [Hhead Hdigits].
  assert (Hdn : Forall (file_ok fs) digit_names).
  { cbn [flat_map seq] in Hdigits. apply Forall_app in Hdigits as [H _]. exact H. }
  apply Forall_cons in Hhead as [Htitle Hhead].
  apply Forall_cons in Hhead as [Hpress Hhead].
  apply Forall_cons in Hhead as [Htop Hhead].
  apply Forall_cons in Hhead as [Hbottom Hhead].
  do 4 (apply Forall_cons in Hhead as [_ Hhead]).
  apply Forall_cons in Hhead as [Hb0 Hhead].
  apply Forall_cons in Hhead as [Hb1 Hhead].
  apply Forall_cons in Hhead as [Hb2 _].
  assert (Hone : forall name e,
             file_ok fs name -> loaded 0 e -> loaded 1 (with_view fs name e)).
  { intros name e Hn He.
    apply (loaded_with_view fs name 0 e Hn He). unfold MAX_VIEWS. lia. }
  assert (Hbird : loaded 3 (with_view fs "bird_2.entity"
                              (with_view fs "bird_1.entity"
                                 (with_view fs "bird_0.entity" create_entity)))).
  { apply (loaded_with_view fs _ 2 _ Hb2); [|unfold MAX_VIEWS; lia].
    apply (loaded_with_view fs _ 1 _ Hb1); [|unfold MAX_VIEWS; lia].
    apply Hone; [exact Hb0|exact create_entity_loaded]. }
  unfold loaded_game in Hup. cbv zeta in Hup.
  match type of Hup with
  | update_score_counter (digits_created _ _ _ ?G) = _ => set (G0 := G) in *
  end.
  assert (H1 : Forall blank_digit
                      (ScoreCounter.digits (GameState.score_counter G0)))
    by exact zero_digits_blank.
  assert (H2 : 0 <= GameState.score G0 < 10 ^ 5)
    by (change (GameState.score G0) with 0; lia).
  assert (H3 : length (ScoreCounter.digits (GameState.score_counter G0))
               = Z.to_nat SCORE_COUNTER_DIGITS) by reflexivity.
  destruct (digits_created_updated fs G0 gs _ _ H1 H3 H2 Hdn Hup)
    as (He & Hdl & Hd & Hs & Ho & Hb & Ht & Hp & Hst & Hq).
  set (top := with_view fs "obstacle_top.entity" create_entity) in *.
  set (bottom := with_view fs "obstacle_bottom.entity" create_entity) in *.
  assert (Hobs : GameState.obstacles G0
                 = [update_obstacle (Obstacle.mk 150 40 8 top bottom false);
                    update_obstacle (Obstacle.mk 240 30 9 top bottom false);
                    update_obstacle (Obstacle.mk 60 50 10 top bottom false)])
    by reflexivity.
  rewrite Hobs in Ho. clear Hobs.
  change (GameState.entities G0)
    with [RefTitleText; RefPressSpaceToStart;
          RefObstacleTop 0; RefObstacleBottom 0;
          RefObstacleTop 1; RefObstacleBottom 1;
          RefObstacleTop 2; RefObstacleBottom 2; RefBird] in He.
  change (GameState.bird G0)
    with (Bird.mk (with_view fs "bird_2.entity"
                     (with_view fs "bird_1.entity"
                        (with_view fs "bird_0.entity" create_entity)))
                  (S754_zero false)) in Hb.
  change (GameState.title_text G0)
    with (with_view fs "not_flappy_bird.entity"
            (Entity.set_y 40 (Entity.set_x 150 create_entity))) in Ht.
  change (GameState.press_space_to_start G0)
    with (Entity.set_y 70
            (Entity.set_x
               (CInt.sub 0 (EntityView.width
                              (view_of fs "press_space_to_start.entity")))
               (with_view fs "press_space_to_start.entity" create_entity)))
    in Hp.
  change (GameState.screen_type G0) with TITLE_SCREEN in Hst.
  change (GameState.score G0) with 0 in Hs, Hd.
  change (GameState.quit G0) with false in Hq.
  clearbody G0. clear H1 H2 H3 Hup.
  assert (Htop1 : shown top)
    by (apply (loaded_shown 1); [apply Hone; [exact Htop|exact create_entity_loaded]
                                |cbn; lia]).
  assert (Hbottom1 : shown bottom)
    by (apply (loaded_shown 1); [apply Hone; [exact Hbottom|exact create_entity_loaded]
                                |cbn; lia]).
  split.
  { unfold wf, bird_entity. rewrite Hb, Hp, Ht, Ho, He.
    split; [apply (loaded_shown 3); [exact Hbird|cbn; lia]|].
    split; [apply (loaded_shown 1);
            [apply Hone; [exact Hpress|exact create_entity_loaded]|cbn; lia]|].
    split; [apply (loaded_shown 1);
            [apply Hone; [exact Htitle|exact create_entity_loaded]|cbn; lia]|].
    split.
    { repeat (constructor; [split; [exact Htop1|exact Hbottom1]|]). constructor. }
    split; [vm_compute; lia|].
    split.
    { apply Forall_lookup_2. intros k d' Hk.
      destruct (Hd k d' Hk) as (Hn & _ & _ & _ & _ & _ & Hsh). split; assumption. }
    split; [exact Hdl|].
    split; [|vm_compute; lia].
    repeat (constructor; [vm_compute; lia || exact I|]). constructor. }
  split; [exact He|]. split; [exact Hst|]. split; [exact Hs|].
  split; [exact Hq|].
  rewrite Ho. split; [reflexivity|].
  split.
  { repeat (constructor; [apply update_obstacle_placed|]). constructor. }
  unfold bird_entity, bird_velocity. rewrite Ht, Hp, Hb.
  split; [reflexivity|]. split; [reflexivity|]. split; [reflexivity|].
  apply Forall_lookup_2. intros k d' Hk.
  destruct (Hd k d' Hk) as (_ & _ & _ & _ & Hv & _).
  destruct (Entity.visible d'); [|reflexivity].
  destruct Hv as [Hv _]. specialize (Hv eq_refl).
  rewrite num_digits_nonpos in Hv by lia. lia.
Qed.

Lemma glyph_world_assets : Forall (file_ok (files glyph_world)) main_assets.
Proof. apply Forall_forall. intros name _. do 5 eexists. reflexivity. Qed.

Lemma main_load_builds_witness :
  exists gs w',
    main_load glyph_world = Ret (gs, w')
    /\ wf gs
    /\ length (GameState.entities gs) = 14%nat
    /\ GameState.screen_type gs = TITLE_SCREEN
    /\ map (fun ob => (Obstacle.x ob, Obstacle.y ob, Obstacle.gap_size ob,
                       Obstacle.score_collected ob))
           (GameState.obstacles gs)
       = [(150, 40, 8, false); (240, 30, 9, false); (60, 50, 10, false)].
Proof.
  destruct (main_load_builds glyph_world glyph_world_assets)
    as (gs & w' & Hr & Hwf & He & Hst & _ & _ & Ho & _).
  exists gs, w'. split; [exact Hr|]. split; [exact Hwf|].
  split; [rewrite He; reflexivity|]. split; [exact Hst|exact Ho].
Defined.



(** With the sample assets, which lack the title text, the first thing
    [main] loads, the process ends with the diagnostic of [fopen]. *)
Example main_load_sample :
  main_load asset_world
  = Exit 1 [EvPrintf (ESC ++ "]0; NotFlappyBird " ++ BEL) [];
            EvPrintf (CSI ++ "?25l") [];
            EvPrintf "Error opening file '%s'" [ArgStr "not_flappy_bird.entity"]].
Proof. vm_compute. reflexivity. Qed.

(** ** Points

    What a turn of [scroll_world] does to the score. *)

Lemma update_score_counter_shows (gs : GameState.t) :
  0 <= GameState.score gs < 10 ^ 5 ->
  length (ScoreCounter.digits (GameState.score_counter gs)) = 5%nat ->
  exists gs',
    update_score_counter gs = Ret gs'
    /\ shows_score gs'
    /\ length (ScoreCounter.digits (GameState.score_counter gs')) = 5%nat
    /\ GameState.score gs' = GameState.score gs
    /\ GameState.obstacles gs' = GameState.obstacles gs
    /\ GameState.screen_type gs' = GameState.screen_type gs
    /\ GameState.bird gs' = GameState.bird gs.
Proof.
  intros Hs Hlen.
  destruct (update_score_counter_digits gs Hs Hlen) as (ds & Hrun & Hlen' & Hlook).
  eexists. split; [exact Hrun|].
  split; [|split; [exact Hlen'|repeat split]].
  intros i d Hd.
  cbn [GameState.score GameState.score_counter GameState.set_score_counter
       ScoreCounter.digits ScoreCounter.set_digits] in *.
  rewrite Hlook in Hd.
  destruct (ScoreCounter.digits (GameState.score_counter gs) !! i) as [d0|];
    [|discriminate].
  destruct (i <? num_digits (GameState.score gs))%nat eqn:E;
    cbn [fmap option_fmap option_map] in Hd; injection Hd as <-.
  - apply Nat.ltb_lt in E. unfold show_digit. cbn. tauto.
  - apply Nat.ltb_ge in E. cbn. split; [split; [discriminate|lia]|discriminate].
Qed.

Lemma scroll_obstacle_recycle_out (i : nat) (gs gs' : GameState.t) (w w' : World) :
  bind (obstacle_at gs i) (fun ob =>
  bind (lift (Entity.view_at (Obstacle.top_entity ob) 0)) (fun view0 =>
  bind
    (if Obstacle.x ob <? CInt.neg (EntityView.width view0) then
       bind random_center (fun c =>
       ret (with_obstacle i (Obstacle.set_score_collected false)
              (with_obstacle i (Obstacle.set_y c)
                 (with_obstacle i (Obstacle.set_x SCREEN_WIDTH) gs))))
     else ret gs)
    (fun game_state => ret (with_obstacle i update_obstacle game_state)))) w
  = Ret (gs', w') ->
  out w' = out w.
Proof.
  intros H. unfold bind at 1 in H. unfold obstacle_at, lift in H.
  destruct (GameState.obstacles gs !! i) as [ob|]; cbn [res_bind fst snd] in H;
    [|discriminate].
  unfold bind at 1 in H. unfold lift in H.
  destruct (Entity.view_at (Obstacle.top_entity ob) 0) as [v0| | |];
    cbn [res_bind fst snd] in H; try discriminate.
  destruct (Obstacle.x ob <? CInt.neg (EntityView.width v0)).
  - unfold bind, random_center, rand, ret in H. cbn [res_bind fst snd] in H.
    injection H as _ <-. reflexivity.
  - unfold bind, ret in H. cbn [res_bind fst snd] in H.
    injection H as _ <-. reflexivity.
Qed.

(** The first half of the loop body of [scroll_world], with the point
    counted: [ob] is obstacle [i] after its move. *)
Lemma scroll_obstacle_point (i : nat) (gs : GameState.t) (w : World)
  (ob : Obstacle.t) :
  GameState.obstacles gs !! i = Some ob ->
  0 <= GameState.score gs < 10 ^ 5 - 1 ->
  length (ScoreCounter.digits (GameState.score_counter gs)) = 5%nat ->
  exists gs2 w2,
    match GameState.screen_type gs with
    | GAME_SCREEN =>
        bind (obstacle_at gs i) (fun ob =>
        if (Obstacle.x ob <? Entity.x (Bird.entity (GameState.bird gs)))
           && negb (Obstacle.score_collected ob)
        then
          bind (lift (update_score_counter
                        (GameState.set_score (CInt.add (GameState.score gs) 1)
                                             gs))) (fun game_state =>
          bind (printf (ESC ++ "]0; Score: %d " ++ BEL)
                       [ArgInt (GameState.score game_state)]) (fun _ =>
          ret (with_obstacle i (Obstacle.set_score_collected true)
                             game_state)))
        else ret gs)
    | TITLE_SCREEN => ret gs
    end w = Ret (gs2, w2)
    /\ GameState.obstacles gs2
       = <[i := if awards_point gs ob
                then Obstacle.set_score_collected true ob else ob]>
           (GameState.obstacles gs)
    /\ GameState.screen_type gs2 = GameState.screen_type gs
    /\ GameState.bird gs2 = GameState.bird gs
    /\ length (ScoreCounter.digits (GameState.score_counter gs2)) = 5%nat
    /\ if awards_point gs ob
       then GameState.score gs2 = GameState.score gs + 1
            /\ shows_score gs2
            /\ out w2 = out w ++ [score_title (GameState.score gs + 1)]
       else GameState.score gs2 = GameState.score gs
            /\ GameState.score_counter gs2 = GameState.score_counter gs
            /\ out w2 = out w.
Proof.
  intros Hob Hs Hlen. unfold awards_point, bird_entity.
  assert (Hsame : exists gs2 w2,
            Ret (gs, w) = Ret (gs2, w2)
            /\ GameState.obstacles gs2 = <[i := ob]> (GameState.obstacles gs)
            /\ GameState.screen_type gs2 = GameState.screen_type gs
            /\ GameState.bird gs2 = GameState.bird gs
            /\ length (ScoreCounter.digits (GameState.score_counter gs2)) = 5%nat
            /\ GameState.score gs2 = GameState.score gs
               /\ GameState.score_counter gs2 = GameState.score_counter gs
               /\ out w2 = out w).
  { exists gs, w. rewrite (list_insert_id _ _ _ Hob).
    do 4 (split; [reflexivity|]). split; [exact Hlen|].
    split; [reflexivity|]. split; reflexivity. }
  destruct (GameState.screen_type gs) eqn:Hscreen; [exact Hsame|].
  unfold bind at 1. rewrite (obstacle_at_some gs i ob w Hob). cbn [res_bind fst snd].
  destruct ((Obstacle.x ob <? Entity.x (Bird.entity (GameState.bird gs)))
            && negb (Obstacle.score_collected ob)); [|exact Hsame].
  clear Hsame.
  assert (Hadd : CInt.add (GameState.score gs) 1 = GameState.score gs + 1).
  { unfold CInt.add. apply wrap_id. unfold CInt.in_range. lia. }
  rewrite Hadd.
  destruct (update_score_counter_shows
              (GameState.set_score (GameState.score gs + 1) gs)
              ltac:(cbn; lia) ltac:(exact Hlen))
    as (gs1 & Hupd & Hshows & Hlen1 & Hscore1 & Hobs1 & Hscr1 & Hbird1).
  cbn [GameState.score GameState.obstacles GameState.screen_type GameState.bird
       GameState.set_score] in Hscore1, Hobs1, Hscr1, Hbird1.
  unfold bind at 1. unfold lift. rewrite Hupd. cbn [res_bind fst snd].
  unfold printf, emit. run_m.
  rewrite (with_obstacle_insert i _ _ ob) by (rewrite Hobs1; exact Hob).
  eexists _, _. split; [reflexivity|].
  cbn [GameState.score GameState.obstacles GameState.screen_type GameState.bird
       GameState.score_counter GameState.set_obstacles out with_out].
  rewrite Hobs1, Hscore1.
  split; [reflexivity|]. split; [congruence|]. split; [exact Hbird1|].
  split; [exact Hlen1|]. split; [reflexivity|].
  split; [|reflexivity].
  intros k d. exact (Hshows k d).
Qed.

(** One turn of the obstacle loop of [scroll_world], with the point
    counted. *)
Lemma scroll_obstacle_points (i : nat) (gs : GameState.t) (w : World)
  (ob : Obstacle.t) (v0 : EntityView.t) :
  GameState.obstacles gs !! i = Some ob ->
  Entity.view_at (Obstacle.top_entity ob) 0 = Ret v0 ->
  0 <= GameState.score gs < 10 ^ 5 - 1 ->
  length (ScoreCounter.digits (GameState.score_counter gs)) = 5%nat ->
  exists gs' w' ob',
    scroll_obstacle i gs w = Ret (gs', w')
    /\ GameState.obstacles gs' = <[i := ob']> (GameState.obstacles gs)
    /\ GameState.screen_type gs' = GameState.screen_type gs
    /\ GameState.bird gs' = GameState.bird gs
    /\ length (ScoreCounter.digits (GameState.score_counter gs')) = 5%nat
    /\ Entity.views (Obstacle.top_entity ob') = Entity.views (Obstacle.top_entity ob)
    /\ (leaves_screen (moved_left ob) v0 = false ->
        Obstacle.score_collected ob'
        = awards_point gs (moved_left ob) || Obstacle.score_collected ob)
    /\ if awards_point gs (moved_left ob)
       then GameState.score gs' = GameState.score gs + 1
            /\ shows_score gs'
            /\ out w' = out w ++ [score_title (GameState.score gs + 1)]
       else GameState.score gs' = GameState.score gs
            /\ GameState.score_counter gs' = GameState.score_counter gs
            /\ out w' = out w.
Proof.
  intros Hob Hv0 Hs Hlen.
  pose proof (lookup_lt_Some _ _ _ Hob) as Hi.
  unfold scroll_obstacle.
  unfold bind at 1. rewrite (obstacle_at_some gs i ob w Hob). cbn [res_bind fst snd].
  cbv zeta. rewrite (with_obstacle_insert i _ gs ob Hob). fold (moved_left ob).
  set (gs1 := GameState.set_obstacles
                (<[i := moved_left ob]> (GameState.obstacles gs)) gs).
  assert (Hob1 : GameState.obstacles gs1 !! i = Some (moved_left ob))
    by (subst gs1; cbn; apply list_lookup_insert_eq; exact Hi).
  destruct (scroll_obstacle_point i gs1 w (moved_left ob) Hob1 Hs Hlen)
    as (gs2 & w2 & Hrun2 & Hobs2 & Hscr2 & Hbird2 & Hlen2 & Hpoint).
  unfold bind at 1.
  rewrite Hrun2. cbn [res_bind fst snd].
  change (awards_point gs1 (moved_left ob))
    with (awards_point gs (moved_left ob)) in Hobs2, Hpoint.
  change (GameState.screen_type gs1) with (GameState.screen_type gs) in Hscr2.
  change (GameState.bird gs1) with (GameState.bird gs) in Hbird2.
  change (GameState.score gs1) with (GameState.score gs) in Hpoint.
  change (GameState.score_counter gs1) with (GameState.score_counter gs) in Hpoint.
  set (ob2 := if awards_point gs (moved_left ob)
              then Obstacle.set_score_collected true (moved_left ob)
              else moved_left ob) in *.
  assert (Hob2 : GameState.obstacles gs2 !! i = Some ob2).
  { rewrite Hobs2. apply list_lookup_insert_eq. subst gs1. cbn.
    rewrite length_insert. exact Hi. }
  assert (Htop2 : Obstacle.top_entity ob2 = Obstacle.top_entity ob)
    by (subst ob2; destruct (awards_point gs (moved_left ob)); reflexivity).
  assert (Hx2 : Obstacle.x ob2 = Obstacle.x (moved_left ob))
    by (subst ob2; destruct (awards_point gs (moved_left ob)); reflexivity).
  assert (Hc2 : Obstacle.score_collected ob2
                = awards_point gs (moved_left ob) || Obstacle.score_collected ob)
    by (subst ob2; destruct (awards_point gs (moved_left ob)); reflexivity).
  assert (Hv2 : Entity.view_at (Obstacle.top_entity ob2) 0 = Ret v0).
  { rewrite Htop2. exact Hv0. }
  destruct (scroll_obstacle_recycle i gs2 w2 ob2 v0 Hob2 Hv2)
    as (w' & ob' & Hrun3 & _ & Hviews3 & _ & _ & _ & Hno).
  pose proof (scroll_obstacle_recycle_out i gs2 _ w2 w' Hrun3) as Hout.
  rewrite Hrun3.
  eexists _, _, ob'. split; [reflexivity|].
  cbn [GameState.set_obstacles GameState.obstacles GameState.bird
       GameState.entities GameState.press_space_to_start GameState.screen_type
       GameState.title_text GameState.score GameState.score_counter
       GameState.quit].
  split.
  { rewrite Hobs2. subst gs1. cbn. rewrite !list_insert_insert_eq. reflexivity. }
  split; [exact Hscr2|]. split; [exact Hbird2|]. split; [exact Hlen2|].
  split; [rewrite Hviews3, Htop2; reflexivity|].
  split.
  { intros Hstay.
    assert (Hleave : leaves_screen ob2 v0 = false)
      by (unfold leaves_screen in *; rewrite Hx2; exact Hstay).
    destruct (Hno Hleave) as (_ & _ & Hc). rewrite Hc. exact Hc2. }
  rewrite Hout.
  destruct (awards_point gs (moved_left ob)).
  - destruct Hpoint as (H1 & H2 & H3). split; [exact H1|]. split; [|exact H3].
    intros k d. exact (H2 k d).
  - exact Hpoint.
Qed.

Lemma awards_point_ext (gs gs' : GameState.t) (ob : Obstacle.t) :
  GameState.screen_type gs' = GameState.screen_type gs ->
  GameState.bird gs' = GameState.bird gs ->
  awards_point gs' ob = awards_point gs ob.
Proof.
  intros H1 H2. unfold awards_point, bird_entity. rewrite H1, H2. reflexivity.
Qed.

Lemma point_indices_ext (gs gs' : GameState.t) (idxs : list nat) :
  GameState.screen_type gs' = GameState.screen_type gs ->
  GameState.bird gs' = GameState.bird gs ->
  (forall i, i ∈ idxs -> GameState.obstacles gs' !! i = GameState.obstacles gs !! i) ->
  point_indices gs' idxs = point_indices gs idxs.
Proof.
  intros H1 H2 H3. unfold point_indices. apply List.filter_ext_in.
  intros i Hi. rewrite (H3 i) by (apply list_elem_of_In; exact Hi).
  destruct (GameState.obstacles gs !! i); [|reflexivity].
  apply awards_point_ext; assumption.
Qed.

(** The obstacle loop of [scroll_world], over distinct indices, with the
    points counted. *)
Lemma scroll_obstacles_points (idxs : list nat) :
  NoDup idxs ->
  forall (gs : GameState.t) (w : World),
    Forall (fun i => (i < length (GameState.obstacles gs))%nat) idxs ->
    Forall (fun ob => has_view0 (Obstacle.top_entity ob)) (GameState.obstacles gs) ->
    0 <= GameState.score gs ->
    GameState.score gs + Z.of_nat (length idxs) < 10 ^ 5 ->
    length (ScoreCounter.digits (GameState.score_counter gs)) = 5%nat ->
    exists gs' w',
      for_each idxs scroll_obstacle gs w = Ret (gs', w')
      /\ GameState.screen_type gs' = GameState.screen_type gs
      /\ GameState.bird gs' = GameState.bird gs
      /\ length (GameState.obstacles gs') = length (GameState.obstacles gs)
      /\ (forall i, i ∉ idxs ->
            GameState.obstacles gs' !! i = GameState.obstacles gs !! i)
      /\ GameState.score gs'
         = GameState.score gs + Z.of_nat (length (point_indices gs idxs))
      /\ (point_indices gs idxs = [] ->
          GameState.score_counter gs' = GameState.score_counter gs)
      /\ (point_indices gs idxs <> [] -> shows_score gs')
      /\ length (ScoreCounter.digits (GameState.score_counter gs')) = 5%nat
      /\ out w'
         = out w ++ score_titles (GameState.score gs)
                                 (length (point_indices gs idxs))
      /\ (forall i ob v0,
            i ∈ idxs ->
            GameState.obstacles gs !! i = Some ob ->
            Entity.view_at (Obstacle.top_entity ob) 0 = Ret v0 ->
            leaves_screen (moved_left ob) v0 = false ->
            exists ob',
              GameState.obstacles gs' !! i = Some ob'
              /\ Obstacle.score_collected ob'
                 = awards_point gs (moved_left ob) || Obstacle.score_collected ob).
Proof.
  induction idxs as [|i idxs IH]; intros Hnd gs w Hidx Hviews Hs0 Hs1 Hlen;
    cbn [for_each].
  - exists gs, w. split; [reflexivity|].
    do 4 (split; [reflexivity|]). cbn [point_indices List.filter length score_titles].
    split; [lia|]. split; [reflexivity|]. split; [congruence|].
    split; [exact Hlen|]. split; [rewrite app_nil_r; reflexivity|].
    intros i ob v0 H. inversion H.
  - apply NoDup_cons in Hnd as [Hnotin Hnd].
    apply Forall_cons in Hidx as [Hi Hidx].
    cbn [length] in Hs1.
    destruct (lookup_lt_is_Some_2 _ _ Hi) as [ob Hob].
    destruct (Forall_lookup_1 _ _ _ _ Hviews Hob) as [v0 Hv0].
    destruct (scroll_obstacle_points i gs w ob v0 Hob Hv0 ltac:(lia) Hlen)
      as (gs1 & w1 & ob1 & Hrun1 & Hobs1 & Hscr1 & Hbird1 & Hlen1 & Hviews1
          & Hcol1 & Hpoint1).
    assert (Hlenobs : length (GameState.obstacles gs1)
                      = length (GameState.obstacles gs))
      by (rewrite Hobs1; apply length_insert).
    assert (Hother : forall j, j <> i ->
              GameState.obstacles gs1 !! j = GameState.obstacles gs !! j).
    { intros j Hj. rewrite Hobs1. apply list_lookup_insert_ne. congruence. }
    assert (Hrest : point_indices gs1 idxs = point_indices gs idxs).
    { apply point_indices_ext; [exact Hscr1|exact Hbird1|].
      intros j Hj. apply Hother. intros ->. contradiction. }
    assert (Hhead : point_indices gs (i :: idxs)
                    = if awards_point gs (moved_left ob)
                      then i :: point_indices gs idxs else point_indices gs idxs).
    { unfold point_indices. cbn [List.filter]. rewrite Hob. reflexivity. }
    assert (Hscore1 : 0 <= GameState.score gs1
                      /\ GameState.score gs1 + Z.of_nat (length idxs) < 10 ^ 5).
    { destruct (awards_point gs (moved_left ob)).
      - destruct Hpoint1 as (-> & _). lia.
      - destruct Hpoint1 as (-> & _). lia. }
    destruct (IH Hnd gs1 w1) as
      (gs' & w' & Hrun & Hscr & Hbird & Hlen' & Hout & Hscore & Hnone & Hsome
       & Hlend & Hevents & Hin).
    { rewrite Hlenobs. exact Hidx. }
    { rewrite Hobs1. apply Forall_insert; [exact Hviews|].
      exists v0. rewrite <- Hv0. apply view_at_views. exact Hviews1. }
    { apply Hscore1. }
    { apply Hscore1. }
    { exact Hlen1. }
    rewrite Hrest in Hscore, Hnone, Hsome, Hevents.
    exists gs', w'. split.
    { unfold bind. rewrite Hrun1. cbn [res_bind fst snd]. exact Hrun. }
    split; [congruence|]. split; [congruence|]. split; [congruence|].
    split.
    { intros j Hj. rewrite Hout by (intros H; apply Hj; right; exact H).
      apply Hother. intros ->. apply Hj. left. }
    rewrite Hhead.
    assert (Hkeep : forall j ob0 v,
              j ∈ i :: idxs ->
              GameState.obstacles gs !! j = Some ob0 ->
              Entity.view_at (Obstacle.top_entity ob0) 0 = Ret v ->
              leaves_screen (moved_left ob0) v = false ->
              exists ob',
                GameState.obstacles gs' !! j = Some ob'
                /\ Obstacle.score_collected ob'
                   = awards_point gs (moved_left ob0)
                     || Obstacle.score_collected ob0).
    { intros j ob0 v Hj Hob0 Hv Hstay.
      destruct (decide (j = i)) as [->|Hne].
      - rewrite Hob in Hob0. injection Hob0 as <-.
        rewrite Hv0 in Hv. injection Hv as <-.
        exists ob1. split; [|exact (Hcol1 Hstay)].
        rewrite Hout by exact Hnotin. rewrite Hobs1.
        apply list_lookup_insert_eq. exact Hi.
      - assert (Hj' : j ∈ idxs).
        { apply elem_of_cons in Hj as [Hj|Hj]; [contradiction|exact Hj]. }
        destruct (Hin j ob0 v Hj') as (ob' & Hlook & Hc);
          [rewrite Hother by exact Hne; exact Hob0|exact Hv|exact Hstay|].
        exists ob'. split; [exact Hlook|].
        rewrite Hc. rewrite (awards_point_ext gs gs1) by assumption.
        reflexivity. }
    destruct (awards_point gs (moved_left ob)).
    + destruct Hpoint1 as (Es & Hshow & Eo).
      cbn [length score_titles].
      split; [rewrite Hscore, Es; lia|].
      split; [discriminate|].
      split.
      { intros _. destruct (point_indices gs idxs) eqn:Ep.
        - intros k d Hd. rewrite (Hnone eq_refl) in Hd.
          cbn [length] in Hscore. replace (GameState.score gs')
            with (GameState.score gs1) by lia.
          exact (Hshow k d Hd).
        - apply Hsome. discriminate. }
      split; [exact Hlend|].
      split; [|exact Hkeep].
      rewrite Hevents, Eo, Es, <- app_assoc. reflexivity.
    + destruct Hpoint1 as (Es & Ec & Eo).
      split; [rewrite Hscore, Es; reflexivity|].
      split; [intros H; rewrite (Hnone H); exact Ec|].
      split; [exact Hsome|]. split; [exact Hlend|].
      split; [|exact Hkeep].
      rewrite Hevents, Eo, Es. reflexivity.
Qed.

Lemma filter_seq_lookup {A} (f : A -> bool) (l pre : list A) :
  length (List.filter (fun i => match (pre ++ l) !! i with
                                | Some a => f a
                                | None => false
                                end)
                      (seq (length pre) (length l)))
  = length (List.filter f l).
Proof.
  revert pre. induction l as [|a l IH]; intros pre; [reflexivity|].
  cbn [length seq List.filter].
  rewrite (lookup_app_r pre) by lia. rewrite Nat.sub_diag. cbn [lookup list_lookup].
  specialize (IH (pre ++ [a])). rewrite <- app_assoc in IH. cbn [app] in IH.
  rewrite length_app in IH. cbn [length] in IH. rewrite Nat.add_1_r in IH.
  destruct (f a); cbn [length]; rewrite IH; reflexivity.
Qed.

Lemma point_indices_all (gs : GameState.t) :
  length (point_indices gs (seq 0 (length (GameState.obstacles gs))))
  = length (points_given gs).
Proof.
  unfold point_indices, points_given.
  exact (filter_seq_lookup (fun ob => awards_point gs (moved_left ob))
           (GameState.obstacles gs) []).
Qed.

(** X15.  On the game screen, a turn of [scroll_world] adds to the score the
    number of obstacles that, moved one cell to the left, stand left of the
    bird and have not given their point; for each of them the title of the
    console is set to the score it brings, in turn; the counter then shows
    the new score, and is left as it was when there is no point.  An
    obstacle that stays on the screen is marked as having given its point
    from then on, so it gives one point only. *)
Theorem scroll_world_scores (gs : GameState.t) (w : World) :
  GameState.screen_type gs = GAME_SCREEN ->
  Forall (fun ob => has_view0 (Obstacle.top_entity ob)) (GameState.obstacles gs) ->
  0 <= GameState.score gs ->
  GameState.score gs + GameState.obstacle_count gs < 10 ^ 5 ->
  length (ScoreCounter.digits (GameState.score_counter gs)) = 5%nat ->
  exists gs' w',
    scroll_world gs w = Ret (gs', w')
    /\ GameState.score gs'
       = GameState.score gs + Z.of_nat (length (points_given gs))
    /\ out w'
       = out w ++ score_titles (GameState.score gs) (length (points_given gs))
    /\ (points_given gs = [] ->
        GameState.score_counter gs' = GameState.score_counter gs)
    /\ (points_given gs <> [] -> shows_score gs')
    /\ forall i ob v0,
        GameState.obstacles gs !! i = Some ob ->
        Entity.view_at (Obstacle.top_entity ob) 0 = Ret v0 ->
        leaves_screen (moved_left ob) v0 = false ->
        exists ob',
          GameState.obstacles gs' !! i = Some ob'
          /\ Obstacle.score_collected ob'
             = awards_point gs (moved_left ob) || Obstacle.score_collected ob
          /\ (awards_point gs (moved_left ob) = true ->
              awards_point gs' (moved_left ob') = false).
Proof.
  intros Hscreen Hviews Hs0 Hs1 Hlen.
  assert (Hidx : Forall (fun i => (i < length (GameState.obstacles gs))%nat)
                        (seq 0 (length (GameState.obstacles gs)))).
  { apply Forall_forall. intros i Hi. apply elem_of_seq in Hi. lia. }
  destruct (scroll_obstacles_points (seq 0 (length (GameState.obstacles gs)))
              (NoDup_seq _ _) gs w Hidx Hviews Hs0
              ltac:(rewrite length_seq; exact Hs1) Hlen)
    as (gs' & w' & Hrun & Hscr & _ & _ & _ & Hscore & Hnone & Hsome & _
        & Hevents & Hin).
  rewrite point_indices_all in Hscore, Hevents.
  exists gs', w'. split.
  { unfold scroll_world, bind. rewrite Hrun. cbn [res_bind fst snd].
    rewrite Hscr, Hscreen. reflexivity. }
  split; [exact Hscore|]. split; [exact Hevents|].
  pose proof (point_indices_all gs) as Hcount.
  split.
  { intros H. apply Hnone. rewrite H in Hcount. cbn [length] in Hcount.
    destruct (point_indices gs _); [reflexivity|discriminate]. }
  split.
  { intros H. apply Hsome. intros H'. rewrite H' in Hcount.
    cbn [length] in Hcount. destruct (points_given gs); [congruence|discriminate]. }
  intros i ob v0 Hob Hv0 Hstay.
  destruct (Hin i ob v0) as (ob' & Hlook & Hc);
    [apply elem_of_seq; pose proof (lookup_lt_Some _ _ _ Hob); lia
    |exact Hob|exact Hv0|exact Hstay|].
  exists ob'. split; [exact Hlook|]. split; [exact Hc|].
  intros Hg. rewrite Hg in Hc. cbn [orb] in Hc.
  unfold awards_point. rewrite Hscr, Hscreen.
  unfold moved_left. cbn [Obstacle.score_collected Obstacle.set_x].
  rewrite Hc. apply andb_false_r.
Qed.

Lemma scroll_world_scores_witness :
  exists gs' w',
    scroll_world (sample_game GAME_SCREEN (sample_bird 120 40) 7) sample_world
    = Ret (gs', w')
    /\ GameState.score gs' = 8
    /\ out w' = out sample_world ++ [score_title 8].
Proof.
  destruct (scroll_world_scores (sample_game GAME_SCREEN (sample_bird 120 40) 7)
              sample_world eq_refl)
    as (gs' & w' & Hrun & Hscore & Hout & _).
  - repeat constructor; eexists; reflexivity.
  - vm_compute. discriminate.
  - vm_compute. reflexivity.
  - reflexivity.
  - exists gs', w'. split; [exact Hrun|]. split; [exact Hscore|exact Hout].
Defined.

(** ** The keys of a tick *)

Lemma keys_ret {A} (a : A) : keeps_keys (ret a).
Proof. intros w a' w' H. injection H as _ <-. split; reflexivity. Qed.

Lemma keys_bind {A B} (m : M A) (k : A -> M B) :
  keeps_keys m -> (forall a, keeps_keys (k a)) -> keeps_keys (bind m k).
Proof.
  intros Hm Hk w b w' H. unfold bind in H.
  destruct (m w) as [[a w1]| | |] eqn:E; cbn [res_bind fst snd] in H;
    try discriminate.
  destruct (Hk a w1 b w' H) as [-> ->]. exact (Hm w a w1 E).
Qed.

Lemma keys_lift {A} (r : Res A) : keeps_keys (lift r).
Proof.
  intros w a w' H. unfold lift in H. destruct r; cbn in H; try discriminate.
  injection H as _ <-. split; reflexivity.
Qed.

Lemma keys_for_each {A S} (l : list A) (body : A -> S -> M S) :
  (forall a s, keeps_keys (body a s)) -> forall s, keeps_keys (for_each l body s).
Proof.
  intros Hbody. induction l as [|a l IH]; intros s; cbn [for_each].
  - apply keys_ret.
  - apply keys_bind; [apply Hbody|exact IH].
Qed.

Lemma keys_printf (fmt : string) (args : list PrintArg) :
  keeps_keys (printf fmt args).
Proof. intros w a w' H. injection H as _ <-. split; reflexivity. Qed.

Lemma keys_rand : keeps_keys rand.
Proof. intros w a w' H. injection H as _ <-. split; reflexivity. Qed.

Ltac keys_tac :=
  repeat first
    [ progress cbv zeta
    | apply keys_ret
    | apply keys_lift
    | apply keys_printf
    | apply keys_rand
    | apply keys_for_each; intros ? ?
    | apply keys_bind; [|intros ?]
    | match goal with
      | |- keeps_keys (if ?c then _ else _) => destruct c
      | |- keeps_keys (match ?x with _ => _ end) => destruct x
      end ].

Lemma keys_end_game (gs : GameState.t) : keeps_keys (end_game gs).
Proof. unfold end_game. keys_tac. Qed.

Lemma keys_press_space (gs : GameState.t) : keeps_keys (press_space gs).
Proof.
  unfold press_space, start_game, place_obstacle, random_center. keys_tac.
Qed.

Lemma keys_after_keys (gs : GameState.t) :
  keeps_keys (bind (title_autopilot (apply_gravity gs))
                   (fun g => bind (game_checks g) move_bird)).
Proof.
  unfold title_autopilot, game_checks, collide_obstacle, obstacle_at, move_bird,
    end_game.
  keys_tac.
Qed.

Lemma update_score_counter_counter (gs gs' : GameState.t) :
  update_score_counter gs = Ret gs' ->
  exists sc, gs' = GameState.set_score_counter sc gs.
Proof.
  unfold update_score_counter.
  destruct (score_digits_loop _ _ _ _) as [[n ds]| | |]; cbn [res_bind];
    intros H; try discriminate.
  injection H as <-. eexists. reflexivity.
Qed.

Lemma next_entity_view_place (e e' : Entity.t) :
  next_entity_view e = Ret e' ->
  Entity.x e' = Entity.x e /\ Entity.y e' = Entity.y e.
Proof.
  unfold next_entity_view. destruct (_ =? _); intros H; [discriminate|].
  injection H as <-. split; reflexivity.
Qed.

(** Take a computation apart, for a property [I] of the game state that
    the writes in it keep. *)
Ltac keep_tac I :=
  repeat first
    [ progress cbv zeta
    | assumption
    | apply post_ret; cbn;
      repeat match goal with
             | |- context [if ?c then _ else _] => destruct c; cbn
             end;
      solve [assumption | reflexivity | auto]
    | apply post_lift; intros ? ?; discriminate
    | apply (post_for_each I); [intros ? ? ?|]
    | apply (post_bind I); [|intros ? ?]
    | apply post_bind_any; intros ?
    | match goal with
      | |- post (lift (update_score_counter ?g)) _ =>
          apply post_lift; intros ? ?;
          match goal with
          | H : update_score_counter _ = Ret _ |- _ =>
              destruct (update_score_counter_counter _ _ H) as [? ->]; cbn
          end
      | |- post (if ?c then _ else _) _ => destruct c
      | |- post (match ?x with _ => _ end) _ => destruct x
      end ].

Lemma quit_press_space (q : bool) (gs : GameState.t) :
  GameState.quit gs = q -> post (press_space gs) (fun g => GameState.quit g = q).
Proof.
  intros H. unfold press_space, start_game, place_obstacle.
  keep_tac (fun g => GameState.quit g = q).
Qed.

Lemma quit_after_keys (q : bool) (gs : GameState.t) :
  GameState.quit gs = q ->
  post (bind (title_autopilot (apply_gravity gs))
             (fun g => bind (game_checks g) move_bird))
       (fun g => GameState.quit g = q).
Proof.
  intros H.
  assert (H' : GameState.quit (apply_gravity gs) = q).
  { unfold apply_gravity. destruct (CFloat.ltb _ _); exact H. }
  unfold title_autopilot, game_checks, collide_obstacle, move_bird, end_game.
  keep_tac (fun g => GameState.quit g = q).
Qed.

Lemma place_press_space (x : Z) (gs : GameState.t) :
  GameState.screen_type gs = GAME_SCREEN ->
  Entity.x (bird_entity gs) = x ->
  post (press_space gs)
       (fun g => GameState.screen_type g = GAME_SCREEN
                 /\ Entity.x (bird_entity g) = x).
Proof.
  intros Hscreen Hx. unfold press_space. rewrite Hscreen.
  apply (post_bind (fun g => g = gs)); [apply post_ret; reflexivity|].
  intros g ->. cbv zeta.
  set (g := if CFloat.gtb _ _ then _ else gs).
  assert (Hg : GameState.screen_type g = GAME_SCREEN
               /\ Entity.x (bird_entity g) = x).
  { subst g. destruct (CFloat.gtb _ _); split; assumption. }
  clearbody g. destruct Hg as [Hs Hp].
  apply (post_bind (fun e => Entity.x e = x)).
  - apply post_lift. intros e He.
    destruct (next_entity_view_place _ _ He) as [-> _]. exact Hp.
  - intros e He. apply post_ret. split; [exact Hs|exact He].
Qed.

Lemma place_after_keys (x : Z) (gs : GameState.t) :
  GameState.screen_type gs = GAME_SCREEN ->
  Entity.x (bird_entity gs) = x ->
  post (bind (title_autopilot (apply_gravity gs))
             (fun g => bind (game_checks g) move_bird))
       (fun g => Entity.x (bird_entity g) = x).
Proof.
  intros Hscreen Hx.
  assert (H' : GameState.screen_type (apply_gravity gs) = GAME_SCREEN
               /\ Entity.x (bird_entity (apply_gravity gs)) = x).
  { unfold apply_gravity. destruct (CFloat.ltb _ _); split; assumption. }
  destruct H' as [Hs Hp]. unfold title_autopilot. rewrite Hs.
  unfold game_checks, collide_obstacle, move_bird, end_game.
  keep_tac (fun g => Entity.x (bird_entity g) = x).
Qed.

(** *** One key *)

Lemma handle_key_idle (i : Z) (gs : GameState.t) (w : World) :
  i <> VK_ESCAPE -> i <> VK_SPACE -> i <> VK_LEFT -> i <> VK_RIGHT ->
  exists w',
    handle_key i gs w = Ret (gs, w')
    /\ polls w' = S (polls w) /\ key_state w' = key_state w.
Proof.
  intros H1 H2 H3 H4. unfold handle_key, bind, GetAsyncKeyState.
  cbn [res_bind fst snd].
  rewrite (proj2 (Z.eqb_neq _ _) H1), (proj2 (Z.eqb_neq _ _) H2),
    (proj2 (Z.eqb_neq _ _) H3), (proj2 (Z.eqb_neq _ _) H4).
  destruct (key_state w (polls w) i); cbn; eexists;
    (split; [reflexivity|split; reflexivity]).
Qed.

Lemma idle_keys_run (ks : list Z) :
  Forall (fun i => i <> VK_ESCAPE /\ i <> VK_SPACE
                   /\ i <> VK_LEFT /\ i <> VK_RIGHT) ks ->
  forall (gs : GameState.t) (w : World),
  exists w',
    for_each ks handle_key gs w = Ret (gs, w')
    /\ polls w' = (polls w + length ks)%nat /\ key_state w' = key_state w.
Proof.
  induction 1 as [|i ks (H1 & H2 & H3 & H4) _ IH]; intros gs w; cbn [for_each length].
  - exists w. split; [reflexivity|]. split; [lia|reflexivity].
  - destruct (handle_key_idle i gs w H1 H2 H3 H4) as (w1 & E1 & P1 & K1).
    destruct (IH gs w1) as (w' & E & P & K).
    exists w'. unfold bind. rewrite E1. cbn [res_bind fst snd].
    split; [exact E|]. split; [lia|congruence].
Qed.

Lemma idle_keys (a n : nat) :
  (forall k, (a <= k < a + n)%nat ->
             Z.of_nat k <> VK_ESCAPE /\ Z.of_nat k <> VK_SPACE
             /\ Z.of_nat k <> VK_LEFT /\ Z.of_nat k <> VK_RIGHT) ->
  Forall (fun i => i <> VK_ESCAPE /\ i <> VK_SPACE
                   /\ i <> VK_LEFT /\ i <> VK_RIGHT)
         (map Z.of_nat (seq a n)).
Proof.
  intros H. apply Forall_forall. intros i Hi.
  apply list_elem_of_fmap in Hi as (k & -> & Hk).
  apply elem_of_seq in Hk. apply H. lia.
Qed.

Lemma handle_key_escape (gs : GameState.t) (w : World) :
  exists w',
    handle_key VK_ESCAPE gs w
    = Ret (if key_state w (polls w) VK_ESCAPE
           then GameState.set_quit true gs else gs, w')
    /\ polls w' = S (polls w) /\ key_state w' = key_state w.
Proof.
  unfold handle_key, bind, GetAsyncKeyState. cbn [res_bind fst snd].
  destruct (key_state w (polls w) VK_ESCAPE); cbn; eexists;
    (split; [reflexivity|split; reflexivity]).
Qed.

Lemma handle_key_left (gs : GameState.t) (w : World) :
  exists w',
    handle_key VK_LEFT gs w
    = Ret (if key_state w (polls w) VK_LEFT
           then with_bird_entity
                  (fun e => Entity.set_x (CInt.sub (Entity.x e) 1) e) gs
           else gs, w')
    /\ polls w' = S (polls w) /\ key_state w' = key_state w.
Proof.
  unfold handle_key, bind, GetAsyncKeyState. cbn [res_bind fst snd].
  destruct (key_state w (polls w) VK_LEFT); cbn; eexists;
    (split; [reflexivity|split; reflexivity]).
Qed.

Lemma handle_key_right (gs : GameState.t) (w : World) :
  exists w',
    handle_key VK_RIGHT gs w
    = Ret (if key_state w (polls w) VK_RIGHT
           then with_bird_entity
                  (fun e => Entity.set_x (CInt.add (Entity.x e) 1) e) gs
           else gs, w')
    /\ polls w' = S (polls w) /\ key_state w' = key_state w.
Proof.
  unfold handle_key, bind, GetAsyncKeyState. cbn [res_bind fst snd].
  destruct (key_state w (polls w) VK_RIGHT); cbn; eexists;
    (split; [reflexivity|split; reflexivity]).
Qed.

Lemma handle_key_space_keeps (gs gs' : GameState.t) (w w' : World) :
  handle_key VK_SPACE gs w = Ret (gs', w') ->
  polls w' = S (polls w) /\ key_state w' = key_state w
  /\ GameState.quit gs' = GameState.quit gs
  /\ (GameState.screen_type gs = GAME_SCREEN ->
      GameState.screen_type gs' = GAME_SCREEN
      /\ Entity.x (bird_entity gs') = Entity.x (bird_entity gs)).
Proof.
  unfold handle_key. unfold bind at 1. unfold GetAsyncKeyState.
  cbn [res_bind fst snd].
  destruct (key_state w (polls w) VK_SPACE).
  - change (VK_SPACE =? VK_LEFT) with false.
    change (VK_SPACE =? VK_RIGHT) with false.
    change (VK_SPACE =? VK_SPACE) with true.
    change (VK_SPACE =? VK_ESCAPE) with false. cbv iota zeta.
    unfold bind. intros H.
    destruct (press_space gs _) as [[g2 w2]| | |] eqn:E;
      cbn [res_bind fst snd] in H; try discriminate.
    unfold ret in H. injection H as <- <-.
    destruct (keys_press_space gs _ _ _ E) as [P K]. cbn [polls key_state] in P, K.
    split; [exact P|]. split; [exact K|].
    split; [exact (quit_press_space _ gs eq_refl _ _ _ E)|].
    intros Hscreen. exact (place_press_space _ gs Hscreen eq_refl _ _ _ E).
  - unfold ret. intros H. injection H as <- <-. cbn [polls key_state].
    split; [reflexivity|]. split; [reflexivity|]. split; [reflexivity|].
    intros Hscreen. split; [exact Hscreen|reflexivity].
Qed.

(** *** The key loop *)

Ltac idle_segment :=
  apply idle_keys; intros k Hk; unfold VK_ESCAPE, VK_SPACE, VK_LEFT, VK_RIGHT;
  lia.

Lemma key_loop_segments (l0 l1 l2 l3 : list Z) (gs g1 : GameState.t)
  (w w1 : World) :
  let idle := fun i => i <> VK_ESCAPE /\ i <> VK_SPACE
                       /\ i <> VK_LEFT /\ i <> VK_RIGHT in
  Forall idle l0 -> Forall idle l1 -> Forall idle l2 -> Forall idle l3 ->
  for_each (l0 ++ VK_ESCAPE :: l1 ++ VK_SPACE :: l2
               ++ VK_LEFT :: 38 :: VK_RIGHT :: l3) handle_key gs w
  = Ret (g1, w1) ->
  let escape := key_state w (polls w + length l0)%nat VK_ESCAPE in
  let left :=
    key_state w (polls w + length l0 + length l1 + length l2 + 2)%nat VK_LEFT in
  let right :=
    key_state w (polls w + length l0 + length l1 + length l2 + 4)%nat VK_RIGHT in
  polls w1
  = (polls w + length l0 + length l1 + length l2 + length l3 + 5)%nat
  /\ key_state w1 = key_state w
  /\ GameState.quit g1 = GameState.quit gs || escape
  /\ (GameState.screen_type gs = GAME_SCREEN ->
      GameState.screen_type g1 = GAME_SCREEN
      /\ Entity.x (bird_entity g1)
         = let x := Entity.x (bird_entity gs) in
           let x := if left then CInt.sub x 1 else x in
           if right then CInt.add x 1 else x).
Proof.
  intros idle H0 H1 H2 H3 H escape left right.
  (* the keys below Escape *)
  rewrite for_each_app in H. unfold bind at 1 in H.
  destruct (idle_keys_run l0 H0 gs w) as (wa & Ea & Pa & Ka).
  rewrite Ea in H. cbn [res_bind fst snd for_each] in H. clear Ea.
  (* Escape *)
  unfold bind at 1 in H.
  destruct (handle_key_escape gs wa) as (wb & Eb & Pb & Kb).
  rewrite Ka, Pa in Eb. fold escape in Eb.
  rewrite Eb in H. cbn [res_bind fst snd] in H. clear Eb.
  set (gb := if escape then GameState.set_quit true gs else gs) in *.
  assert (Hqb : GameState.quit gb = GameState.quit gs || escape).
  { subst gb. destruct escape; cbn [GameState.quit GameState.set_quit].
    - rewrite orb_true_r. reflexivity.
    - rewrite orb_false_r. reflexivity. }
  assert (Hsb : GameState.screen_type gb = GameState.screen_type gs
                /\ bird_entity gb = bird_entity gs).
  { subst gb. destruct escape; split; reflexivity. }
  clearbody gb.
  (* the keys up to the space bar *)
  rewrite for_each_app in H. unfold bind at 1 in H.
  destruct (idle_keys_run l1 H1 gb wb) as (wc & Ec & Pc & Kc).
  rewrite Ec in H. cbn [res_bind fst snd for_each] in H. clear Ec.
  (* the space bar *)
  unfold bind at 1 in H.
  destruct (handle_key VK_SPACE gb wc) as [[gd wd]| | |] eqn:Ed;
    cbn [res_bind fst snd] in H; try discriminate.
  destruct (handle_key_space_keeps _ _ _ _ Ed) as (Pd & Kd & Hqd & Hgd). clear Ed.
  (* the keys up to the left arrow *)
  rewrite for_each_app in H. unfold bind at 1 in H.
  destruct (idle_keys_run l2 H2 gd wd) as (we & Ee & Pe & Ke).
  rewrite Ee in H. cbn [res_bind fst snd for_each] in H. clear Ee.
  (* the left arrow *)
  unfold bind at 1 in H.
  destruct (handle_key_left gd we) as (wf & Ef & Pf & Kf).
  assert (Pe' : polls we
                = (polls w + length l0 + length l1 + length l2 + 2)%nat) by lia.
  assert (Ke' : key_state we = key_state w) by congruence.
  rewrite Ke', Pe' in Ef. fold left in Ef.
  rewrite Ef in H. cbn [res_bind fst snd] in H. clear Ef.
  set (gf := if left then _ else gd) in *.
  assert (Hgf : GameState.quit gf = GameState.quit gd
                /\ GameState.screen_type gf = GameState.screen_type gd
                /\ Entity.x (bird_entity gf)
                   = if left then CInt.sub (Entity.x (bird_entity gd)) 1
                     else Entity.x (bird_entity gd)).
  { subst gf. destruct left; repeat split. }
  clearbody gf.
  (* key 38 *)
  unfold bind at 1 in H.
  destruct (handle_key_idle 38 gf wf) as (wg & Eg & Pg & Kg);
    [unfold VK_ESCAPE; lia|unfold VK_SPACE; lia|unfold VK_LEFT; lia
    |unfold VK_RIGHT; lia|].
  rewrite Eg in H. cbn [res_bind fst snd] in H. clear Eg.
  (* the right arrow *)
  unfold bind at 1 in H.
  destruct (handle_key_right gf wg) as (wh & Eh & Ph & Kh).
  assert (Pg' : polls wg
                = (polls w + length l0 + length l1 + length l2 + 4)%nat) by lia.
  assert (Kg' : key_state wg = key_state w) by congruence.
  rewrite Kg', Pg' in Eh. fold right in Eh.
  rewrite Eh in H. cbn [res_bind fst snd] in H. clear Eh.
  set (gh := if right then _ else gf) in *.
  assert (Hgh : GameState.quit gh = GameState.quit gf
                /\ GameState.screen_type gh = GameState.screen_type gf
                /\ Entity.x (bird_entity gh)
                   = if right then CInt.add (Entity.x (bird_entity gf)) 1
                     else Entity.x (bird_entity gf)).
  { subst gh. destruct right; repeat split. }
  clearbody gh.
  (* the keys above *)
  destruct (idle_keys_run l3 H3 gh wh) as (wi & Ei & Pi & Ki).
  rewrite Ei in H. clear Ei. injection H as <- <-.
  destruct Hsb as [Hsb Hbb].
  destruct Hgf as (Hqf & Hsf & Hxf). destruct Hgh as (Hqh & Hsh & Hxh).
  split; [lia|]. split; [congruence|].
  split; [congruence|].
  intros Hscreen. rewrite <- Hsb in Hscreen.
  destruct (Hgd Hscreen) as [Hsd Hxd]. rewrite Hbb in Hxd.
  split; [congruence|]. cbv zeta.
  rewrite Hxh, Hxf, Hxd. reflexivity.
Qed.

Lemma key_loop (gs g1 : GameState.t) (w w1 : World) :
  for_each (map Z.of_nat (seq 0 256)) handle_key gs w = Ret (g1, w1) ->
  polls w1 = (polls w + 256)%nat
  /\ key_state w1 = key_state w
  /\ GameState.quit g1 = GameState.quit gs || key_down w VK_ESCAPE
  /\ (GameState.screen_type gs = GAME_SCREEN ->
      GameState.screen_type g1 = GAME_SCREEN
      /\ Entity.x (bird_entity g1)
         = let x := Entity.x (bird_entity gs) in
           let x := if key_down w VK_LEFT then CInt.sub x 1 else x in
           if key_down w VK_RIGHT then CInt.add x 1 else x).
Proof.
  intros H.
  assert (Hsplit : map Z.of_nat (seq 0 256)
                   = map Z.of_nat (seq 0 27)
                     ++ VK_ESCAPE
                        :: map Z.of_nat (seq 28 4)
                        ++ VK_SPACE
                           :: map Z.of_nat (seq 33 4)
                           ++ VK_LEFT :: 38 :: VK_RIGHT
                              :: map Z.of_nat (seq 40 216))
    by (vm_compute; reflexivity).
  rewrite Hsplit in H. clear Hsplit.
  apply key_loop_segments in H; try idle_segment.
  rewrite !length_map, !length_seq in H.
  replace (polls w + 27 + 4 + 4 + 216 + 5)%nat with (polls w + 256)%nat in H
    by lia.
  replace (polls w + 27 + 4 + 4 + 2)%nat with (polls w + 37)%nat in H by lia.
  replace (polls w + 27 + 4 + 4 + 4)%nat with (polls w + 39)%nat in H by lia.
  exact H.
Qed.

Lemma bind_returned {A B} (m : M A) (k : A -> M B) (w w' : World) (b : B) :
  bind m k w = Ret (b, w') ->
  exists a w1, m w = Ret (a, w1) /\ k a w1 = Ret (b, w').
Proof.
  unfold bind. destruct (m w) as [[a w1]| | |]; cbn [res_bind fst snd];
    intros H; try discriminate.
  exists a, w1. split; [reflexivity|exact H].
Qed.

Lemma game_tick_keys_then (gs : GameState.t) (w : World) :
  game_tick gs w
  = bind (for_each (map Z.of_nat (seq 0 256)) handle_key gs)
         (fun g => bind (title_autopilot (apply_gravity g))
                        (fun g => bind (game_checks g) move_bird)) w.
Proof. reflexivity. Qed.

(** X16.  A tick asks for each of the 256 keys once, in the order of their
    codes.  It sets the quit flag when Escape is held and never clears it,
    whatever else happens in the tick.  On the game screen it moves the
    bird one cell to the left when the left arrow is held and one cell to
    the right when the right arrow is held, and nothing else in the tick
    moves the bird sideways: not the space bar, not a collision. *)
Theorem game_tick_keys (gs gs' : GameState.t) (w w' : World) :
  game_tick gs w = Ret (gs', w') ->
  polls w' = (polls w + 256)%nat
  /\ GameState.quit gs' = GameState.quit gs || key_down w VK_ESCAPE
  /\ (GameState.screen_type gs = GAME_SCREEN ->
      Entity.x (bird_entity gs')
      = let x := Entity.x (bird_entity gs) in
        let x := if key_down w VK_LEFT then CInt.sub x 1 else x in
        if key_down w VK_RIGHT then CInt.add x 1 else x).
Proof.
  intros H. rewrite game_tick_keys_then in H.
  apply bind_returned in H as (g1 & w1 & E1 & H).
  destruct (key_loop _ _ _ _ E1) as (P1 & _ & Q1 & G1). clear E1.
  destruct (keys_after_keys g1 _ _ _ H) as [P2 _].
  split; [congruence|].
  split; [rewrite <- Q1; exact (quit_after_keys _ g1 eq_refl _ _ _ H)|].
  intros Hscreen. destruct (G1 Hscreen) as [Hs1 Hx1].
  rewrite <- Hx1. exact (place_after_keys _ g1 Hs1 eq_refl _ _ _ H).
Qed.

Lemma game_tick_keys_witness :
  exists gs' w',
    game_tick (sample_game GAME_SCREEN (sample_bird 120 40) 7) escape_world
    = Ret (gs', w')
    /\ polls w' = 256%nat
    /\ GameState.quit gs' = true
    /\ Entity.x (bird_entity gs') = 119.
Proof.
  assert (Hret : match game_tick (sample_game GAME_SCREEN (sample_bird 120 40) 7)
                                 escape_world with
                 | Ret _ => true
                 | _ => false
                 end = true) by (vm_compute; reflexivity).
  destruct (game_tick (sample_game GAME_SCREEN (sample_bird 120 40) 7)
                      escape_world) as [[gs' w']| | |] eqn:E;
    try discriminate Hret.
  exists gs', w'. split; [reflexivity|].
  destruct (game_tick_keys _ _ _ _ E) as (P & Q & X).
  split; [exact P|]. split; [exact Q|]. exact (X eq_refl).
Defined.

(** ** The loop of [main] *)

Lemma post_main_loop_turn a (ds : DisplayState.t) (gs : GameState.t)
  (timers : list PeriodicTimer.t) :
  stable a gs ->
  map PeriodicTimer.callback timers = map PeriodicTimer.callback main_timers ->
  post (main_loop_turn (ds, gs, timers))
       (fun st => stable a (snd (fst st))
                  /\ map PeriodicTimer.callback (snd st)
                     = map PeriodicTimer.callback main_timers).
Proof.
  intros Hs Hm. unfold main_loop_turn.
  apply post_bind_any. intros now.
  apply post_bind_any. intros ds1.
  apply (post_bind
           (fun st : PassState =>
              stable a (fst (fst st))
              /\ map PeriodicTimer.callback (snd (fst st))
                 = map PeriodicTimer.callback main_timers)).
  - unfold run_periodic_timers. apply post_for_each.
    + intros i st Hst. apply post_run_timer; [|exact Hst].
      apply main_timers_preserve.
    + cbn [fst snd]. split; [exact Hs|exact Hm].
  - intros pass Hpass. apply post_ret. cbn [fst snd]. exact Hpass.
Qed.

(** X19.  The loop of [main], run with the three timers of [main] from a
    well-formed game state: if it ends, the quit flag is set, the game state
    is well formed, its registered pointers, the views of its entities and
    the gaps of its obstacles are those it started with, and the timers
    still hold the three callbacks. *)
Theorem main_loop_keeps (fuel : nat) (ds ds' : DisplayState.t)
  (gs gs' : GameState.t) (timers timers' : list PeriodicTimer.t) (w w' : World) :
  wf gs ->
  map PeriodicTimer.callback timers = map PeriodicTimer.callback main_timers ->
  main_loop fuel (ds, gs, timers) w = Ret ((ds', gs', timers'), w') ->
  GameState.quit gs' = true
  /\ wf gs'
  /\ assets gs' = assets gs
  /\ map PeriodicTimer.callback timers' = map PeriodicTimer.callback main_timers.
Proof.
  intros Hwf.
  assert (Hs : stable (assets gs) gs) by (split; [exact Hwf|reflexivity]).
  generalize (assets gs) Hs. clear Hwf Hs. intros a Hs.
  revert ds gs timers w Hs.
  induction fuel as [|fuel IH]; intros ds gs timers w Hs Hm H; cbn [main_loop] in H.
  - discriminate H.
  - cbn [fst snd] in H. destruct (GameState.quit gs) eqn:Hq.
    + unfold ret in H. injection H as <- <- <- <-.
      destruct Hs as [Hwf Ha].
      split; [exact Hq|]. split; [exact Hwf|]. split; [exact Ha|exact Hm].
    + apply bind_returned in H as ([[ds1 gs1] timers1] & w1 & Hturn & H).
      destruct (post_main_loop_turn a ds gs timers Hs Hm _ _ _ Hturn) as [Hs1 Hm1].
      cbn [fst snd] in Hs1, Hm1.
      exact (IH ds1 gs1 timers1 w1 Hs1 Hm1 H).
Qed.

Lemma main_loop_keeps_witness :
  let gs := sample_game GAME_SCREEN (sample_bird 120 40) 7 in
  exists ds' gs' timers' w',
    main_loop 2 (sample_display, gs, main_timers) escape_world
    = Ret ((ds', gs', timers'), w')
    /\ GameState.quit gs' = true
    /\ wf gs'
    /\ assets gs' = assets gs.
Proof.
  cbv zeta.
  assert (Hret : match main_loop 2 (sample_display,
                                    sample_game GAME_SCREEN (sample_bird 120 40) 7,
                                    main_timers) escape_world with
                 | Ret _ => true
                 | _ => false
                 end = true) by (vm_compute; reflexivity).
  destruct (main_loop 2 (sample_display,
                         sample_game GAME_SCREEN (sample_bird 120 40) 7,
                         main_timers) escape_world)
    as [[[[ds' gs'] timers'] w']| | |] eqn:E; try discriminate Hret.
  exists ds', gs', timers', w'. split; [reflexivity|].
  destruct (main_loop_keeps _ _ _ _ _ _ _ _ _ (sample_game_wf _ _ _ _) eq_refl E)
    as (Hq & Hwf & Ha & _).
  split; [exact Hq|]. split; [exact Hwf|exact Ha].
Defined.
